(** * URL shortener (url-shortner/main.py): a shallow embedding and its properties

    The service keeps one SQL table, [urls], and exposes five handlers:
    [shorten_url], [redirect_url], [get_url_stats], [bulk_shorten_urls] and
    [deactivate_url].  The handlers are embedded as computations in a small
    state-and-exception monad over a [World] that holds the table, the
    random source read by [secrets.choice] and the clock read by
    [datetime.utcnow].  The two [while True] retry loops take a fuel
    argument; a loop that is still retrying when its fuel ends yields [Spin]. *)

From Stdlib Require Import ZArith List String Ascii Bool Lia Arith.
Import ListNotations.

Set Implicit Arguments.
Local Open Scope string_scope.
Local Open Scope Z_scope.

(** ** Rows of the [urls] table (class [URL]) *)

Module URL.
Record t : Type := make
  { id : Z;
    short_code : string;
    original_url : string;
    created_at : Z;
    click_count : Z;
    expires_at : option Z;
    is_active : bool;
    title : option string }.

Definition with_click_count (n : Z) (r : t) : t :=
  make (id r) (short_code r) (original_url r) (created_at r) n
       (expires_at r) (is_active r) (title r).

Definition with_is_active (b : bool) (r : t) : t :=
  make (id r) (short_code r) (original_url r) (created_at r) (click_count r)
       (expires_at r) b (title r).
End URL.

(** ** Exceptions and outcomes *)

Inductive exn : Type :=
| HTTPException (status_code : Z) (detail : string)
| RequestValidationError
| OverflowError
| IntegrityError
| IndexError.

(** The status line the framework sends for a raised exception: an
    [HTTPException] carries its own, a body that fails validation against the
    request model is answered 422, anything else is a 500. *)
Definition status_of_exn (e : exn) : Z :=
  match e with
  | HTTPException s _ => s
  | RequestValidationError => 422
  | _ => 500
  end.

(** ** The world: table, random source, clock *)

Record World : Type := mkWorld
  { urls : list URL.t;        (* the rows of table "urls", in insertion order *)
    entropy : nat -> nat;     (* successive raw draws of the secure random source *)
    drawn : nat;              (* how many draws have been consumed *)
    clock : nat -> Z;         (* successive readings of datetime.utcnow() *)
    ticks : nat }.            (* how many readings have been taken *)

Definition set_urls (l : list URL.t) (w : World) : World :=
  mkWorld l (entropy w) (drawn w) (clock w) (ticks w).

Inductive outcome (A : Type) : Type :=
| Return (a : A) (w : World)
| Raise (e : exn) (w : World)
| Spin (w : World).

Arguments Return {A} a w.
Arguments Raise {A} e w.
Arguments Spin {A} w.

Definition world_of {A} (o : outcome A) : World :=
  match o with
  | Return _ w => w
  | Raise _ w => w
  | Spin w => w
  end.

Definition M (A : Type) : Type := World -> outcome A.

Definition ret {A} (a : A) : M A := fun w => Return a w.

Definition bind {A B} (m : M A) (f : A -> M B) : M B :=
  fun w =>
    match m w with
    | Return a w' => f a w'
    | Raise e w' => Raise e w'
    | Spin w' => Spin w'
    end.

Definition raise {A} (e : exn) : M A := fun w => Raise e w.

(** [try: m except Exception as e: h e].  A loop that never finishes is not
    an exception, so [Spin] passes through. *)
Definition try_except {A} (m : M A) (h : exn -> M A) : M A :=
  fun w =>
    match m w with
    | Raise e w' => h e w'
    | o => o
    end.

Declare Scope monad_scope.
Delimit Scope monad_scope with monad.
Notation "x <- m ;; k" := (bind m (fun x => k))
  (at level 61, m at next level, right associativity) : monad_scope.
Notation "m ;;; k" := (bind m (fun _ => k))
  (at level 61, right associativity) : monad_scope.
Local Open Scope monad_scope.

(** ** datetime and timedelta

    A [datetime] is the number of microseconds since 0001-01-01T00:00:00; the
    type covers the years 1 to 9999.  [timedelta(days=n)] refuses more than
    999999999 days, and a sum that leaves the range of [datetime] raises
    [OverflowError]. *)

Module datetime.
Definition us_per_day : Z := 86400000000.
Definition MAX_DELTA_DAYS : Z := 999999999.
(* date.max.toordinal() *)
Definition max_ordinal : Z := 3652059.

Definition in_range (x : Z) : bool :=
  (0 <=? x) && (x <? max_ordinal * us_per_day).

Definition timedelta (days : Z) : M Z :=
  if Z.abs days >? MAX_DELTA_DAYS then raise OverflowError
  else ret (days * us_per_day).

Definition add (d delta : Z) : M Z :=
  if in_range (d + delta) then ret (d + delta) else raise OverflowError.

Definition utcnow : M Z :=
  fun w => Return (clock w (ticks w))
                  (mkWorld (urls w) (entropy w) (drawn w) (clock w) (S (ticks w))).
End datetime.

(** ** secrets.choice *)

Module secrets.
(** The next raw draw, reduced to [0, n). *)
Definition randbelow (n : nat) : M nat :=
  fun w => Return (Nat.modulo (entropy w (drawn w)) n)
                  (mkWorld (urls w) (entropy w) (S (drawn w)) (clock w) (ticks w)).

Definition choice (seq : string) : M ascii :=
  match String.length seq with
  | O => raise IndexError
  | n => i <- randbelow n ;;
         match String.get i seq with
         | Some c => ret c
         | None => raise IndexError
         end
  end.
End secrets.

(** ** The session: queries and commits against table [urls] *)

Definition by_code (code : string) (r : URL.t) : bool :=
  String.eqb (URL.short_code r) code.

(** [db.query(URL).filter(URL.short_code == code).first()] *)
Definition query_first (code : string) : M (option URL.t) :=
  fun w => Return (find (by_code code) (urls w)) w.

(** The integer primary key: one more than the largest in the table. *)
Definition next_id (l : list URL.t) : Z :=
  1 + fold_right Z.max 0 (map URL.id l).

(** [db.add(URL(short_code=..., original_url=..., expires_at=..., title=...));
    db.commit(); db.refresh(...)].  The column defaults fill [created_at]
    (a reading of the clock), [click_count] (0) and [is_active] (True); the
    UNIQUE constraint on [short_code] makes the INSERT fail with
    [IntegrityError] when the code is already in the table. *)
Definition db_add_commit (short_code original_url : string)
    (expires_at : option Z) (title : option string) : M URL.t :=
  now <- datetime.utcnow ;;
  fun w =>
    if existsb (by_code short_code) (urls w) then Raise IntegrityError w
    else
      let r := URL.make (next_id (urls w)) short_code original_url now 0
                        expires_at true title in
      Return r (set_urls (urls w ++ [r])%list w).

(** Committing a changed attribute of a loaded row: an UPDATE of that column
    on the row with the loaded primary key. *)
Definition db_update_commit (pk : Z) (f : URL.t -> URL.t) : M unit :=
  fun w =>
    Return tt (set_urls (map (fun x => if URL.id x =? pk then f x else x) (urls w)) w).

(** ** Utility functions *)

Definition ascii_lowercase : string := "abcdefghijklmnopqrstuvwxyz".
Definition ascii_uppercase : string := "ABCDEFGHIJKLMNOPQRSTUVWXYZ".
Definition ascii_letters : string := ascii_lowercase ++ ascii_uppercase.
Definition digits : string := "0123456789".

(** [''.join(secrets.choice(characters) for _ in range(n))] *)
Fixpoint join_choices (n : nat) (characters : string) : M string :=
  match n with
  | O => ret EmptyString
  | S n' =>
      c <- secrets.choice characters ;;
      rest <- join_choices n' characters ;;
      ret (String c rest)
  end.

Definition generate_short_code (length : Z) : M string :=
  let characters := ascii_letters ++ digits in
  join_choices (Z.to_nat length) characters.

(** The default of the [length] parameter. *)
Definition generate_short_code_default_length : Z := 6.

Definition is_url_expired (url_record : URL.t) : M bool :=
  match URL.expires_at url_record with
  | None => ret false
  | Some e => now <- datetime.utcnow ;; ret (now >? e)
  end.

(** The retry loop shared by [shorten_url] and [bulk_shorten_urls]:
    [while True: short_code = generate_short_code(); if not existing: break]. *)
Fixpoint fresh_short_code (fuel : nat) : M string :=
  match fuel with
  | O => fun w => Spin w
  | S fuel' =>
      short_code <- generate_short_code generate_short_code_default_length ;;
      existing_url <- query_first short_code ;;
      match existing_url with
      | Some _ => fresh_short_code fuel'
      | None => ret short_code
      end
  end.

(** [expires_at = None; if days: expires_at = utcnow() + timedelta(days=days)].
    Both [None] and 0 are falsy. *)
Definition compute_expires_at (expires_in_days : option Z) : M (option Z) :=
  match expires_in_days with
  | None => ret None
  | Some days =>
      if days =? 0 then ret None
      else
        now <- datetime.utcnow ;;
        delta <- datetime.timedelta days ;;
        e <- datetime.add now delta ;;
        ret (Some e)
  end.

(** ** External collaborators

    The request models type their URLs as pydantic's [HttpUrl]; the handlers
    call [validators.url] and render a QR image with [qrcode].  None of the
    three is code of this service, so they are taken as an interface. *)

Class Collaborators : Type :=
  { HttpUrl : Type;
    (* pydantic's validation of a raw string against HttpUrl *)
    parse_HttpUrl : string -> option HttpUrl;
    (* str(url) *)
    str_HttpUrl : HttpUrl -> string;
    (* validators.url(s), read as a truth value *)
    validators_url : string -> bool;
    (* base64 of the PNG that qrcode renders for a string *)
    qr_png_base64 : string -> string;
    (* str(e) of a caught exception *)
    str_exn : exn -> string }.

(** ** Request and response models *)

Module URLShortenRequest.
Record t `{Collaborators} : Type := make
  { url : HttpUrl;
    custom_alias : option string;
    expires_in_days : option Z;
    title : option string }.
Arguments make {_} url custom_alias expires_in_days title.
End URLShortenRequest.

Module BulkURLRequest.
Record t `{Collaborators} : Type := make
  { urls : list HttpUrl;
    expires_in_days : option Z }.
Arguments make {_} urls expires_in_days.
End BulkURLRequest.

Module URLResponse.
Record t : Type := make
  { short_url : string;
    original_url : string;
    click_count : Z;
    created_at : Z;
    expires_at : option Z;
    is_active : bool;
    title : option string;
    qr_code : option string }.
End URLResponse.

Module BulkURLResponse.
Record t : Type := make
  { results : list URLResponse.t;
    total_created : Z;
    errors : list string }.
End BulkURLResponse.

Inductive RedirectResponse : Type :=
| Redirect (url : string).

Section Handlers.
Context `{ext : Collaborators}.

Definition is_valid_url (url : string) : bool := validators_url url.

Definition generate_qr_code (url : string) : string :=
  "data:image/png;base64," ++ qr_png_base64 url.

(** A Python string is truthy when it is not empty. *)
Definition truthy (s : string) : bool :=
  match s with
  | EmptyString => false
  | String _ _ => true
  end.

(** POST /api/shorten *)
Definition shorten_url (fuel : nat) (request : URLShortenRequest.t)
  : M URLResponse.t :=
  let url := str_HttpUrl (URLShortenRequest.url request) in
  if negb (is_valid_url url) then
    raise (HTTPException 400 "Invalid URL format")
  else
    short_code <-
      match URLShortenRequest.custom_alias request with
      | Some alias =>
          if truthy alias then
            existing_url <- query_first alias ;;
            match existing_url with
            | Some _ => raise (HTTPException 400 "Custom alias already exists")
            | None => ret alias
            end
          else fresh_short_code fuel
      | None => fresh_short_code fuel
      end ;;
    expires_at <- compute_expires_at (URLShortenRequest.expires_in_days request) ;;
    db_url <- db_add_commit short_code url expires_at
                            (URLShortenRequest.title request) ;;
    let short_url := "http://localhost:8000/" ++ short_code in
    let qr_code := generate_qr_code short_url in
    ret (URLResponse.make short_url url 0 (URL.created_at db_url) expires_at
                          true (URLShortenRequest.title request) (Some qr_code)).

(** GET /{short_code} *)
Definition redirect_url (short_code : string) : M RedirectResponse :=
  url_record <- query_first short_code ;;
  match url_record with
  | None => raise (HTTPException 404 "URL not found")
  | Some r =>
      if negb (URL.is_active r) then
        raise (HTTPException 410 "URL has been deactivated")
      else
        expired <- is_url_expired r ;;
        if expired then raise (HTTPException 410 "URL has expired")
        else
          db_update_commit (URL.id r)
            (URL.with_click_count (URL.click_count r + 1)) ;;;
          ret (Redirect (URL.original_url r))
  end.

(** GET /api/stats/{short_code} *)
Definition get_url_stats (short_code : string) : M URLResponse.t :=
  url_record <- query_first short_code ;;
  match url_record with
  | None => raise (HTTPException 404 "URL not found")
  | Some r =>
      let short_url := "http://localhost:8000/" ++ URL.short_code r in
      let qr_code := generate_qr_code short_url in
      ret (URLResponse.make short_url (URL.original_url r) (URL.click_count r)
                            (URL.created_at r) (URL.expires_at r)
                            (URL.is_active r) (URL.title r) (Some qr_code))
  end.

(** The body of the [try] block for one URL of a bulk request: [inr msg] is
    the [errors.append(msg); continue] exit, [inl r] the
    [results.append(r)] exit. *)
Definition bulk_try (fuel : nat) (expires_in_days : option Z) (url : HttpUrl)
  : M (URLResponse.t + string) :=
  if negb (is_valid_url (str_HttpUrl url)) then
    ret (inr ("Invalid URL format: " ++ str_HttpUrl url))
  else
    short_code <- fresh_short_code fuel ;;
    expires_at <- compute_expires_at expires_in_days ;;
    db_url <- db_add_commit short_code (str_HttpUrl url) expires_at None ;;
    let short_url := "http://localhost:8000/" ++ short_code in
    let qr_code := generate_qr_code short_url in
    ret (inl (URLResponse.make short_url (str_HttpUrl url) 0
                               (URL.created_at db_url) expires_at true None
                               (Some qr_code))).

Definition bulk_except (url : HttpUrl) (e : exn) : M (URLResponse.t + string) :=
  ret (inr ("Error processing " ++ str_HttpUrl url ++ ": " ++ str_exn e)).

(** [for url in request.urls: try: ... except Exception as e: ...] *)
Fixpoint bulk_for (fuel : nat) (expires_in_days : option Z)
    (todo : list HttpUrl) (results : list URLResponse.t) (errors : list string)
  : M (list URLResponse.t * list string) :=
  match todo with
  | [] => ret (results, errors)
  | url :: rest =>
      item <- try_except (bulk_try fuel expires_in_days url) (bulk_except url) ;;
      match item with
      | inl r => bulk_for fuel expires_in_days rest (results ++ [r])%list errors
      | inr msg => bulk_for fuel expires_in_days rest results (errors ++ [msg])%list
      end
  end.

(** POST /api/bulk-shorten *)
Definition bulk_shorten_urls (fuel : nat) (request : BulkURLRequest.t)
  : M BulkURLResponse.t :=
  out <- bulk_for fuel (BulkURLRequest.expires_in_days request)
                  (BulkURLRequest.urls request) [] [] ;;
  let (results, errors) := out in
  ret (BulkURLResponse.make results (Z.of_nat (List.length results)) errors).

(** DELETE /api/deactivate/{short_code} *)
Definition deactivate_url (short_code : string) : M string :=
  url_record <- query_first short_code ;;
  match url_record with
  | None => raise (HTTPException 404 "URL not found")
  | Some r =>
      db_update_commit (URL.id r) (URL.with_is_active false) ;;;
      ret "URL deactivated successfully"
  end.

(** *** The request body of POST /api/bulk-shorten

    The handler's parameter is typed [BulkURLRequest], whose [urls] are
    [List[HttpUrl]]: the framework validates the raw body against the model
    and answers 422 without calling the handler when an entry is not an
    [HttpUrl]. *)
Fixpoint validate_urls (raw : list string) : option (list HttpUrl) :=
  match raw with
  | [] => Some []
  | s :: rest =>
      match parse_HttpUrl s, validate_urls rest with
      | Some u, Some us => Some (u :: us)
      | _, _ => None
      end
  end.

Definition post_bulk_shorten (fuel : nat) (raw_urls : list string)
    (expires_in_days : option Z) : M BulkURLResponse.t :=
  match validate_urls raw_urls with
  | None => raise RequestValidationError
  | Some us => bulk_shorten_urls fuel (BulkURLRequest.make us expires_in_days)
  end.

(** *** Runs of the service *)

Inductive call : Type :=
| POST_shorten (fuel : nat) (request : URLShortenRequest.t)
| GET_redirect (short_code : string)
| GET_stats (short_code : string)
| POST_bulk_shorten (fuel : nat) (request : BulkURLRequest.t)
| DELETE_deactivate (short_code : string).

(** The world a call leaves behind, whatever its outcome. *)
Definition serve (c : call) (w : World) : World :=
  match c with
  | POST_shorten fuel request => world_of (shorten_url fuel request w)
  | GET_redirect code => world_of (redirect_url code w)
  | GET_stats code => world_of (get_url_stats code w)
  | POST_bulk_shorten fuel request => world_of (bulk_shorten_urls fuel request w)
  | DELETE_deactivate code => world_of (deactivate_url code w)
  end.

Definition run (trace : list call) (w : World) : World :=
  fold_left (fun w c => serve c w) trace w.

(** A freshly created database: [Base.metadata.create_all] on an empty file. *)
Definition boot (e : nat -> nat) (c : nat -> Z) : World := mkWorld [] e 0 c 0.

Inductive reachable : World -> Prop :=
| reachable_boot : forall e c, reachable (boot e c)
| reachable_serve : forall w c, reachable w -> reachable (serve c w).

(** Whether call [c], served in world [w], is a redirect of [code] that
    succeeds. *)
Definition successful_redirect (code : string) (c : call) (w : World) : bool :=
  match c with
  | GET_redirect code' =>
      String.eqb code' code &&
      match redirect_url code' w with
      | Return _ _ => true
      | _ => false
      end
  | _ => false
  end.

(** The number of redirects of [code] requested along a trace. *)
Fixpoint redirects_of (code : string) (trace : list call) : Z :=
  match trace with
  | [] => 0
  | GET_redirect code' :: rest =>
      (if String.eqb code' code then 1 else 0) + redirects_of code rest
  | _ :: rest => redirects_of code rest
  end.

(** No call of the trace deactivates [code]. *)
Fixpoint never_deactivated (code : string) (trace : list call) : bool :=
  match trace with
  | [] => true
  | DELETE_deactivate code' :: rest =>
      negb (String.eqb code' code) && never_deactivated code rest
  | _ :: rest => never_deactivated code rest
  end.

(** The number of successful redirects of [code] along a trace. *)
Fixpoint successful_redirects (code : string) (trace : list call) (w : World) : Z :=
  match trace with
  | [] => 0
  | c :: rest =>
      (if successful_redirect code c w then 1 else 0)
      + successful_redirects code rest (serve c w)
  end.
End Handlers.

(** ** A concrete set of collaborators, to run examples

    An [HttpUrl] is a string that starts with "http://" or "https://" and
    goes on for at least one more character; [validators.url] accepts the
    same strings, [str] of a URL is the string itself, and the rendered
    image is stood for by its text.  This agrees with pydantic and
    validators on the strings used in the examples of this file; nothing
    general is derived from it. *)

Definition has_http_scheme (s : string) : bool :=
  (String.prefix "http://" s && (7 <? String.length s)%nat)
  || (String.prefix "https://" s && (8 <? String.length s)%nat).

Definition reference_parse (s : string)
  : option { u : string | has_http_scheme u = true } :=
  match has_http_scheme s as b
        return has_http_scheme s = b -> option { u | has_http_scheme u = true }
  with
  | true => fun H => Some (exist _ s H)
  | false => fun _ => None
  end eq_refl.

Definition reference : Collaborators :=
  {| HttpUrl := { u : string | has_http_scheme u = true };
     parse_HttpUrl := reference_parse;
     str_HttpUrl := fun u => proj1_sig u;
     validators_url := has_http_scheme;
     qr_png_base64 := fun s => s;
     str_exn := fun e =>
       match e with
       | HTTPException _ detail => detail
       | RequestValidationError => "validation error"
       | OverflowError => "date value out of range"
       | IntegrityError => "UNIQUE constraint failed: urls.short_code"
       | IndexError => "Cannot choose from an empty sequence"
       end |}.

(** Data for the examples: a random source that counts up, a clock that
    starts on 2025-01-01 and gains a millisecond per reading, the empty
    database over them, and a few URLs. *)
Definition example_entropy (i : nat) : nat := i.

Definition example_clock (i : nat) : Z := 63871286400000000 + Z.of_nat i * 1000.

Definition example_boot : World := boot example_entropy example_clock.

(** A table with an inactive row, an expired row and a live row. *)
Definition example_row_inactive : URL.t :=
  URL.make 1 "promo" "https://a.com" (example_clock 0) 3 None false (Some "Promo").

Definition example_row_expired : URL.t :=
  URL.make 2 "sale24" "https://b.com" (example_clock 1) 0
           (Some (example_clock 1 - 86400000000)) true None.

Definition example_row_live : URL.t :=
  URL.make 3 "docs" "https://a.com" (example_clock 2) 7 None true None.

Definition example_world : World :=
  mkWorld [example_row_inactive; example_row_expired; example_row_live]
          example_entropy 0 example_clock 3.

Definition example_url_a : @HttpUrl reference := exist _ "https://a.com" eq_refl.
Definition example_url_b : @HttpUrl reference := exist _ "https://b.com" eq_refl.

Definition example_url_x : @HttpUrl reference :=
  exist _ "https://example.com/x" eq_refl.

(** The world reached from the empty database by a bulk request for two
    URLs followed by a shorten request with a custom alias. *)
Definition example_reached : World :=
  @serve reference
    (POST_shorten 1 (URLShortenRequest.make example_url_a (Some "docs") None None))
    (@serve reference
       (POST_bulk_shorten 1 (BulkURLRequest.make [example_url_a; example_url_b] None))
       example_boot).

(** ** Vocabulary of the properties *)

(** The 62 alphanumeric characters, by their codes. *)
Definition is_alnum (c : ascii) : bool :=
  let n := nat_of_ascii c in
  ((97 <=? n) && (n <=? 122) || (65 <=? n) && (n <=? 90)
   || (48 <=? n) && (n <=? 57))%nat.

Fixpoint string_forallb (p : ascii -> bool) (s : string) : bool :=
  match s with
  | EmptyString => true
  | String c rest => p c && string_forallb p rest
  end.

(** What a client sees of an outcome: the status of the response, if any. *)
Definition status {A} (ok : Z) (o : outcome A) : option Z :=
  match o with
  | Return _ _ => Some ok
  | Raise e _ => Some (status_of_exn e)
  | Spin _ => None
  end.

Definition NotFound : Z := 404.
Definition Gone : Z := 410.

(** The row that a lookup by short code finds. *)
Definition lookup (code : string) (w : World) : option URL.t :=
  find (by_code code) (urls w).

Definition codes (l : list URL.t) : list string := map URL.short_code l.

(** The invariant of the table: short codes and primary keys are unique, no
    short code is empty, and no click counter is negative. *)
Record table_ok (l : list URL.t) : Prop :=
  { codes_unique : NoDup (codes l);
    ids_unique : NoDup (map URL.id l);
    codes_nonempty : Forall (fun r => truthy (URL.short_code r) = true) l;
    clicks_nonneg : Forall (fun r => 0 <= URL.click_count r) l }.

(** The table after the UPDATE that [redirect_url] commits for the loaded row
    [r], and after the one that [deactivate_url] commits. *)
Definition click (r : URL.t) (l : list URL.t) : list URL.t :=
  map (fun x => if URL.id x =? URL.id r
                then URL.with_click_count (URL.click_count r + 1) x else x) l.

Definition switch_off (r : URL.t) (l : list URL.t) : list URL.t :=
  map (fun x => if URL.id x =? URL.id r then URL.with_is_active false x else x) l.

(** The world after [n] more draws from the random source, and after [n]
    more readings of the clock. *)
Definition after_draws (n : nat) (w : World) : World :=
  mkWorld (urls w) (entropy w) (n + drawn w) (clock w) (ticks w).

Definition after_ticks (n : nat) (w : World) : World :=
  mkWorld (urls w) (entropy w) (drawn w) (clock w) (n + ticks w).

(** The clock never runs backwards. *)
Definition monotone (c : nat -> Z) : Prop :=
  forall i j, (i <= j)%nat -> c i <= c j.

(** [w'] is a later world of the same environment: same random source and
    clock, with no draw and no reading given back. *)
Definition later (w w' : World) : Prop :=
  entropy w' = entropy w /\ clock w' = clock w
  /\ (ticks w <= ticks w')%nat /\ (drawn w <= drawn w')%nat.

(** A row as the column defaults leave it: never clicked, active. *)
Definition pristine (r : URL.t) : Prop :=
  URL.click_count r = 0 /\ URL.is_active r = true.

(** [w'] is a later world whose table is that of [w] with pristine rows
    appended, the invariant kept. *)
Definition grows (w w' : World) : Prop :=
  later w w'
  /\ (exists new, urls w' = (urls w ++ new)%list /\ Forall pristine new)
  /\ (table_ok (urls w) -> table_ok (urls w')).

(** Row [r] is what one run of the create path appended between [w] and
    [w']: the column defaults, a code that was free and is not empty, and an
    expiry computed from a reading of the clock taken on the way. *)
Definition inserted (w w' : World) (expires_in_days : option Z) (r : URL.t)
  : Prop :=
  exists w1,
    later w w1 /\ urls w1 = urls w
    /\ w' = set_urls (urls w ++ [r])%list (after_ticks 1 w1)
    /\ URL.id r = next_id (urls w)
    /\ URL.created_at r = clock w (ticks w1)
    /\ pristine r
    /\ find (by_code (URL.short_code r)) (urls w) = None
    /\ truthy (URL.short_code r) = true
    /\ match expires_in_days with
       | None => URL.expires_at r = None
       | Some days =>
           if days =? 0 then URL.expires_at r = None
           else exists i, (ticks w <= i)%nat /\ ticks w1 = S i
                /\ URL.expires_at r
                   = Some (clock w i + days * datetime.us_per_day)
       end.

(** Row [r] is not expired at any reading the clock of [w] has yet to give. *)
Definition never_expires (w : World) (r : URL.t) : Prop :=
  match URL.expires_at r with
  | None => True
  | Some e => forall i, (ticks w <= i)%nat -> clock w i <= e
  end.

(** The [n] short codes that the next [n] runs of the generator would
    return, read off the random source from position [p]. *)
Definition code_at (e : nat -> nat) (p : nat) : string :=
  match generate_short_code generate_short_code_default_length
          (mkWorld [] e p (fun _ => 0) 0) with
  | Return s _ => s
  | _ => EmptyString
  end.

Fixpoint upcoming (e : nat -> nat) (p : nat) (n : nat) : list string :=
  match n with
  | O => []
  | S n' => code_at e p :: upcoming e (6 + p) n'
  end.

(** The next [n] generated codes are pairwise different and none of them is
    in the table: no retry will be needed for them. *)
Definition collision_free (w : World) (n : nat) : Prop :=
  NoDup (upcoming (entropy w) (drawn w) n)
  /\ forall c, In c (upcoming (entropy w) (drawn w) n) -> ~ In c (codes (urls w)).

(** Row [r] was appended by a run of the create path somewhere between [w]
    and [w']. *)
Definition appended_within (w w' : World) (expires_in_days : option Z)
    (r : URL.t) : Prop :=
  exists wa wb, later w wa /\ inserted wa wb expires_in_days r /\ later wb w'.

Fixpoint lefts {A B} (l : list (A + B)) : list A :=
  match l with
  | [] => []
  | inl a :: rest => a :: lefts rest
  | inr _ :: rest => lefts rest
  end.

Fixpoint rights {A B} (l : list (A + B)) : list B :=
  match l with
  | [] => []
  | inl _ :: rest => rights rest
  | inr b :: rest => b :: rights rest
  end.

(** Whether the expiry asked for can be computed at reading [now] without
    leaving the range of [timedelta] or of [datetime]. *)
Definition expiry_fits (expires_in_days : option Z) (now : Z) : bool :=
  match expires_in_days with
  | None => true
  | Some days =>
      (days =? 0)
      || ((Z.abs days <=? datetime.MAX_DELTA_DAYS)
          && datetime.in_range (now + days * datetime.us_per_day))
  end.

Section Vocabulary.
Context `{ext : Collaborators}.

(** The response both create paths build for the row they inserted. *)
Definition created_response (r : URL.t) : URLResponse.t :=
  URLResponse.make
    ("http://localhost:8000/" ++ URL.short_code r)
    (URL.original_url r) 0 (URL.created_at r) (URL.expires_at r) true
    (URL.title r)
    (Some (generate_qr_code ("http://localhost:8000/" ++ URL.short_code r))).

(** How a created row [r] stands to the [expires_in_days] of the request
    that created it between [w] and [w']: with 0 it has no expiry and is
    never expired; with -N it expires N days before a reading [i] of the
    clock taken during the request, no later than [created_at], and is
    answered Gone from the moment the request has returned. *)
Definition days_policy (expires_in_days : option Z) (w w' : World) (r : URL.t)
  : Prop :=
  (expires_in_days = Some 0 ->
   URL.expires_at r = None
   /\ forall w'', is_url_expired r w'' = Return false w'')
  /\ (forall N, 0 < N -> expires_in_days = Some (- N) ->
        exists i, (ticks w <= i < ticks w')%nat
          /\ URL.expires_at r = Some (clock w i - N * datetime.us_per_day)
          /\ (monotone (clock w) ->
              clock w i <= URL.created_at r
              /\ redirect_url (URL.short_code r) w'
                 = Raise (HTTPException 410 "URL has expired")
                         (after_ticks 1 w'))).

(** What one URL of a bulk request contributes: a response when the URL is
    valid, else an error string that names it. *)
Definition item_ok (url : HttpUrl) (item : URLResponse.t + string) : Prop :=
  match item with
  | inl resp =>
      is_valid_url (str_HttpUrl url) = true
      /\ URLResponse.original_url resp = str_HttpUrl url
  | inr msg =>
      (is_valid_url (str_HttpUrl url) = false
       /\ msg = "Invalid URL format: " ++ str_HttpUrl url)
      \/ (is_valid_url (str_HttpUrl url) = true
          /\ exists e,
               msg = "Error processing " ++ str_HttpUrl url ++ ": " ++ str_exn e)
  end.

(** The resolver of the specification with its two policy checks in the
    other order (expiry first, activation second); compared with
    [redirect_url] below. *)
Definition redirect_url_expiry_first (short_code : string) : M RedirectResponse :=
  url_record <- query_first short_code ;;
  match url_record with
  | None => raise (HTTPException 404 "URL not found")
  | Some r =>
      expired <- is_url_expired r ;;
      if expired then raise (HTTPException 410 "URL has expired")
      else if negb (URL.is_active r) then
        raise (HTTPException 410 "URL has been deactivated")
      else
        db_update_commit (URL.id r)
          (URL.with_click_count (URL.click_count r + 1)) ;;;
        ret (Redirect (URL.original_url r))
  end.
End Vocabulary.

(** ** The client script (test_api.py)

    [test_shorten_url] and [test_custom_alias] read the short code back from
    a response as [result['short_url'].split('/')[-1]]. *)

(** [s.split(sep)] for a separator of one character. *)
Fixpoint str_split (sep : ascii) (s : string) : list string :=
  match s with
  | EmptyString => [EmptyString]
  | String c rest =>
      if Ascii.eqb c sep then EmptyString :: str_split sep rest
      else
        match str_split sep rest with
        | seg :: segs => String c seg :: segs
        | [] => [String c EmptyString]
        end
  end.

(** [l[-1]]; [None] stands for the IndexError of an empty list. *)
Fixpoint last_item (l : list string) : option string :=
  match l with
  | [] => None
  | [x] => Some x
  | _ :: rest => last_item rest
  end.

Definition short_code_of_short_url (short_url : string) : option string :=
  last_item (str_split "/"%char short_url).

Fixpoint string_existsb (p : ascii -> bool) (s : string) : bool :=
  match s with
  | EmptyString => false
  | String c rest => p c || string_existsb p rest
  end.

Definition has_slash (s : string) : bool :=
  string_existsb (fun c => Ascii.eqb c "/"%char) s.

(** ** Further vocabulary *)

(** The three changes a commit makes to the table: the INSERT of a row with
    the next key, the column defaults and a code that is free and not empty;
    the UPDATE of click_count to the loaded value plus one on the key of a
    stored row; the UPDATE of is_active to False on the key of a stored
    row. *)
Inductive table_step : list URL.t -> list URL.t -> Prop :=
| step_insert : forall l code url t e title,
    find (by_code code) l = None ->
    truthy code = true ->
    table_step l (l ++ [URL.make (next_id l) code url t 0 e true title])%list
| step_click : forall l r,
    In r l -> URL.is_active r = true -> table_step l (click r l)
| step_switch_off : forall l r,
    In r l -> table_step l (switch_off r l).

Inductive table_steps : list URL.t -> list URL.t -> Prop :=
| steps_none : forall l, table_steps l l
| steps_more : forall l1 l2 l3,
    table_steps l1 l2 -> table_step l2 l3 -> table_steps l1 l3.

(** The keys of the table are 1, 2, ..., in order. *)
Definition sequential_ids (l : list URL.t) : Prop :=
  map URL.id l = map Z.of_nat (seq 1 (List.length l)).

(** The position of a character in a string (its length if absent), and a
    random source whose draws spell out the string [s] in the alphabet of
    the code generator. *)
Fixpoint index_of (c : ascii) (s : string) : nat :=
  match s with
  | EmptyString => O
  | String a rest => if Ascii.eqb a c then O else S (index_of c rest)
  end.

Definition entropy_for (s : string) (i : nat) : nat :=
  match String.get i s with
  | Some c => index_of c (ascii_letters ++ digits)
  | None => O
  end.

(** The row found under a code is not expired at the next reading of the
    clock. *)
Definition not_expired_now (w : World) (r : URL.t) : Prop :=
  match URL.expires_at r with
  | None => True
  | Some e => clock w (ticks w) <= e
  end.

(** The error strings of the bulk handler. *)
Section BulkMessages.
Context `{ext : Collaborators}.

Definition invalid_format_message (url : HttpUrl) : string :=
  "Invalid URL format: " ++ str_HttpUrl url.

Definition processing_error_message (url : HttpUrl) (e : exn) : string :=
  "Error processing " ++ str_HttpUrl url ++ ": " ++ str_exn e.

Definition url_valid (url : HttpUrl) : bool := is_valid_url (str_HttpUrl url).
End BulkMessages.

(** * Properties *)

(** ** The code generator *)

Lemma string_get_lt (s : string) (i : nat) :
  (i < String.length s)%nat -> exists c, String.get i s = Some c.
Proof.
  revert i; induction s as [|a s IH]; intros i Hi; simpl in *.
  - lia.
  - destruct i as [|i]; [now exists a|]. apply IH; lia.
Qed.

Lemma string_forallb_get (p : ascii -> bool) (s : string) (i : nat) (c : ascii) :
  string_forallb p s = true -> String.get i s = Some c -> p c = true.
Proof.
  revert i; induction s as [|a s IH]; intros i Hall Hget; simpl in *.
  - discriminate.
  - apply andb_true_iff in Hall as [Ha Hs].
    destruct i as [|i]; [now inversion Hget; subst|]. eauto.
Qed.

Lemma choice_returns (seq : string) (w : World) :
  seq <> EmptyString ->
  exists c i, secrets.choice seq w = Return c (after_draws 1 w)
              /\ String.get i seq = Some c.
Proof.
  intros Hne. unfold secrets.choice.
  destruct (String.length seq) as [|n] eqn:Hlen.
  - destruct seq; [congruence | discriminate].
  - unfold bind, secrets.randbelow.
    set (i := Nat.modulo (entropy w (drawn w)) (S n)).
    assert (Hi : (i < String.length seq)%nat).
    { rewrite Hlen. apply Nat.mod_upper_bound. discriminate. }
    destruct (string_get_lt seq Hi) as [c Hc].
    exists c, i. rewrite Hc. split; reflexivity.
Qed.

Lemma after_draws_succ (n : nat) (w : World) :
  after_draws n (after_draws 1 w) = after_draws (S n) w.
Proof.
  unfold after_draws; simpl. f_equal. lia.
Qed.

Lemma join_choices_returns (p : ascii -> bool) (characters : string) :
  characters <> EmptyString ->
  string_forallb p characters = true ->
  forall n w, exists s,
    join_choices n characters w = Return s (after_draws n w)
    /\ String.length s = n /\ string_forallb p s = true.
Proof.
  intros Hne Hall. induction n as [|n IH]; intros w.
  - exists EmptyString. destruct w; repeat split.
  - destruct (choice_returns w Hne) as (c & i & Hc & Hget).
    destruct (IH (after_draws 1 w)) as (s & Hs & Hlen & Hp).
    exists (String c s). simpl. unfold bind at 1. rewrite Hc.
    unfold bind at 1. rewrite Hs. unfold ret.
    rewrite after_draws_succ. repeat split.
    + simpl. now rewrite Hlen.
    + simpl. rewrite Hp, (string_forallb_get _ _ _ Hall Hget). reflexivity.
Qed.

Lemma generate_short_code_returns (length : Z) (w : World) :
  exists s,
    generate_short_code length w = Return s (after_draws (Z.to_nat length) w)
    /\ String.length s = Z.to_nat length
    /\ string_forallb is_alnum s = true.
Proof.
  unfold generate_short_code.
  apply join_choices_returns; [discriminate | reflexivity].
Qed.

Lemma alnum_alphabet (c : ascii) :
  is_alnum c = true <-> In c (list_ascii_of_string (ascii_letters ++ digits)).
Proof.
  split.
  - destruct c as [[] [] [] [] [] [] [] []]; intros H;
      try discriminate H; vm_compute; tauto.
  - intros H. vm_compute in H.
    repeat (destruct H as [H|H]; [subst c; reflexivity|]). contradiction.
Qed.

(** ** The primitives, outcome by outcome *)

Lemma after_draws_add (n m : nat) (w : World) :
  after_draws n (after_draws m w) = after_draws (n + m) w.
Proof.
  unfold after_draws; simpl. f_equal. lia.
Qed.

Lemma later_refl (w : World) : later w w.
Proof. unfold later; auto. Qed.

Lemma later_trans (w1 w2 w3 : World) : later w1 w2 -> later w2 w3 -> later w1 w3.
Proof.
  unfold later. intros (-> & -> & ? & ?) (-> & -> & ? & ?).
  repeat split; lia.
Qed.

Lemma later_after_draws (n : nat) (w : World) : later w (after_draws n w).
Proof. unfold later; simpl. repeat split; lia. Qed.

Lemma later_after_ticks (n : nat) (w : World) : later w (after_ticks n w).
Proof. unfold later; simpl. repeat split; lia. Qed.

Lemma later_set_urls (l : list URL.t) (w : World) : later w (set_urls l w).
Proof. unfold later; simpl. repeat split; lia. Qed.

Lemma fresh_short_code_inv (fuel : nat) (w : World) :
  match fresh_short_code fuel w with
  | Return c w' =>
      (exists n, w' = after_draws n w)
      /\ find (by_code c) (urls w) = None
      /\ String.length c = 6%nat
      /\ string_forallb is_alnum c = true
  | Raise _ _ => False
  | Spin w' => exists n, w' = after_draws n w
  end.
Proof.
  revert w; induction fuel as [|fuel IH]; intros w; simpl.
  - exists 0%nat. now destruct w.
  - destruct (generate_short_code_returns generate_short_code_default_length w)
      as (s & Hs & Hlen & Halnum).
    unfold bind at 1. rewrite Hs. unfold bind, query_first.
    change (urls (after_draws _ w)) with (urls w).
    destruct (find (by_code s) (urls w)) eqn:Hfind.
    + specialize (IH (after_draws (Z.to_nat generate_short_code_default_length) w)).
      destruct (fresh_short_code fuel _) as [c w'|e w'|w']; auto.
      * destruct IH as ((n & ->) & Hf & Hl & Ha). repeat split; auto.
        rewrite after_draws_add. eauto.
      * destruct IH as (n & ->). rewrite after_draws_add. eauto.
    + unfold ret. repeat split; eauto.
Qed.

Lemma compute_expires_at_inv (expires_in_days : option Z) (w : World) :
  match compute_expires_at expires_in_days w with
  | Return e w' =>
      match expires_in_days with
      | None => e = None /\ w' = w
      | Some days =>
          if days =? 0 then e = None /\ w' = w
          else e = Some (clock w (ticks w) + days * datetime.us_per_day)
               /\ w' = after_ticks 1 w
               /\ Z.abs days <= datetime.MAX_DELTA_DAYS
               /\ datetime.in_range
                    (clock w (ticks w) + days * datetime.us_per_day) = true
      end
  | Raise e w' =>
      e = OverflowError /\ w' = after_ticks 1 w
      /\ exists days, expires_in_days = Some days /\ days <> 0
         /\ (datetime.MAX_DELTA_DAYS < Z.abs days
             \/ datetime.in_range
                  (clock w (ticks w) + days * datetime.us_per_day) = false)
  | Spin _ => False
  end.
Proof.
  unfold compute_expires_at.
  destruct expires_in_days as [days|]; [|unfold ret; auto].
  destruct (days =? 0) eqn:Hz; [unfold ret; auto|].
  apply Z.eqb_neq in Hz.
  unfold bind, datetime.utcnow, datetime.timedelta.
  destruct (Z.abs days >? datetime.MAX_DELTA_DAYS) eqn:Habs.
  - unfold raise. repeat split. exists days. repeat split; auto.
    left. apply Z.gtb_lt in Habs. lia.
  - unfold ret, datetime.add. cbn [clock ticks].
    destruct (datetime.in_range _) eqn:Hr.
    + unfold ret. repeat split; auto.
      destruct (Z.gtb_spec (Z.abs days) datetime.MAX_DELTA_DAYS); [discriminate|lia].
    + unfold raise. repeat split. exists days. repeat split; auto.
Qed.

Lemma db_add_commit_inv (short_code original_url : string)
    (expires_at : option Z) (title : option string) (w : World) :
  match db_add_commit short_code original_url expires_at title w with
  | Return r w' =>
      r = URL.make (next_id (urls w)) short_code original_url
                   (clock w (ticks w)) 0 expires_at true title
      /\ w' = set_urls (urls w ++ [r])%list (after_ticks 1 w)
      /\ find (by_code short_code) (urls w) = None
  | Raise e w' =>
      e = IntegrityError /\ w' = after_ticks 1 w
      /\ find (by_code short_code) (urls w) <> None
  | Spin _ => False
  end.
Proof.
  unfold db_add_commit, bind, datetime.utcnow. cbn [urls clock ticks].
  destruct (existsb (by_code short_code) (urls w)) eqn:Hex.
  - repeat split. intros Hnone.
    apply existsb_exists in Hex as (x & Hin & Hx).
    now apply (find_none _ _ Hnone) in Hin; congruence.
  - repeat split.
    destruct (find (by_code short_code) (urls w)) eqn:Hfind; [|reflexivity].
    apply find_some in Hfind as [Hin Hx].
    assert (existsb (by_code short_code) (urls w) = true)
      by (apply existsb_exists; eauto).
    congruence.
Qed.

(** ** The table invariant *)

Lemma by_code_true (c : string) (r : URL.t) :
  by_code c r = true <-> URL.short_code r = c.
Proof. unfold by_code. apply String.eqb_eq. Qed.

Lemma find_by_code_none (c : string) (l : list URL.t) :
  find (by_code c) l = None <-> ~ In c (codes l).
Proof.
  split.
  - intros Hnone Hin. apply in_map_iff in Hin as (r & Hr & Hin).
    apply (find_none _ _ Hnone) in Hin.
    apply by_code_true in Hr. congruence.
  - intros Hnin. destruct (find (by_code c) l) as [r|] eqn:Hf; [|reflexivity].
    apply find_some in Hf as [Hin Hr]. apply by_code_true in Hr.
    exfalso. apply Hnin. apply in_map_iff. eauto.
Qed.

Lemma find_by_code_code (c : string) (l : list URL.t) (r : URL.t) :
  find (by_code c) l = Some r -> In r l /\ URL.short_code r = c.
Proof.
  intros Hf. apply find_some in Hf as [Hin Hr].
  apply by_code_true in Hr. auto.
Qed.

(** Under unique codes the lookup by a row's code finds that very row. *)
Lemma find_by_code_unique (l : list URL.t) (r : URL.t) :
  NoDup (codes l) -> In r l -> find (by_code (URL.short_code r)) l = Some r.
Proof.
  induction l as [|x l IH]; intros Hnd Hin; [contradiction|].
  simpl in *. apply NoDup_cons_iff in Hnd as [Hx Hnd].
  destruct Hin as [->|Hin].
  - unfold by_code at 1. now rewrite String.eqb_refl.
  - destruct (by_code (URL.short_code r) x) eqn:Hb; [|auto].
    apply by_code_true in Hb. exfalso. apply Hx. rewrite Hb.
    now apply in_map.
Qed.

Lemma find_app_some (c : string) (l new : list URL.t) (r : URL.t) :
  find (by_code c) l = Some r -> find (by_code c) (l ++ new) = Some r.
Proof.
  induction l as [|x l IH]; simpl; [discriminate|].
  destruct (by_code c x); auto.
Qed.

Lemma find_app_none (c : string) (l new : list URL.t) :
  find (by_code c) l = None -> find (by_code c) (l ++ new) = find (by_code c) new.
Proof.
  induction l as [|x l IH]; simpl; [auto|].
  destruct (by_code c x); [discriminate|auto].
Qed.

Lemma next_id_above (l : list URL.t) (r : URL.t) :
  In r l -> URL.id r < next_id l.
Proof.
  unfold next_id. induction l as [|x l IH]; intros Hin; [contradiction|].
  cbn [map fold_right]. destruct Hin as [->|Hin]; [lia|].
  specialize (IH Hin). lia.
Qed.

Lemma next_id_fresh (l : list URL.t) : ~ In (next_id l) (map URL.id l).
Proof.
  intros Hin. apply in_map_iff in Hin as (r & Hr & Hin).
  apply next_id_above in Hin. lia.
Qed.

Lemma table_ok_nil : table_ok [].
Proof. split; simpl; constructor. Qed.

Lemma NoDup_snoc {A} (l : list A) (a : A) :
  NoDup l -> ~ In a l -> NoDup (l ++ [a]).
Proof.
  intros Hnd Hnin. apply NoDup_app; auto.
  - constructor; [intros []|constructor].
  - intros x Hx [<-|[]]. contradiction.
Qed.

Lemma table_ok_insert (l : list URL.t) (r : URL.t) :
  table_ok l ->
  find (by_code (URL.short_code r)) l = None ->
  truthy (URL.short_code r) = true ->
  URL.id r = next_id l ->
  0 <= URL.click_count r ->
  table_ok (l ++ [r]).
Proof.
  intros [Hc Hi Hn Hk] Hfind Htruthy Hid Hclicks. split.
  - unfold codes. rewrite map_app. simpl. apply NoDup_snoc; auto.
    now apply find_by_code_none.
  - rewrite map_app. simpl. apply NoDup_snoc; auto.
    rewrite Hid. apply next_id_fresh.
  - apply Forall_app. split; auto.
  - apply Forall_app. split; auto.
Qed.

(** An UPDATE that leaves key and code alone keeps the invariant. *)
Lemma table_ok_update (l : list URL.t) (pk : Z) (f : URL.t -> URL.t) :
  (forall x, URL.id (f x) = URL.id x) ->
  (forall x, URL.short_code (f x) = URL.short_code x) ->
  (forall x, In x l -> URL.id x = pk -> 0 <= URL.click_count (f x)) ->
  table_ok l ->
  table_ok (map (fun x => if URL.id x =? pk then f x else x) l).
Proof.
  intros Hid Hcode Hclick [Hc Hi Hn Hk].
  assert (Hcodes : codes (map (fun x => if URL.id x =? pk then f x else x) l)
                   = codes l).
  { unfold codes. rewrite map_map. apply map_ext.
    intros x. destruct (URL.id x =? pk); auto. }
  assert (Hids : map URL.id (map (fun x => if URL.id x =? pk then f x else x) l)
                 = map URL.id l).
  { rewrite map_map. apply map_ext.
    intros x. destruct (URL.id x =? pk); auto. }
  split.
  - now rewrite Hcodes.
  - now rewrite Hids.
  - apply Forall_map. rewrite Forall_forall in *. intros x Hx.
    destruct (URL.id x =? pk); [rewrite Hcode|]; auto.
  - apply Forall_map. rewrite Forall_forall in *. intros x Hx.
    destruct (URL.id x =? pk) eqn:Hpk; auto.
    apply Hclick; auto. now apply Z.eqb_eq.
Qed.

(** Under unique keys an UPDATE by key rewrites exactly one row. *)
Lemma update_by_id_split (l : list URL.t) (r : URL.t) (f : URL.t -> URL.t) :
  NoDup (map URL.id l) -> In r l ->
  exists pre post,
    l = (pre ++ r :: post)%list
    /\ map (fun x => if URL.id x =? URL.id r then f x else x) l
       = (pre ++ f r :: post)%list.
Proof.
  intros Hnd Hin. apply in_split in Hin as (pre & post & ->).
  exists pre, post. split; [reflexivity|].
  rewrite map_app in Hnd. simpl in Hnd.
  apply NoDup_remove_2 in Hnd.
  assert (Hkeep : forall xs, (forall x, In x xs -> URL.id x <> URL.id r) ->
            map (fun x => if URL.id x =? URL.id r then f x else x) xs = xs).
  { induction xs as [|x xs IH]; intros Hxs; [reflexivity|]. simpl.
    destruct (Z.eqb_spec (URL.id x) (URL.id r)) as [He|_].
    - exfalso. apply (Hxs x); [now left|assumption].
    - f_equal. apply IH. intros y Hy. apply Hxs. now right. }
  rewrite map_app. simpl. rewrite Z.eqb_refl.
  rewrite !Hkeep; [reflexivity| |].
  - intros x Hx He. apply Hnd. apply in_or_app. right.
    rewrite <- He. now apply in_map.
  - intros x Hx He. apply Hnd. apply in_or_app. left.
    rewrite <- He. now apply in_map.
Qed.

(** ** Reading a bind backwards *)

Lemma bind_Return {A B} (m : M A) (f : A -> M B) (w w2 : World) (b : B) :
  bind m f w = Return b w2 ->
  exists a w1, m w = Return a w1 /\ f a w1 = Return b w2.
Proof.
  unfold bind. destruct (m w) as [a w1|e w1|w1]; try discriminate. eauto.
Qed.

Lemma bind_Raise {A B} (m : M A) (f : A -> M B) (w w2 : World) (e : exn) :
  bind m f w = Raise e w2 ->
  m w = Raise e w2 \/ exists a w1, m w = Return a w1 /\ f a w1 = Raise e w2.
Proof.
  unfold bind. destruct (m w) as [a w1|e1 w1|w1]; try discriminate; eauto.
  intros H. left. congruence.
Qed.

Lemma bind_Spin {A B} (m : M A) (f : A -> M B) (w w2 : World) :
  bind m f w = Spin w2 ->
  m w = Spin w2 \/ exists a w1, m w = Return a w1 /\ f a w1 = Spin w2.
Proof.
  unfold bind. destruct (m w) as [a w1|e1 w1|w1]; try discriminate; eauto.
  intros H. left. congruence.
Qed.

(** ** Running a bind forwards *)

Lemma bind_Return_eq {A B} (m : M A) (f : A -> M B) (w w1 : World) (a : A) :
  m w = Return a w1 -> bind m f w = f a w1.
Proof. unfold bind. now intros ->. Qed.

Lemma bind_Raise_eq {A B} (m : M A) (f : A -> M B) (w w1 : World) (e : exn) :
  m w = Raise e w1 -> bind m f w = Raise e w1.
Proof. unfold bind. now intros ->. Qed.

(** Split conjunctions without unfolding definitions. *)
Ltac conjs := repeat match goal with |- _ /\ _ => refine (conj _ _) end.

(** Facts about a primitive whose outcome is named in hypothesis [H]. *)
Ltac prim H :=
  match type of H with
  | fresh_short_code ?fuel ?w = _ =>
      let P := fresh "P" in
      pose proof (fresh_short_code_inv fuel w) as P; rewrite H in P
  | compute_expires_at ?d ?w = _ =>
      let P := fresh "P" in
      pose proof (compute_expires_at_inv d w) as P; rewrite H in P
  | db_add_commit ?c ?u ?e ?t ?w = _ =>
      let P := fresh "P" in
      pose proof (db_add_commit_inv c u e t w) as P; rewrite H in P
  end.

Lemma grows_refl (w : World) : grows w w.
Proof.
  split; [apply later_refl|]. split; [|auto].
  exists []. now rewrite app_nil_r.
Qed.

Lemma grows_later (w w' : World) : grows w w' -> later w w'.
Proof. now intros (L & _). Qed.

Lemma grows_trans (w1 w2 w3 : World) : grows w1 w2 -> grows w2 w3 -> grows w1 w3.
Proof.
  intros (L1 & (n1 & E1 & F1) & T1) (L2 & (n2 & E2 & F2) & T2).
  split; [eapply later_trans; eauto|]. split; [|auto].
  exists (n1 ++ n2)%list. split; [now rewrite E2, E1, app_assoc|].
  apply Forall_app. auto.
Qed.

(** A later world with the same table. *)
Lemma grows_same (w w' : World) : later w w' -> urls w' = urls w -> grows w w'.
Proof.
  intros L E. split; [assumption|]. split.
  - exists []. now rewrite app_nil_r.
  - now rewrite E.
Qed.

(** The common end of both create paths: compute the expiry, insert, and
    read the row back. *)
Lemma insert_tail (code url : string) (title : option string) (d : option Z)
    (w w1 w2 w3 : World) (e : option Z) (r : URL.t) :
  later w w1 -> urls w1 = urls w ->
  find (by_code code) (urls w) = None ->
  truthy code = true ->
  compute_expires_at d w1 = Return e w2 ->
  db_add_commit code url e title w2 = Return r w3 ->
  inserted w w3 d r
  /\ r = URL.make (next_id (urls w)) code url (URL.created_at r) 0 e true title.
Proof.
  intros L1 U1 Hfind Htruthy Hexp Hins.
  prim Hins. destruct P as (Hr & Hw3 & _).
  assert (L2 : later w1 w2 /\ urls w2 = urls w1
               /\ match d with
                  | None => e = None
                  | Some days =>
                      if days =? 0 then e = None
                      else exists i, (ticks w <= i)%nat /\ ticks w2 = S i
                           /\ e = Some (clock w i + days * datetime.us_per_day)
                  end).
  { prim Hexp. destruct d as [days|].
    - destruct (days =? 0).
      + destruct P as (-> & ->). auto using later_refl.
      + destruct P as (-> & -> & _). conjs; auto using later_after_ticks.
        exists (ticks w1). destruct L1 as (_ & -> & ? & _). auto.
    - destruct P as (-> & ->). auto using later_refl. }
  destruct L2 as (L2 & U2 & Hexpiry).
  assert (Hclock : clock w2 = clock w).
  { destruct L1 as (_ & <- & _). now destruct L2 as (_ & -> & _). }
  rewrite U2, U1, Hclock in *. split.
  - exists w2. rewrite Hr. cbn [URL.id URL.short_code URL.expires_at
                                URL.created_at URL.click_count URL.is_active].
    unfold pristine. cbn [URL.click_count URL.is_active].
    conjs; auto; [eapply later_trans; eauto | now rewrite <- Hr].
  - now rewrite Hr.
Qed.

Section HandlerFacts.
Context `{ext : Collaborators}.

(** *** shorten_url *)

(** The code that [shorten_url] settles on (the alias, or a generated
    code) is not empty and not in the table, which it leaves as it is. *)
Lemma short_code_choice_Return (fuel : nat) (custom_alias : option string)
    (w w1 : World) (code : string) :
  match custom_alias with
  | Some alias =>
      if truthy alias then
        existing_url <- query_first alias ;;
        match existing_url with
        | Some _ => raise (HTTPException 400 "Custom alias already exists")
        | None => ret alias
        end
      else fresh_short_code fuel
  | None => fresh_short_code fuel
  end w = Return code w1 ->
  later w w1 /\ urls w1 = urls w
  /\ find (by_code code) (urls w) = None
  /\ truthy code = true
  /\ (forall alias, custom_alias = Some alias -> truthy alias = true ->
        code = alias /\ w1 = w).
Proof.
  intros Halloc.
  assert (Hgen : fresh_short_code fuel w = Return code w1 ->
            later w w1 /\ urls w1 = urls w
            /\ find (by_code code) (urls w) = None /\ truthy code = true).
  { intros Ho. prim Ho. destruct P as ((n & ->) & Hf & Hl & _).
    conjs; auto using later_after_draws.
    destruct code; [discriminate|reflexivity]. }
  destruct custom_alias as [alias|].
  - destruct (truthy alias) eqn:Ht.
    + apply bind_Return in Halloc as (existing & w0 & Hq & Halloc).
      unfold query_first in Hq. inversion Hq; subst existing w0; clear Hq.
      destruct (find (by_code alias) (urls w)) eqn:Hf; [discriminate|].
      unfold ret in Halloc. inversion Halloc; subst.
      conjs; auto using later_refl.
      intros a Ha _. split; congruence.
    + destruct (Hgen Halloc) as (? & ? & ? & ?).
      conjs; auto. intros a Ha Hta. congruence.
  - destruct (Hgen Halloc) as (? & ? & ? & ?).
    conjs; auto. intros a Ha. discriminate.
Qed.

(** What a successful [shorten_url] has done: one row appended, built from
    the request, under a code that was free and is not empty. *)
Lemma shorten_url_Return (fuel : nat) (request : URLShortenRequest.t)
    (w w' : World) (resp : URLResponse.t) :
  shorten_url fuel request w = Return resp w' ->
  exists r,
    inserted w w' (URLShortenRequest.expires_in_days request) r
    /\ URL.original_url r = str_HttpUrl (URLShortenRequest.url request)
    /\ URL.title r = URLShortenRequest.title request
    /\ is_valid_url (str_HttpUrl (URLShortenRequest.url request)) = true
    /\ (forall alias, URLShortenRequest.custom_alias request = Some alias ->
          truthy alias = true -> URL.short_code r = alias)
    /\ resp = created_response r.
Proof.
  intros H. unfold shorten_url in H.
  destruct (is_valid_url _) eqn:Hv; simpl negb in H; cbv iota in H;
    [|discriminate].
  apply bind_Return in H as (code & w1 & Halloc & H).
  apply bind_Return in H as (e & w2 & Hexp & H).
  apply bind_Return in H as (r & w3 & Hins & H).
  unfold ret in H. inversion H; subst resp w'; clear H.
  apply short_code_choice_Return in Halloc
    as (L1 & U1 & Hfind & Htruthy & Halias).
  destruct (@insert_tail _ _ _ _ _ _ _ _ _ _ L1 U1 Hfind Htruthy Hexp Hins)
    as (Hi & Hr).
  exists r. rewrite Hr in *.
  cbn [URL.short_code URL.expires_at URL.original_url URL.created_at
       URL.title] in *.
  conjs; auto.
  intros alias Ha Ht. now apply Halias.
Qed.

(** The world after a bind grows from [w0] when each of its two halves
    does. *)
Lemma grows_bind {A B} (m : M A) (f : A -> M B) (w0 w : World) :
  grows w0 (world_of (m w)) ->
  (forall a w1, m w = Return a w1 -> grows w0 (world_of (f a w1))) ->
  grows w0 (world_of (bind m f w)).
Proof.
  unfold bind. destruct (m w) as [a w1|e w1|w1]; simpl; auto.
Qed.

Lemma fresh_short_code_grows (fuel : nat) (w : World) :
  grows w (world_of (fresh_short_code fuel w)).
Proof.
  pose proof (fresh_short_code_inv fuel w) as P.
  destruct (fresh_short_code fuel w) as [c w'|e w'|w']; simpl.
  - destruct P as ((n & ->) & _).
    apply grows_same; auto using later_after_draws.
  - contradiction.
  - destruct P as (n & ->). apply grows_same; auto using later_after_draws.
Qed.

Lemma compute_expires_at_grows (d : option Z) (w : World) :
  grows w (world_of (compute_expires_at d w)).
Proof.
  pose proof (compute_expires_at_inv d w) as P.
  destruct (compute_expires_at d w) as [c w'|e w'|w']; simpl.
  - destruct d as [days|]; [destruct (days =? 0)|].
    + destruct P as (_ & ->). apply grows_refl.
    + destruct P as (_ & -> & _). apply grows_same; auto using later_after_ticks.
    + destruct P as (_ & ->). apply grows_refl.
  - destruct P as (_ & -> & _). apply grows_same; auto using later_after_ticks.
  - contradiction.
Qed.

Lemma db_add_commit_grows (c u : string) (e : option Z) (t : option string)
    (w : World) :
  truthy c = true ->
  grows w (world_of (db_add_commit c u e t w)).
Proof.
  intros Ht. pose proof (db_add_commit_inv c u e t w) as P.
  destruct (db_add_commit c u e t w) as [r w'|ex w'|w']; simpl.
  - destruct P as (Hr & -> & Hf). split; [|split].
    + eapply later_trans; [apply later_after_ticks|apply later_set_urls].
    + exists [r]. split; [reflexivity|].
      constructor; [|constructor]. now subst r.
    + intros Hok. cbn [urls set_urls].
      apply table_ok_insert; subst r; cbn; auto. lia.
  - destruct P as (_ & -> & _). apply grows_same; auto using later_after_ticks.
  - contradiction.
Qed.

Lemma shorten_url_grows (fuel : nat) (request : URLShortenRequest.t) (w : World) :
  grows w (world_of (shorten_url fuel request w)).
Proof.
  unfold shorten_url. destruct (negb _); [apply grows_refl|].
  apply grows_bind.
  - destruct (URLShortenRequest.custom_alias request) as [alias|];
      [destruct (truthy alias)|]; auto using fresh_short_code_grows.
    unfold bind, query_first. destruct (find _ _); apply grows_refl.
  - intros code w1 Halloc.
    pose proof (short_code_choice_Return _ _ _ Halloc)
      as (L1 & U1 & Hfind & Htruthy & _).
    assert (G1 : grows w w1) by now apply grows_same.
    apply grows_bind.
    + eapply grows_trans; [exact G1|apply compute_expires_at_grows].
    + intros e w2 Hexp. apply grows_bind.
      * eapply grows_trans; [exact G1|].
        eapply grows_trans; [|apply db_add_commit_grows; assumption].
        pose proof (compute_expires_at_grows
                      (URLShortenRequest.expires_in_days request) w1) as G.
        now rewrite Hexp in G.
      * intros r w3 Hins. simpl.
        eapply grows_trans; [exact G1|].
        pose proof (compute_expires_at_grows
                      (URLShortenRequest.expires_in_days request) w1) as G.
        rewrite Hexp in G. eapply grows_trans; [exact G|].
        pose proof (@db_add_commit_grows code
                      (str_HttpUrl (URLShortenRequest.url request)) e
                      (URLShortenRequest.title request) w2 Htruthy) as G'.
        now rewrite Hins in G'.
Qed.

(** *** redirect_url, get_url_stats, deactivate_url as equations *)

Lemma redirect_url_eq (short_code : string) (w : World) :
  redirect_url short_code w =
  match lookup short_code w with
  | None => Raise (HTTPException 404 "URL not found") w
  | Some r =>
      if URL.is_active r then
        match URL.expires_at r with
        | None =>
            Return (Redirect (URL.original_url r))
                   (set_urls (click r (urls w)) w)
        | Some e =>
            if clock w (ticks w) >? e then
              Raise (HTTPException 410 "URL has expired") (after_ticks 1 w)
            else
              Return (Redirect (URL.original_url r))
                     (set_urls (click r (urls w)) (after_ticks 1 w))
        end
      else Raise (HTTPException 410 "URL has been deactivated") w
  end.
Proof.
  unfold redirect_url, lookup, bind, query_first.
  destruct (find (by_code short_code) (urls w)) as [r|]; [|reflexivity].
  destruct (URL.is_active r); [|reflexivity].
  unfold is_url_expired. destruct (URL.expires_at r) as [e|]; [|reflexivity].
  cbn. destruct (clock w (ticks w) >? e); reflexivity.
Qed.

Lemma redirect_url_expiry_first_eq (short_code : string) (w : World) :
  redirect_url_expiry_first short_code w =
  match lookup short_code w with
  | None => Raise (HTTPException 404 "URL not found") w
  | Some r =>
      match URL.expires_at r with
      | None =>
          if URL.is_active r then
            Return (Redirect (URL.original_url r))
                   (set_urls (click r (urls w)) w)
          else Raise (HTTPException 410 "URL has been deactivated") w
      | Some e =>
          if clock w (ticks w) >? e then
            Raise (HTTPException 410 "URL has expired") (after_ticks 1 w)
          else if URL.is_active r then
            Return (Redirect (URL.original_url r))
                   (set_urls (click r (urls w)) (after_ticks 1 w))
          else Raise (HTTPException 410 "URL has been deactivated")
                     (after_ticks 1 w)
      end
  end.
Proof.
  unfold redirect_url_expiry_first, lookup, bind, query_first.
  destruct (find (by_code short_code) (urls w)) as [r|]; [|reflexivity].
  unfold is_url_expired. destruct (URL.expires_at r) as [e|].
  - unfold bind, datetime.utcnow, ret.
    destruct (clock w (ticks w) >? e); [reflexivity|].
    destruct (URL.is_active r); reflexivity.
  - unfold ret. destruct (URL.is_active r); reflexivity.
Qed.

Lemma get_url_stats_eq (short_code : string) (w : World) :
  get_url_stats short_code w =
  match lookup short_code w with
  | None => Raise (HTTPException 404 "URL not found") w
  | Some r =>
      Return (URLResponse.make
                ("http://localhost:8000/" ++ URL.short_code r)
                (URL.original_url r) (URL.click_count r) (URL.created_at r)
                (URL.expires_at r) (URL.is_active r) (URL.title r)
                (Some (generate_qr_code
                         ("http://localhost:8000/" ++ URL.short_code r))))
             w
  end.
Proof.
  unfold get_url_stats, lookup, bind, query_first.
  destruct (find (by_code short_code) (urls w)); reflexivity.
Qed.

Lemma deactivate_url_eq (short_code : string) (w : World) :
  deactivate_url short_code w =
  match lookup short_code w with
  | None => Raise (HTTPException 404 "URL not found") w
  | Some r =>
      Return "URL deactivated successfully"
             (set_urls (switch_off r (urls w)) w)
  end.
Proof.
  unfold deactivate_url, lookup, bind, query_first.
  destruct (find (by_code short_code) (urls w)); reflexivity.
Qed.

Lemma table_ok_click (l : list URL.t) (r : URL.t) :
  In r l -> table_ok l -> table_ok (click r l).
Proof.
  intros Hin Hok. apply table_ok_update; auto.
  intros x _ _. cbn. destruct Hok as [_ _ _ Hk].
  rewrite Forall_forall in Hk. specialize (Hk r Hin). lia.
Qed.

Lemma table_ok_switch_off (l : list URL.t) (r : URL.t) :
  table_ok l -> table_ok (switch_off r l).
Proof.
  intros Hok. apply table_ok_update; auto.
  intros x Hx _. cbn. destruct Hok as [_ _ _ Hk].
  rewrite Forall_forall in Hk. auto.
Qed.

(** *** bulk_shorten_urls *)

Lemma grows_try_except {A} (m : M A) (h : exn -> M A) (w0 w : World) :
  grows w0 (world_of (m w)) ->
  (forall e w1, m w = Raise e w1 -> grows w0 (world_of (h e w1))) ->
  grows w0 (world_of (try_except m h w)).
Proof.
  unfold try_except. destruct (m w) as [a w1|e w1|w1]; simpl; auto.
Qed.

Lemma bulk_try_grows (fuel : nat) (d : option Z) (url : HttpUrl) (w : World) :
  grows w (world_of (bulk_try fuel d url w)).
Proof.
  unfold bulk_try. destruct (negb _); [apply grows_refl|].
  apply grows_bind; [apply fresh_short_code_grows|].
  intros code w1 Hfresh.
  assert (G1 : grows w w1).
  { pose proof (fresh_short_code_grows fuel w) as G. now rewrite Hfresh in G. }
  assert (Htruthy : truthy code = true).
  { prim Hfresh. destruct P as (_ & _ & Hl & _).
    destruct code; [discriminate|reflexivity]. }
  apply grows_bind.
  - eapply grows_trans; [exact G1|apply compute_expires_at_grows].
  - intros e w2 Hexp.
    assert (G2 : grows w w2).
    { pose proof (compute_expires_at_grows d w1) as G. rewrite Hexp in G.
      eapply grows_trans; eauto. }
    apply grows_bind.
    + eapply grows_trans; [exact G2|]. now apply db_add_commit_grows.
    + intros r w3 Hins. simpl.
      pose proof (@db_add_commit_grows code (str_HttpUrl url) e None w2 Htruthy)
        as G'.
      rewrite Hins in G'. eapply grows_trans; eauto.
Qed.

Lemma bulk_item_grows (fuel : nat) (d : option Z) (url : HttpUrl) (w : World) :
  grows w (world_of (try_except (bulk_try fuel d url) (bulk_except url) w)).
Proof.
  apply grows_try_except; [apply bulk_try_grows|].
  intros e w1 Hraise. unfold bulk_except, ret. simpl.
  pose proof (bulk_try_grows fuel d url w) as G. now rewrite Hraise in G.
Qed.

Lemma bulk_for_grows (fuel : nat) (d : option Z) (todo : list HttpUrl) :
  forall results errors w,
    grows w (world_of (bulk_for fuel d todo results errors w)).
Proof.
  induction todo as [|url rest IH]; intros results errors w; simpl.
  - apply grows_refl.
  - apply grows_bind; [apply bulk_item_grows|].
    intros item w1 Hitem.
    pose proof (bulk_item_grows fuel d url w) as G. rewrite Hitem in G.
    destruct item; (eapply grows_trans; [exact G|apply IH]).
Qed.

Lemma bulk_shorten_urls_grows (fuel : nat) (request : BulkURLRequest.t)
    (w : World) :
  grows w (world_of (bulk_shorten_urls fuel request w)).
Proof.
  unfold bulk_shorten_urls. apply grows_bind; [apply bulk_for_grows|].
  intros [results errors] w1 Hfor. simpl.
  pose proof (bulk_for_grows fuel (BulkURLRequest.expires_in_days request)
                (BulkURLRequest.urls request) [] [] w) as G.
  now rewrite Hfor in G.
Qed.

(** *** Every call keeps the invariant and only moves forward *)

Lemma lookup_In (c : string) (w : World) (r : URL.t) :
  lookup c w = Some r -> In r (urls w) /\ URL.short_code r = c.
Proof. apply find_by_code_code. Qed.

Lemma serve_table_ok (c : call) (w : World) :
  table_ok (urls w) -> table_ok (urls (serve c w)).
Proof.
  intros Hok. destruct c as [fuel rq|code|code|fuel rq|code]; simpl.
  - now apply shorten_url_grows.
  - rewrite redirect_url_eq. destruct (lookup code w) as [r|] eqn:Hl; auto.
    apply lookup_In in Hl as [Hin _].
    destruct (URL.is_active r); auto.
    destruct (URL.expires_at r) as [e|]; [destruct (_ >? _)|]; simpl;
      auto using table_ok_click.
  - rewrite get_url_stats_eq. destruct (lookup code w); auto.
  - now apply bulk_shorten_urls_grows.
  - rewrite deactivate_url_eq. destruct (lookup code w); simpl;
      auto using table_ok_switch_off.
Qed.

Lemma serve_later (c : call) (w : World) : later w (serve c w).
Proof.
  destruct c as [fuel rq|code|code|fuel rq|code]; simpl.
  - apply shorten_url_grows.
  - rewrite redirect_url_eq. destruct (lookup code w) as [r|];
      [|apply later_refl].
    destruct (URL.is_active r); [|apply later_refl].
    destruct (URL.expires_at r) as [e|]; [destruct (_ >? _)|]; simpl;
      unfold later; simpl; repeat split; lia.
  - rewrite get_url_stats_eq. destruct (lookup code w); apply later_refl.
  - apply bulk_shorten_urls_grows.
  - rewrite deactivate_url_eq. destruct (lookup code w); simpl;
      [apply later_set_urls|apply later_refl].
Qed.

Lemma reachable_table_ok (w : World) : reachable w -> table_ok (urls w).
Proof.
  induction 1 as [e c|w c _ IH]; [apply table_ok_nil|].
  now apply serve_table_ok.
Qed.

(** *** One URL of a bulk request *)

Lemma bulk_try_Raise (fuel : nat) (d : option Z) (url : HttpUrl)
    (w w' : World) (e : exn) :
  bulk_try fuel d url w = Raise e w' ->
  e = OverflowError /\ urls w' = urls w /\ later w w'
  /\ is_valid_url (str_HttpUrl url) = true.
Proof.
  unfold bulk_try. intros H.
  destruct (is_valid_url _) eqn:Hv; simpl negb in H; cbv iota in H;
    [|discriminate].
  apply bind_Raise in H as [H|(code & w1 & Hfresh & H)].
  { prim H. contradiction. }
  prim Hfresh. destruct P as ((n & ->) & Hfind & _).
  apply bind_Raise in H as [H|(ex & w2 & Hexp & H)].
  { prim H. destruct P as (-> & -> & _). conjs; auto.
    eapply later_trans; [apply later_after_draws|apply later_after_ticks]. }
  apply bind_Raise in H as [H|(r & w3 & _ & H)]; [|discriminate].
  prim H. destruct P as (_ & _ & Hdup). exfalso. apply Hdup.
  assert (U : urls w2 = urls w).
  { pose proof (compute_expires_at_grows d (after_draws n w)) as G.
    rewrite Hexp in G. prim Hexp.
    destruct d as [days|]; [destruct (days =? 0)|].
    - now destruct P as (_ & ->).
    - now destruct P as (_ & -> & _).
    - now destruct P as (_ & ->). }
  now rewrite U.
Qed.

Lemma bulk_item_inv (fuel : nat) (d : option Z) (url : HttpUrl) (w : World) :
  match try_except (bulk_try fuel d url) (bulk_except url) w with
  | Return (inl resp) w' =>
      is_valid_url (str_HttpUrl url) = true
      /\ exists r, inserted w w' d r
                   /\ URL.original_url r = str_HttpUrl url
                   /\ URL.title r = None
                   /\ String.length (URL.short_code r) = 6%nat
                   /\ resp = created_response r
  | Return (inr msg) w' =>
      urls w' = urls w /\ later w w' /\ item_ok url (inr msg)
  | Raise _ _ => False
  | Spin w' => urls w' = urls w /\ later w w'
  end.
Proof.
  unfold try_except.
  destruct (bulk_try fuel d url w) as [item w'|e w'|w'] eqn:H.
  - unfold bulk_try in H.
    destruct (is_valid_url _) eqn:Hv; simpl negb in H; cbv iota in H.
    + apply bind_Return in H as (code & w1 & Hfresh & H).
      apply bind_Return in H as (ex & w2 & Hexp & H).
      apply bind_Return in H as (r & w3 & Hins & H).
      unfold ret in H. inversion H; subst item w'; clear H.
      prim Hfresh. destruct P as ((n & ->) & Hfind & Hlen & _).
      assert (Htruthy : truthy code = true)
        by (destruct code; [discriminate|reflexivity]).
      destruct (@insert_tail _ _ _ _ _ _ _ _ _ _ (later_after_draws n w)
                  eq_refl Hfind Htruthy Hexp Hins) as (Hi & Hr).
      split; [reflexivity|]. exists r. rewrite Hr in *.
      unfold created_response.
      cbn [URL.short_code URL.expires_at URL.original_url URL.created_at
           URL.title] in *.
      conjs; auto.
    + unfold ret in H. inversion H; subst item w'.
      conjs; auto using later_refl. left. auto.
  - apply bulk_try_Raise in H as (-> & U & L & Hv).
    unfold bulk_except, ret. conjs; auto. right. eauto.
  - unfold bulk_try in H.
    destruct (is_valid_url _) eqn:Hv; simpl negb in H; cbv iota in H;
      [|discriminate].
    apply bind_Spin in H as [H|(code & w1 & Hfresh & H)].
    + prim H. destruct P as (n & ->). auto using later_after_draws.
    + apply bind_Spin in H as [H|(ex & w2 & Hexp & H)].
      * prim H. contradiction.
      * apply bind_Spin in H as [H|(r & w3 & _ & H)]; [|discriminate].
        prim H. contradiction.
Qed.

Lemma inserted_later (w w' : World) (d : option Z) (r : URL.t) :
  inserted w w' d r -> later w w' /\ urls w' = (urls w ++ [r])%list.
Proof.
  intros (w1 & L & _ & -> & _). split; [|reflexivity].
  eapply later_trans; [exact L|].
  eapply later_trans; [apply later_after_ticks|apply later_set_urls].
Qed.

Lemma appended_within_weaken (w0 w1 w2 w3 : World) (d : option Z) (r : URL.t) :
  later w0 w1 -> appended_within w1 w2 d r -> later w2 w3 ->
  appended_within w0 w3 d r.
Proof.
  intros L01 (wa & wb & La & Hi & Lb) L23.
  exists wa, wb. conjs; eauto using later_trans.
Qed.

(** *** The whole loop of a bulk request *)

Lemma bulk_for_inv (fuel : nat) (d : option Z) (todo : list HttpUrl) :
  forall results errors w,
    match bulk_for fuel d todo results errors w with
    | Return out w' =>
        exists items new,
          Forall2 item_ok todo items
          /\ out = ((results ++ lefts items)%list, (errors ++ rights items)%list)
          /\ urls w' = (urls w ++ new)%list
          /\ Forall2 (fun resp r => resp = created_response r) (lefts items) new
          /\ Forall (appended_within w w' d) new
          /\ later w w'
    | Raise _ _ => False
    | Spin w' => later w w'
    end.
Proof.
  induction todo as [|url rest IH]; intros results errors w; simpl.
  - unfold ret. exists [], []. simpl. rewrite !app_nil_r.
    conjs; auto using later_refl.
  - unfold bind at 1. pose proof (bulk_item_inv fuel d url w) as I.
    destruct (try_except (bulk_try fuel d url) (bulk_except url) w)
      as [[resp|msg] w1|e w1|w1]; [| |contradiction|now destruct I].
    + destruct I as (Hv & r & Hi & Hu & Ht & Hl & ->).
      destruct (inserted_later Hi) as (L1 & U1).
      specialize (IH (results ++ [created_response r])%list errors w1).
      destruct (bulk_for fuel d rest _ errors w1) as [out w'|e w'|w'];
        [|contradiction|eauto using later_trans].
      destruct IH as (items & new & HF & -> & U & HR & HA & L).
      exists (inl (created_response r) :: items), (r :: new). simpl.
      conjs; auto.
      * constructor; [|assumption]. split; [assumption|]. exact Hu.
      * now rewrite <- app_assoc.
      * now rewrite U, U1, <- app_assoc.
      * constructor.
        -- exists w, w1. conjs; auto using later_refl.
        -- revert HA. apply Forall_impl. intros x Hx.
           eapply appended_within_weaken; eauto using later_refl.
      * eapply later_trans; eauto.
    + destruct I as (U1 & L1 & Hitem).
      specialize (IH results (errors ++ [msg])%list w1).
      destruct (bulk_for fuel d rest results _ w1) as [out w'|e w'|w'];
        [|contradiction|eauto using later_trans].
      destruct IH as (items & new & HF & -> & U & HR & HA & L).
      exists (inr msg :: items), new. simpl.
      conjs; auto.
      * now rewrite <- app_assoc.
      * now rewrite U, U1.
      * revert HA. apply Forall_impl. intros x Hx.
        eapply appended_within_weaken; eauto using later_refl.
      * eapply later_trans; eauto.
Qed.

(** *** When the create paths return *)

Lemma choice_indep (seq : string) (w1 w2 wa : World) (c : ascii) :
  entropy w1 = entropy w2 -> drawn w1 = drawn w2 ->
  secrets.choice seq w1 = Return c wa ->
  wa = after_draws 1 w1 /\ secrets.choice seq w2 = Return c (after_draws 1 w2).
Proof.
  intros He Hd. unfold secrets.choice.
  destruct (String.length seq) as [|k]; [discriminate|].
  unfold bind, secrets.randbelow. rewrite <- He, <- Hd.
  destruct (String.get _ seq) as [c'|]; [|discriminate].
  unfold ret. intros H. inversion H; subst. split; [reflexivity|].
  unfold after_draws. simpl. now rewrite <- He, <- Hd.
Qed.

Lemma join_choices_indep (n : nat) (characters : string) :
  forall w1 w2 s wa,
    entropy w1 = entropy w2 -> drawn w1 = drawn w2 ->
    join_choices n characters w1 = Return s wa ->
    exists wb, join_choices n characters w2 = Return s wb.
Proof.
  induction n as [|n IH]; intros w1 w2 s wa He Hd H; simpl in *.
  - unfold ret in *. inversion H; subst. eauto.
  - apply bind_Return in H as (c & w1' & Hc & H).
    apply bind_Return in H as (rest & w1'' & Hrest & H).
    unfold ret in H. inversion H; subst s wa; clear H.
    destruct (@choice_indep characters w1 w2 w1' c He Hd Hc) as (-> & Hc2).
    destruct (IH (after_draws 1 w1) (after_draws 1 w2) rest w1'') as (wb & Hb);
      simpl; auto.
    exists wb. unfold bind at 1. rewrite Hc2. unfold bind. now rewrite Hb.
Qed.

Lemma generate_short_code_code_at (w : World) :
  generate_short_code generate_short_code_default_length w
  = Return (code_at (entropy w) (drawn w)) (after_draws 6 w).
Proof.
  destruct (generate_short_code_returns generate_short_code_default_length w)
    as (s & Hs & _). rewrite Hs.
  unfold generate_short_code in Hs.
  destruct (@join_choices_indep _ _ w
              (mkWorld [] (entropy w) (drawn w) (fun _ => 0) 0) _ _
              eq_refl eq_refl Hs) as (wb & Hb).
  unfold code_at, generate_short_code. rewrite Hb. reflexivity.
Qed.

Lemma fresh_short_code_first (fuel : nat) (w : World) :
  ~ In (code_at (entropy w) (drawn w)) (codes (urls w)) ->
  fresh_short_code (S fuel) w
  = Return (code_at (entropy w) (drawn w)) (after_draws 6 w).
Proof.
  intros Hfree. simpl. unfold bind at 1.
  rewrite generate_short_code_code_at. unfold bind, query_first.
  change (urls (after_draws 6 w)) with (urls w).
  apply find_by_code_none in Hfree. now rewrite Hfree.
Qed.

Lemma compute_expires_at_fits (d : option Z) (w : World) :
  expiry_fits d (clock w (ticks w)) = true ->
  exists e w', compute_expires_at d w = Return e w'.
Proof.
  intros Hfit. pose proof (compute_expires_at_inv d w) as P.
  destruct (compute_expires_at d w) as [e w'|e w'|w']; eauto; [|contradiction].
  destruct P as (_ & _ & days & -> & Hnz & Hover). exfalso.
  unfold expiry_fits in Hfit. apply Z.eqb_neq in Hnz. rewrite Hnz in Hfit.
  simpl in Hfit. apply andb_true_iff in Hfit as [Ha Hr].
  apply Z.leb_le in Ha. destruct Hover as [Hover|Hover]; [lia|congruence].
Qed.

Lemma compute_expires_at_same (d : option Z) (w : World) :
  urls (world_of (compute_expires_at d w)) = urls w
  /\ entropy (world_of (compute_expires_at d w)) = entropy w
  /\ drawn (world_of (compute_expires_at d w)) = drawn w.
Proof.
  pose proof (compute_expires_at_inv d w) as P.
  destruct (compute_expires_at d w) as [e w'|e w'|w']; simpl.
  - destruct d as [days|]; [destruct (days =? 0)|].
    + destruct P as (_ & ->). auto.
    + destruct P as (_ & -> & _). auto.
    + destruct P as (_ & ->). auto.
  - destruct P as (_ & -> & _). auto.
  - contradiction.
Qed.

Lemma collision_free_next (w w' : World) (n : nat) :
  collision_free w (S n) ->
  entropy w' = entropy w -> drawn w' = (6 + drawn w)%nat ->
  (urls w' = urls w
   \/ exists r, urls w' = (urls w ++ [r])%list
                /\ URL.short_code r = code_at (entropy w) (drawn w)) ->
  collision_free w' n.
Proof.
  intros (Hnd & Hfresh) He Hd Hu. simpl in Hnd, Hfresh.
  apply NoDup_cons_iff in Hnd as (Hhead & Hnd).
  unfold collision_free. rewrite He, Hd. split; [assumption|].
  intros c Hc. destruct Hu as [->|(r & -> & Hr)]; [now auto|].
  unfold codes. rewrite map_app. simpl. intros Hin.
  apply in_app_or in Hin as [Hin|[Heq|[]]].
  - apply (Hfresh c); auto.
  - apply Hhead. rewrite <- Hr, Heq. exact Hc.
Qed.

(** With no collision ahead, the loop of a bulk request returns whatever
    the fuel, as long as there is some. *)
Lemma bulk_for_returns (fuel : nat) (d : option Z) (todo : list HttpUrl) :
  forall n results errors w,
    (List.length todo <= n)%nat -> collision_free w n ->
    exists out w', bulk_for (S fuel) d todo results errors w = Return out w'.
Proof.
  induction todo as [|url rest IH]; intros n results errors w Hlen Hcf.
  - simpl. unfold ret. eauto.
  - cbn [bulk_for]. unfold bind at 1, try_except, bulk_try.
    destruct (is_valid_url (str_HttpUrl url)); cbn [negb].
    + destruct n as [|n]; [simpl in Hlen; lia|].
      assert (Hfree : ~ In (code_at (entropy w) (drawn w)) (codes (urls w))).
      { apply (proj2 Hcf). now left. }
      erewrite bind_Return_eq by exact (fresh_short_code_first fuel w Hfree).
      pose proof (compute_expires_at_same d (after_draws 6 w)) as (U2 & E2 & D2).
      destruct (compute_expires_at d (after_draws 6 w)) as [e w2|ex w2|w2] eqn:Hexp;
        simpl in U2, E2, D2.
      * erewrite bind_Return_eq by exact Hexp.
        destruct (db_add_commit (code_at (entropy w) (drawn w))
                    (str_HttpUrl url) e None w2) as [r w3|ex w3|w3] eqn:Hins;
          prim Hins.
        -- erewrite bind_Return_eq by exact Hins.
           destruct P as (Hr & -> & _). unfold ret.
           apply (IH n); [simpl in Hlen; lia|].
           apply (@collision_free_next w _ n Hcf); simpl; auto.
           right. exists r. rewrite U2. split; [reflexivity|now rewrite Hr].
        -- destruct P as (_ & _ & Hdup). exfalso. apply Hdup.
           rewrite U2. now apply find_by_code_none.
        -- contradiction.
      * erewrite bind_Raise_eq by exact Hexp. unfold bulk_except, ret.
        apply (IH n); [simpl in Hlen; lia|].
        apply (@collision_free_next w _ n Hcf); auto.
      * prim Hexp. contradiction.
    + unfold ret. apply (IH n); [simpl in Hlen; lia|assumption].
Qed.

Lemma bulk_shorten_urls_returns (fuel : nat) (request : BulkURLRequest.t)
    (w : World) :
  collision_free w (List.length (BulkURLRequest.urls request)) ->
  exists resp w', bulk_shorten_urls (S fuel) request w = Return resp w'.
Proof.
  intros Hcf. unfold bulk_shorten_urls.
  destruct (@bulk_for_returns fuel (BulkURLRequest.expires_in_days request)
              (BulkURLRequest.urls request) _ [] [] w (le_n _) Hcf)
    as ([results errors] & w' & H).
  unfold bind. rewrite H. unfold ret. eauto.
Qed.

(** *** How a call changes what a lookup finds *)

Lemma find_map_same_code (c : string) (g : URL.t -> URL.t) (l : list URL.t) :
  (forall x, URL.short_code (g x) = URL.short_code x) ->
  find (by_code c) (map g l) = option_map g (find (by_code c) l).
Proof.
  intros Hg. induction l as [|x l IH]; [reflexivity|]. simpl.
  unfold by_code at 1 3. rewrite Hg.
  destruct (String.eqb (URL.short_code x) c); [reflexivity|exact IH].
Qed.

Lemma NoDup_map_inj {A B} (f : A -> B) (l : list A) (x y : A) :
  NoDup (map f l) -> In x l -> In y l -> f x = f y -> x = y.
Proof.
  induction l as [|a l IH]; intros Hnd Hx Hy Hf; [contradiction|].
  simpl in Hnd. apply NoDup_cons_iff in Hnd as (Ha & Hnd).
  destruct Hx as [->|Hx], Hy as [->|Hy]; auto.
  - exfalso. apply Ha. rewrite Hf. now apply in_map.
  - exfalso. apply Ha. rewrite <- Hf. now apply in_map.
Qed.

(** The effect of a call on the row found under [c]: the counter moves by
    one exactly when the call is a successful redirect of [c], the flag
    can only change through a deactivation of [c], the rest stays. *)
Lemma serve_lookup (c : string) (k : call) (w : World) (r : URL.t) :
  table_ok (urls w) -> lookup c w = Some r ->
  exists r',
    lookup c (serve k w) = Some r'
    /\ r' = URL.with_is_active (URL.is_active r')
              (URL.with_click_count
                 (URL.click_count r
                  + (if successful_redirect c k w then 1 else 0)) r)
    /\ (URL.is_active r' = URL.is_active r \/ k = DELETE_deactivate c).
Proof.
  intros Hok Hl.
  assert (Hsame : exists r',
            Some r = Some r'
            /\ r' = URL.with_is_active (URL.is_active r')
                      (URL.with_click_count (URL.click_count r + 0) r)
            /\ (URL.is_active r' = URL.is_active r \/ k = DELETE_deactivate c)).
  { exists r. rewrite Z.add_0_r. destruct r; auto. }
  assert (Hgrow : forall w', grows w w' ->
            exists r',
              lookup c w' = Some r'
              /\ r' = URL.with_is_active (URL.is_active r')
                        (URL.with_click_count (URL.click_count r + 0) r)
              /\ (URL.is_active r' = URL.is_active r \/ k = DELETE_deactivate c)).
  { intros w' (_ & (new & U & _) & _). unfold lookup. rewrite U.
    erewrite find_app_some by exact Hl. exact Hsame. }
  pose proof Hl as Hl'. apply lookup_In in Hl' as (Hin & Hcode).
  destruct k as [fuel rq|code|code|fuel rq|code]; simpl.
  - apply Hgrow, shorten_url_grows.
  - rewrite redirect_url_eq.
    destruct (lookup code w) as [r0|] eqn:Hl0;
      [|rewrite andb_false_r; simpl; rewrite Hl; exact Hsame].
    pose proof Hl0 as Hl0'. apply lookup_In in Hl0' as (Hin0 & Hcode0).
    assert (Hclick : exists r',
              lookup c (set_urls (click r0 (urls w)) w) = Some r'
              /\ r' = URL.with_is_active (URL.is_active r')
                        (URL.with_click_count
                           (URL.click_count r
                            + (if String.eqb code c && true then 1 else 0)) r)
              /\ (URL.is_active r' = URL.is_active r
                  \/ GET_redirect code = DELETE_deactivate c)).
    { unfold lookup, click. cbn [urls set_urls].
      rewrite find_map_same_code
        by (intros x; destruct (URL.id x =? URL.id r0); reflexivity).
      unfold lookup in Hl, Hl0. rewrite Hl. simpl.
      destruct (String.eqb_spec code c) as [->|Hne].
      - assert (r0 = r) as -> by congruence. rewrite Z.eqb_refl.
        eexists. split; [reflexivity|]. simpl. destruct r; auto.
      - destruct (Z.eqb_spec (URL.id r) (URL.id r0)) as [Hid|_].
        + exfalso. apply Hne.
          assert (r = r0)
            by (eapply NoDup_map_inj; eauto; apply (ids_unique Hok)).
          congruence.
        + simpl. exact Hsame. }
    destruct (URL.is_active r0);
      [|rewrite andb_false_r; simpl; rewrite Hl; exact Hsame].
    destruct (URL.expires_at r0) as [e|]; [destruct (_ >? _)|].
    + rewrite andb_false_r. simpl. unfold lookup. simpl.
      unfold lookup in Hl. rewrite Hl. exact Hsame.
    + exact Hclick.
    + exact Hclick.
  - rewrite get_url_stats_eq. destruct (lookup code w); simpl;
      rewrite Hl; exact Hsame.
  - apply Hgrow, bulk_shorten_urls_grows.
  - rewrite deactivate_url_eq.
    destruct (lookup code w) as [r0|] eqn:Hl0; simpl;
      [|rewrite Hl; exact Hsame].
    pose proof Hl0 as Hl0'. apply lookup_In in Hl0' as (Hin0 & Hcode0).
    unfold lookup, switch_off. cbn [urls set_urls].
    rewrite find_map_same_code
      by (intros x; destruct (URL.id x =? URL.id r0); reflexivity).
    unfold lookup in Hl. rewrite Hl. simpl. rewrite Z.add_0_r.
    destruct (Z.eqb_spec (URL.id r) (URL.id r0)) as [Hid|_].
    + assert (r = r0)
        by (eapply NoDup_map_inj; eauto; apply (ids_unique Hok)).
      subst r0. eexists. split; [reflexivity|]. simpl.
      split; [destruct r; reflexivity|]. right. congruence.
    + exists r. split; [reflexivity|]. split; [destruct r; reflexivity|auto].
Qed.

(** *** Traces *)

Lemma run_snoc (trace : list call) (k : call) (w : World) :
  run (trace ++ [k]) w = serve k (run trace w).
Proof. unfold run. now rewrite fold_left_app. Qed.

Lemma run_cons (trace : list call) (k : call) (w : World) :
  run (k :: trace) w = run trace (serve k w).
Proof. reflexivity. Qed.

Lemma run_table_ok (trace : list call) :
  forall w, table_ok (urls w) -> table_ok (urls (run trace w)).
Proof.
  induction trace as [|k trace IH]; intros w Hok; [exact Hok|].
  rewrite run_cons. apply IH. now apply serve_table_ok.
Qed.

Lemma run_later (trace : list call) : forall w, later w (run trace w).
Proof.
  induction trace as [|k trace IH]; intros w; [apply later_refl|].
  rewrite run_cons. eapply later_trans; [apply serve_later|apply IH].
Qed.

Lemma run_reachable (trace : list call) :
  forall w, reachable w -> reachable (run trace w).
Proof.
  induction trace as [|k trace IH]; intros w Hr; [exact Hr|].
  rewrite run_cons. apply IH. now constructor.
Qed.

Lemma successful_redirects_snoc (c : string) (trace : list call) (k : call) :
  forall w,
    successful_redirects c (trace ++ [k]) w
    = successful_redirects c trace w
      + (if successful_redirect c k (run trace w) then 1 else 0).
Proof.
  induction trace as [|k' trace IH]; intros w; simpl.
  - lia.
  - rewrite IH. change (fold_left _ trace (serve k' w)) with (run trace (serve k' w)).
    lia.
Qed.

Lemma run_lookup_some (c : string) (trace : list call) :
  forall w r, table_ok (urls w) -> lookup c w = Some r ->
    exists r', lookup c (run trace w) = Some r'.
Proof.
  induction trace as [|k trace IH]; intros w r Hok Hl; [eauto|].
  rewrite run_cons.
  destruct (@serve_lookup c k w r Hok Hl) as (r' & Hl' & _).
  eapply IH; eauto using serve_table_ok.
Qed.

Lemma successful_redirect_found (c : string) (k : call) (w : World) :
  lookup c w = None -> successful_redirect c k w = false.
Proof.
  intros Hl. destruct k as [fuel rq|code|code|fuel rq|code]; auto. simpl.
  destruct (String.eqb_spec code c) as [->|_]; [|reflexivity].
  rewrite redirect_url_eq, Hl. reflexivity.
Qed.

(** Every row of the table after a call is the image of the row that had
    its code before, or is new and pristine. *)
Lemma serve_rows_backward (k : call) (w : World) (r : URL.t) :
  table_ok (urls w) -> In r (urls (serve k w)) ->
  (exists r0, lookup (URL.short_code r) w = Some r0
              /\ URL.click_count r
                 = URL.click_count r0
                   + (if successful_redirect (URL.short_code r) k w
                      then 1 else 0))
  \/ (lookup (URL.short_code r) w = None /\ URL.click_count r = 0).
Proof.
  intros Hok Hin.
  destruct (lookup (URL.short_code r) w) as [r0|] eqn:Hl.
  - left. exists r0. split; [reflexivity|].
    destruct (@serve_lookup _ k w r0 Hok Hl) as (r' & Hl' & Hr' & _).
    pose proof (@serve_table_ok k w Hok) as Hok'.
    pose proof (@find_by_code_unique _ r (codes_unique Hok') Hin) as Hfind.
    unfold lookup in Hl'. rewrite Hfind in Hl'. inversion Hl'; subst r'.
    apply (f_equal URL.click_count) in Hr'. exact Hr'.
  - right. split; [reflexivity|].
    assert (Hnot : ~ In r (urls w)).
    { intros Hold. apply (find_none _ _ Hl) in Hold.
      unfold by_code in Hold. now rewrite String.eqb_refl in Hold. }
    assert (Hgrow : forall w', grows w w' -> In r (urls w') ->
              URL.click_count r = 0).
    { intros w' (_ & (new & U & Hnew) & _) Hr. rewrite U in Hr.
      apply in_app_or in Hr as [Hr|Hr]; [contradiction|].
      rewrite Forall_forall in Hnew. now apply Hnew. }
    assert (Hmap : forall g, (forall x, URL.short_code (g x) = URL.short_code x) ->
              In r (map g (urls w)) -> URL.click_count r = 0).
    { intros g Hg Hr. apply in_map_iff in Hr as (x & <- & Hx).
      apply (find_none _ _ Hl) in Hx. rewrite Hg in Hx.
      unfold by_code in Hx. now rewrite String.eqb_refl in Hx. }
    destruct k as [fuel rq|code|code|fuel rq|code]; simpl in Hin.
    + eapply Hgrow; [apply shorten_url_grows|exact Hin].
    + rewrite redirect_url_eq in Hin.
      destruct (lookup code w) as [r0|]; [|contradiction].
      destruct (URL.is_active r0); [|contradiction].
      destruct (URL.expires_at r0) as [e|]; [destruct (_ >? _)|];
        simpl in Hin; try contradiction;
        (eapply Hmap; [|exact Hin]);
        intros x; cbv beta; destruct (URL.id x =? URL.id r0); reflexivity.
    + rewrite get_url_stats_eq in Hin.
      destruct (lookup code w); contradiction.
    + eapply Hgrow; [apply bulk_shorten_urls_grows|exact Hin].
    + rewrite deactivate_url_eq in Hin.
      destruct (lookup code w) as [r0|]; [|contradiction]. simpl in Hin.
      eapply Hmap; [|exact Hin].
      intros x; cbv beta; destruct (URL.id x =? URL.id r0); reflexivity.
Qed.

Lemma no_record_no_success (c : string) (trace : list call) :
  forall w, table_ok (urls w) -> lookup c (run trace w) = None ->
    lookup c w = None /\ successful_redirects c trace w = 0.
Proof.
  induction trace as [|k trace IH]; intros w Hok Hl; [now split|].
  rewrite run_cons in Hl.
  destruct (IH _ (@serve_table_ok k w Hok) Hl) as (Hl1 & Hs).
  assert (Hl0 : lookup c w = None).
  { destruct (lookup c w) as [r|] eqn:E; [|reflexivity].
    destruct (@serve_lookup c k w r Hok E) as (r' & Hl' & _). congruence. }
  split; [exact Hl0|]. simpl. rewrite Hs.
  now rewrite (@successful_redirect_found c k w Hl0).
Qed.

(** The counter of a row is what it was at the start of the trace (0 for a
    row created on the way) plus the successful redirects of its code. *)
Lemma click_count_along (trace : list call) (w : World) :
  table_ok (urls w) ->
  forall r, In r (urls (run trace w)) ->
    URL.click_count r
    = match lookup (URL.short_code r) w with
      | Some r0 => URL.click_count r0
      | None => 0
      end
      + successful_redirects (URL.short_code r) trace w.
Proof.
  intros Hok. induction trace as [|k trace IH] using rev_ind; intros r Hin.
  - simpl in Hin. unfold lookup.
    rewrite (@find_by_code_unique _ r (codes_unique Hok) Hin). simpl. lia.
  - rewrite run_snoc in Hin. rewrite successful_redirects_snoc.
    pose proof (@run_table_ok trace w Hok) as Hok1.
    destruct (@serve_rows_backward k _ r Hok1 Hin) as [(r0 & Hl & Hc)|(Hl & Hc)].
    + pose proof Hl as Hl'. apply lookup_In in Hl' as (Hin0 & Hcode0).
      specialize (IH r0 Hin0). rewrite Hcode0 in IH. lia.
    + destruct (@no_record_no_success _ trace w Hok Hl) as (Hl0 & Hs).
      rewrite Hl0, Hs, (@successful_redirect_found _ k _ Hl). lia.
Qed.

Lemma never_expires_later (w w' : World) (r r' : URL.t) :
  later w w' -> URL.expires_at r' = URL.expires_at r ->
  never_expires w r -> never_expires w' r'.
Proof.
  intros (_ & Hc & Ht & _) He. unfold never_expires. rewrite He, Hc.
  destruct (URL.expires_at r) as [e|]; [|auto].
  intros H i Hi. apply H. lia.
Qed.

(** A code that is active, never deactivated and never expired: each of
    its redirects succeeds. *)
Lemma redirects_all_succeed (c : string) (trace : list call) :
  forall w r,
    table_ok (urls w) -> lookup c w = Some r ->
    URL.is_active r = true -> never_expires w r ->
    never_deactivated c trace = true ->
    successful_redirects c trace w = redirects_of c trace.
Proof.
  induction trace as [|k trace IH]; intros w r Hok Hl Hact Hexp Hnd;
    [reflexivity|].
  destruct (@serve_lookup c k w r Hok Hl) as (r' & Hl' & Hr' & Hflag).
  assert (Hk : k <> DELETE_deactivate c /\ never_deactivated c trace = true).
  { destruct k as [fuel rq|code|code|fuel rq|code]; simpl in Hnd;
      try (split; [discriminate|assumption]).
    apply andb_true_iff in Hnd as (Hne & Hnd). split; [|assumption].
    intros E. inversion E; subst. now rewrite String.eqb_refl in Hne. }
  destruct Hk as (Hk & Hnd').
  assert (Hact' : URL.is_active r' = true).
  { destruct Hflag as [->|E]; [assumption|contradiction]. }
  assert (Hexp' : never_expires (serve k w) r').
  { apply (@never_expires_later w (serve k w) r r'); auto using serve_later.
    now rewrite Hr'. }
  specialize (IH (serve k w) r' (@serve_table_ok k w Hok) Hl' Hact' Hexp' Hnd').
  cbn [successful_redirects]. rewrite IH.
  destruct k as [fuel rq|code|code|fuel rq|code]; try reflexivity.
  cbn [redirects_of successful_redirect]. f_equal.
  destruct (String.eqb_spec code c) as [->|_]; [|reflexivity].
  rewrite redirect_url_eq, Hl, Hact. unfold never_expires in Hexp.
  destruct (URL.expires_at r) as [e|]; [|reflexivity].
  specialize (Hexp (ticks w) (le_n _)).
  destruct (Z.gtb_spec (clock w (ticks w)) e); [lia|reflexivity].
Qed.

End HandlerFacts.

(** * The claims *)

(** C8. Called with a length L >= 0, the code generator returns a string of
    exactly L characters, each one of the 62 alphanumeric characters a-z,
    A-Z, 0-9, and touches nothing but the random source; called without an
    argument, as both retry loops do, the length is 6. *)
Theorem generate_short_code_length_and_alphabet (length : Z) (w : World)
    (Hlength : 0 <= length) :
  (exists s,
      generate_short_code length w = Return s (after_draws (Z.to_nat length) w)
      /\ Z.of_nat (String.length s) = length
      /\ string_forallb is_alnum s = true)
  /\ String.length (ascii_letters ++ digits) = 62%nat
  /\ (forall c, is_alnum c = true
                <-> In c (list_ascii_of_string (ascii_letters ++ digits)))
  /\ generate_short_code_default_length = 6
  /\ (forall fuel c w',
        fresh_short_code fuel w = Return c w' ->
        String.length c = 6%nat /\ string_forallb is_alnum c = true).
Proof.
  conjs.
  - destruct (generate_short_code_returns length w) as (s & Hs & Hl & Ha).
    exists s. conjs; auto. rewrite Hl. now apply Z2Nat.id.
  - reflexivity.
  - apply alnum_alphabet.
  - reflexivity.
  - intros fuel c w' H. prim H. now destruct P as (_ & _ & Hl & Ha).
Qed.

Section Claims.
Context `{ext : Collaborators}.

Lemma lookup_unique (w : World) (r : URL.t) :
  table_ok (urls w) -> In r (urls w) -> lookup (URL.short_code r) w = Some r.
Proof.
  intros Hok Hin. apply find_by_code_unique; [apply (codes_unique Hok)|exact Hin].
Qed.

Lemma lookup_none_iff (c : string) (w : World) :
  lookup c w = None <-> ~ In c (codes (urls w)).
Proof. apply find_by_code_none. Qed.

(** C1. Resolving the code of a stored record answers Gone (410) whenever
    the record is inactive or its expiry is present and in the past,
    whatever the other field says; the table is left as it was (no click
    is counted); and the resolver that performs the two checks in the
    other order answers Gone on the same inputs, leaving the table as it
    was too. *)
Theorem resolve_blocked_is_Gone (w : World) (r : URL.t)
    (Hok : table_ok (urls w)) (Hin : In r (urls w))
    (Hblocked : URL.is_active r = false
                \/ exists e, URL.expires_at r = Some e /\ e < clock w (ticks w)) :
  status 307 (redirect_url (URL.short_code r) w) = Some Gone
  /\ urls (world_of (redirect_url (URL.short_code r) w)) = urls w
  /\ status 307 (redirect_url_expiry_first (URL.short_code r) w) = Some Gone
  /\ urls (world_of (redirect_url_expiry_first (URL.short_code r) w)) = urls w.
Proof.
  rewrite redirect_url_eq, redirect_url_expiry_first_eq.
  rewrite (lookup_unique w r Hok Hin).
  destruct Hblocked as [Hoff|(e & He & Hpast)].
  - rewrite Hoff. destruct (URL.expires_at r) as [e|];
      [destruct (clock w (ticks w) >? e)|]; repeat split.
  - rewrite He. apply Z.gtb_lt in Hpast. rewrite Hpast.
    destruct (URL.is_active r); repeat split.
Qed.

(** C6. Resolving a code that matches no record answers NotFound (404),
    never Gone; the two signals differ, and over all codes NotFound is
    answered exactly for the codes with no record while Gone is only
    answered for codes that have one. *)
Theorem resolve_unknown_is_NotFound (c : string) (w : World)
    (Hunknown : ~ In c (codes (urls w))) :
  redirect_url c w = Raise (HTTPException 404 "URL not found") w
  /\ status 307 (redirect_url c w) = Some NotFound
  /\ status 307 (redirect_url c w) <> Some Gone
  /\ NotFound <> Gone
  /\ (forall c', status 307 (redirect_url c' w) = Some NotFound
                 <-> ~ In c' (codes (urls w)))
  /\ (forall c', status 307 (redirect_url c' w) = Some Gone
                 -> In c' (codes (urls w))).
Proof.
  assert (Hcases : forall c',
            (lookup c' w = None
             /\ redirect_url c' w = Raise (HTTPException 404 "URL not found") w)
            \/ (lookup c' w <> None
                /\ status 307 (redirect_url c' w) <> Some NotFound)).
  { intros c'. rewrite redirect_url_eq.
    destruct (lookup c' w) as [r|]; [right|left; auto].
    split; [discriminate|].
    destruct (URL.is_active r); [|discriminate].
    destruct (URL.expires_at r) as [e|]; [destruct (_ >? _)|]; discriminate. }
  apply lookup_none_iff in Hunknown.
  destruct (Hcases c) as [(_ & Hc)|(Hc & _)]; [|contradiction].
  rewrite Hc. conjs; try reflexivity; try discriminate.
  - intros c'. rewrite <- lookup_none_iff.
    destruct (Hcases c') as [(Hn & E)|(Hs & E)].
    + rewrite E. split; auto.
    + split; [intros; contradiction|intros; contradiction].
  - intros c' Hgone. destruct (Hcases c') as [(Hn & E)|(Hs & E)].
    + rewrite E in Hgone. discriminate.
    + destruct (in_dec string_dec c' (codes (urls w))) as [|Hnot]; [assumption|].
      apply lookup_none_iff in Hnot. contradiction.
Qed.

(** C7. The statistics lookup of an existing record returns its full
    snapshot (original URL, creation time, expiry, click count, activation
    flag, title), whether or not the record is deactivated or expired, and
    changes nothing; it answers NotFound (404) exactly when no record has
    the code. *)
Theorem stats_snapshot (w : World) (r : URL.t)
    (Hok : table_ok (urls w)) (Hin : In r (urls w)) :
  get_url_stats (URL.short_code r) w
  = Return (URLResponse.make
              ("http://localhost:8000/" ++ URL.short_code r)
              (URL.original_url r) (URL.click_count r) (URL.created_at r)
              (URL.expires_at r) (URL.is_active r) (URL.title r)
              (Some (generate_qr_code
                       ("http://localhost:8000/" ++ URL.short_code r))))
           w
  /\ (forall c, status 200 (get_url_stats c w) = Some NotFound
                <-> ~ In c (codes (urls w))).
Proof.
  split.
  - now rewrite get_url_stats_eq, (lookup_unique w r Hok Hin).
  - intros c. rewrite <- lookup_none_iff, get_url_stats_eq.
    destruct (lookup c w); simpl; split; intros H;
      try reflexivity; try discriminate.
Qed.

(** C10. Each operation touches only its field.  Deactivating the code of
    a stored record rewrites that one row, changing nothing in it but
    is_active, and leaves every other row in place; a successful resolve
    rewrites that one row, changing nothing in it but click_count, which
    goes up by one; a statistics lookup leaves the whole world as it
    was. *)
Theorem handlers_touch_only_their_field (w : World) (r : URL.t)
    (Hok : table_ok (urls w)) (Hin : In r (urls w)) :
  (exists pre post,
      urls w = (pre ++ r :: post)%list
      /\ deactivate_url (URL.short_code r) w
         = Return "URL deactivated successfully"
             (set_urls (pre ++ URL.with_is_active false r :: post)%list w)
      /\ URL.with_is_active false r
         = URL.make (URL.id r) (URL.short_code r) (URL.original_url r)
             (URL.created_at r) (URL.click_count r) (URL.expires_at r)
             false (URL.title r))
  /\ (forall resp w',
        redirect_url (URL.short_code r) w = Return resp w' ->
        exists pre post,
          urls w = (pre ++ r :: post)%list
          /\ urls w'
             = (pre ++ URL.with_click_count (URL.click_count r + 1) r :: post)%list
          /\ URL.with_click_count (URL.click_count r + 1) r
             = URL.make (URL.id r) (URL.short_code r) (URL.original_url r)
                 (URL.created_at r) (URL.click_count r + 1) (URL.expires_at r)
                 (URL.is_active r) (URL.title r)
          /\ resp = Redirect (URL.original_url r))
  /\ (forall c, world_of (get_url_stats c w) = w).
Proof.
  pose proof (lookup_unique w r Hok Hin) as Hl.
  conjs.
  - destruct (@update_by_id_split (urls w) r (URL.with_is_active false)
                (ids_unique Hok) Hin) as (pre & post & E & U).
    exists pre, post. conjs; auto.
    rewrite deactivate_url_eq, Hl. unfold switch_off. now rewrite U.
  - intros resp w' H. rewrite redirect_url_eq, Hl in H.
    destruct (@update_by_id_split (urls w) r
                (URL.with_click_count (URL.click_count r + 1))
                (ids_unique Hok) Hin) as (pre & post & E & U).
    exists pre, post. fold (click r (urls w)) in U.
    split; [exact E|]. split; [|split; [reflexivity|]];
      (destruct (URL.is_active r); [|discriminate]);
      (destruct (URL.expires_at r) as [e|]; [destruct (_ >? _)|]);
      try discriminate; inversion H; subst; simpl; auto.
  - intros c. rewrite get_url_stats_eq. now destruct (lookup c w).
Qed.

(** *** Creating under a custom alias *)

Lemma shorten_alias_taken (fuel : nat) (request : URLShortenRequest.t)
    (w : World) (alias : string) :
  is_valid_url (str_HttpUrl (URLShortenRequest.url request)) = true ->
  URLShortenRequest.custom_alias request = Some alias ->
  truthy alias = true ->
  lookup alias w <> None ->
  shorten_url fuel request w
  = Raise (HTTPException 400 "Custom alias already exists") w.
Proof.
  intros Hv Ha Ht Hl. unfold shorten_url. rewrite Hv, Ha, Ht. cbn [negb].
  unfold bind, query_first. unfold lookup in Hl.
  destruct (find (by_code alias) (urls w)); [reflexivity|contradiction].
Qed.

Lemma shorten_alias_returns (fuel : nat) (request : URLShortenRequest.t)
    (w : World) (alias : string) :
  is_valid_url (str_HttpUrl (URLShortenRequest.url request)) = true ->
  URLShortenRequest.custom_alias request = Some alias ->
  truthy alias = true ->
  lookup alias w = None ->
  expiry_fits (URLShortenRequest.expires_in_days request) (clock w (ticks w))
  = true ->
  exists resp w', shorten_url fuel request w = Return resp w'.
Proof.
  intros Hv Ha Ht Hl Hfit. unfold shorten_url. rewrite Hv, Ha, Ht. cbn [negb].
  erewrite bind_Return_eq
    by (unfold bind, query_first; unfold lookup in Hl; rewrite Hl; reflexivity).
  destruct (compute_expires_at_fits _ _ Hfit) as (e & w2 & Hexp).
  erewrite bind_Return_eq by exact Hexp.
  pose proof (compute_expires_at_same
                (URLShortenRequest.expires_in_days request) w) as (U2 & _).
  rewrite Hexp in U2. simpl in U2.
  destruct (db_add_commit alias
              (str_HttpUrl (URLShortenRequest.url request)) e
              (URLShortenRequest.title request) w2) as [r w3|ex w3|w3] eqn:Hins;
    prim Hins.
  - erewrite bind_Return_eq by exact Hins. unfold ret. eauto.
  - destruct P as (_ & _ & Hdup). exfalso. apply Hdup. now rewrite U2.
  - contradiction.
Qed.

(** C5. Whatever the table, a shorten request whose custom alias is the
    code of a stored record fails with status 400 and leaves the world as
    it was (no record is created); when its URL passes validation, which
    the handler checks first, the failure is "Custom alias already
    exists".  Handlers run one at a time, so two creates for the same free
    alias are served in one order or the other: the first one returns a
    record (when its expiry can be computed) and the second one then fails
    with "Custom alias already exists". *)
Theorem custom_alias_taken (fuel : nat) (request : URLShortenRequest.t)
    (w : World) (r : URL.t)
    (Hok : table_ok (urls w)) (Hin : In r (urls w))
    (Halias : URLShortenRequest.custom_alias request = Some (URL.short_code r)) :
  (status 200 (shorten_url fuel request w) = Some 400
   /\ world_of (shorten_url fuel request w) = w)
  /\ (is_valid_url (str_HttpUrl (URLShortenRequest.url request)) = true ->
      shorten_url fuel request w
      = Raise (HTTPException 400 "Custom alias already exists") w)
  /\ (forall fuel1 fuel2 rq1 rq2 w0 alias,
        URLShortenRequest.custom_alias rq1 = Some alias ->
        URLShortenRequest.custom_alias rq2 = Some alias ->
        truthy alias = true ->
        is_valid_url (str_HttpUrl (URLShortenRequest.url rq1)) = true ->
        is_valid_url (str_HttpUrl (URLShortenRequest.url rq2)) = true ->
        ~ In alias (codes (urls w0)) ->
        (expiry_fits (URLShortenRequest.expires_in_days rq1)
                     (clock w0 (ticks w0)) = true ->
         exists resp1 w1, shorten_url fuel1 rq1 w0 = Return resp1 w1)
        /\ (forall resp1 w1,
              shorten_url fuel1 rq1 w0 = Return resp1 w1 ->
              shorten_url fuel2 rq2 w1
              = Raise (HTTPException 400 "Custom alias already exists") w1)).
Proof.
  assert (Htruthy : truthy (URL.short_code r) = true).
  { pose proof (codes_nonempty Hok) as Hn. rewrite Forall_forall in Hn. auto. }
  assert (Hl : lookup (URL.short_code r) w <> None).
  { rewrite (lookup_unique w r Hok Hin). discriminate. }
  assert (Htaken :
            is_valid_url (str_HttpUrl (URLShortenRequest.url request)) = true ->
            shorten_url fuel request w
            = Raise (HTTPException 400 "Custom alias already exists") w).
  { intros Hv. now apply shorten_alias_taken with (alias := URL.short_code r). }
  conjs.
  - destruct (is_valid_url (str_HttpUrl (URLShortenRequest.url request))) eqn:Hv.
    + now rewrite Htaken.
    + unfold shorten_url. now rewrite Hv.
  - destruct (is_valid_url (str_HttpUrl (URLShortenRequest.url request))) eqn:Hv.
    + now rewrite Htaken.
    + unfold shorten_url. now rewrite Hv.
  - exact Htaken.
  - intros fuel1 fuel2 rq1 rq2 w0 alias Ha1 Ha2 Ht Hv1 Hv2 Hfree. split.
    + intros Hfit. apply shorten_alias_returns with (alias := alias); auto.
      now apply lookup_none_iff.
    + intros resp1 w1 H1.
      apply shorten_url_Return in H1 as (r1 & Hi & _ & _ & _ & Hcode & _).
      apply shorten_alias_taken with (alias := alias); auto.
      destruct (inserted_later Hi) as (_ & U). unfold lookup. rewrite U.
      destruct Hi as (_ & _ & _ & _ & _ & _ & _ & Hfind & _).
      rewrite (Hcode alias Ha1 Ht) in Hfind.
      erewrite find_app_none by exact Hfind. simpl. unfold by_code.
      rewrite (Hcode alias Ha1 Ht), String.eqb_refl. discriminate.
Qed.

(** *** Codes never leave the table *)

Lemma codes_update (pk : Z) (f : URL.t -> URL.t) (l : list URL.t) :
  (forall x, URL.short_code (f x) = URL.short_code x) ->
  codes (map (fun x => if URL.id x =? pk then f x else x) l) = codes l.
Proof.
  intros Hf. unfold codes. rewrite map_map. apply map_ext.
  intros x. destruct (URL.id x =? pk); auto.
Qed.

Lemma serve_codes (k : call) (w : World) :
  exists more, codes (urls (serve k w)) = (codes (urls w) ++ more)%list.
Proof.
  assert (Hsame : exists more, codes (urls w) = (codes (urls w) ++ more)%list)
    by (exists []; now rewrite app_nil_r).
  assert (Hgrow : forall w', grows w w' ->
            exists more, codes (urls w') = (codes (urls w) ++ more)%list).
  { intros w' (_ & (new & -> & _) & _). exists (codes new).
    unfold codes. now rewrite map_app. }
  destruct k as [fuel rq|code|code|fuel rq|code]; simpl.
  - apply Hgrow, shorten_url_grows.
  - rewrite redirect_url_eq. destruct (lookup code w) as [r|]; auto.
    destruct (URL.is_active r); auto.
    destruct (URL.expires_at r) as [e|]; [destruct (_ >? _)|]; simpl; auto;
      unfold click; rewrite codes_update; auto.
  - rewrite get_url_stats_eq. destruct (lookup code w); auto.
  - apply Hgrow, bulk_shorten_urls_grows.
  - rewrite deactivate_url_eq. destruct (lookup code w) as [r|]; auto.
    simpl. unfold switch_off. rewrite codes_update; auto.
Qed.

(** C2. In every world the service can reach from an empty database, no
    two rows of the table (active, deactivated or expired alike) carry the
    same short code.  Each create path keeps it so, whatever its outcome:
    a single shorten, with a custom alias or a generated code, and a bulk
    shorten.  No call removes a row or changes its code, so the rows of
    the table are all the records ever created. *)
Theorem short_codes_globally_unique (w : World) (Hreach : reachable w) :
  NoDup (codes (urls w))
  /\ (forall i j r1 r2,
        i <> j ->
        nth_error (urls w) i = Some r1 -> nth_error (urls w) j = Some r2 ->
        URL.short_code r1 <> URL.short_code r2)
  /\ (forall fuel request,
        NoDup (codes (urls (world_of (shorten_url fuel request w)))))
  /\ (forall fuel request,
        NoDup (codes (urls (world_of (bulk_shorten_urls fuel request w)))))
  /\ (forall k, exists more,
        codes (urls (serve k w)) = (codes (urls w) ++ more)%list).
Proof.
  pose proof (reachable_table_ok Hreach) as Hok.
  conjs.
  - apply (codes_unique Hok).
  - intros i j r1 r2 Hij H1 H2 Heq. apply Hij.
    pose proof (codes_unique Hok) as Hnd.
    rewrite NoDup_nth_error in Hnd. apply Hnd.
    + unfold codes. rewrite length_map. apply nth_error_Some. congruence.
    + unfold codes. rewrite !nth_error_map, H1, H2. simpl. congruence.
  - intros fuel request.
    apply (codes_unique (@serve_table_ok _ (POST_shorten fuel request) w Hok)).
  - intros fuel request.
    apply (codes_unique (@serve_table_ok _ (POST_bulk_shorten fuel request) w Hok)).
  - intros k. apply serve_codes.
Qed.

(** C3. A record is created with click_count 0, by either create path, and
    the response says so.  Along any run of the service from an empty
    database, the click_count of every record equals the number of
    successful redirects of its code: each successful redirect adds
    exactly one, and a NotFound or Gone outcome adds nothing.  For a code
    that is active, never deactivated and never expired, every redirect
    succeeds, so that after K redirects the counter has grown by exactly
    K. *)
Theorem click_count_counts_successful_redirects (w : World) (r : URL.t)
    (trace : list call)
    (Hok : table_ok (urls w)) (Hin : In r (urls w)) :
  (exists r',
      lookup (URL.short_code r) (run trace w) = Some r'
      /\ URL.click_count r'
         = URL.click_count r
           + successful_redirects (URL.short_code r) trace w
      /\ (URL.is_active r = true -> never_expires w r ->
          never_deactivated (URL.short_code r) trace = true ->
          URL.click_count r'
          = URL.click_count r + redirects_of (URL.short_code r) trace))
  /\ (forall e c tr x,
        In x (urls (run tr (boot e c))) ->
        URL.click_count x
        = successful_redirects (URL.short_code x) tr (boot e c))
  /\ (forall fuel request resp w',
        shorten_url fuel request w = Return resp w' ->
        URLResponse.click_count resp = 0
        /\ exists x, urls w' = (urls w ++ [x])%list /\ URL.click_count x = 0)
  /\ (forall fuel request resp w',
        bulk_shorten_urls fuel request w = Return resp w' ->
        Forall (fun x => URLResponse.click_count x = 0)
               (BulkURLResponse.results resp)
        /\ exists new, urls w' = (urls w ++ new)%list
                       /\ Forall (fun x => URL.click_count x = 0) new).
Proof.
  pose proof (lookup_unique w r Hok Hin) as Hl.
  conjs.
  - destruct (@run_lookup_some _ (URL.short_code r) trace w r Hok Hl)
      as (r' & Hl').
    exists r'. pose proof Hl' as Hl''. apply lookup_In in Hl'' as (Hin' & Hc').
    pose proof (@click_count_along _ trace w Hok r' Hin') as Hcount.
    rewrite Hc', Hl in Hcount. conjs; auto.
    intros Hact Hexp Hnd. rewrite Hcount. f_equal.
    now apply redirects_all_succeed with (r := r).
  - intros e c tr x Hx.
    pose proof (@click_count_along _ tr (boot e c) table_ok_nil x Hx) as Hcount.
    unfold lookup in Hcount. simpl in Hcount. lia.
  - intros fuel request resp w' H.
    apply shorten_url_Return in H as (x & Hi & _ & _ & _ & _ & ->).
    split; [reflexivity|]. exists x.
    destruct (inserted_later Hi) as (_ & U).
    destruct Hi as (_ & _ & _ & _ & _ & _ & (Hc & _) & _). auto.
  - intros fuel request resp w' H. unfold bulk_shorten_urls in H.
    apply bind_Return in H as ([results errors] & w1 & Hfor & H).
    unfold ret in H. inversion H; subst resp w'; clear H. simpl.
    pose proof (bulk_for_inv fuel (BulkURLRequest.expires_in_days request)
                  (BulkURLRequest.urls request) [] [] w) as P.
    rewrite Hfor in P.
    destruct P as (items & new & _ & E & U & HR & HA & _).
    inversion E; subst results errors; clear E. simpl. split.
    + clear - HR. induction HR as [|x y l l' Hxy _ IH]; constructor; auto.
      now subst x.
    + exists new. split; [exact U|].
      revert HA. apply Forall_impl.
      intros x (wa & wb & _ & (_ & _ & _ & _ & _ & _ & (Hc & _) & _) & _).
      exact Hc.
Qed.

(** *** Expiry of created rows *)

Lemma inserted_days_policy (wa wb w w' : World) (d : option Z) (r : URL.t) :
  later w wa -> inserted wa wb d r -> later wb w' ->
  lookup (URL.short_code r) w' = Some r ->
  days_policy d w w' r.
Proof.
  intros La (w1 & L1 & U1 & Hwb & Hid & Hcreated & (Hclicks & Hactive)
             & Hfind & Htruthy & Hexp) Lb Hl.
  split.
  - intros ->. simpl in Hexp. split; [exact Hexp|].
    intros w''. unfold is_url_expired. now rewrite Hexp.
  - intros N HN ->.
    assert (Hnz : (- N =? 0) = false) by (apply Z.eqb_neq; lia).
    rewrite Hnz in Hexp. destruct Hexp as (i & Hi & Ht1 & He).
    destruct La as (_ & Hca & Hta & _).
    destruct L1 as (_ & Hc1 & _).
    destruct Lb as (_ & Hcb & Htb & _).
    assert (Htick : ticks wb = S (S i)) by (subst wb; simpl; lia).
    assert (Hclock : clock w' = clock w).
    { rewrite Hcb. subst wb. simpl. now rewrite Hc1, Hca. }
    exists i. conjs.
    + lia.
    + lia.
    + rewrite He, Hca. f_equal. lia.
    + intros Hmono. split.
      * rewrite Hcreated, Ht1, Hca. apply Hmono. lia.
      * rewrite redirect_url_eq, Hl, Hactive, He, Hclock, Hca.
        assert (Hge : clock w i <= clock w (ticks w')) by (apply Hmono; lia).
        unfold datetime.us_per_day.
        destruct (Z.gtb_spec (clock w (ticks w')) (clock w i + - N * 86400000000));
          [reflexivity|lia].
Qed.

Lemma Forall2_eq_map {A B} (f : B -> A) (l : list A) (l' : list B) :
  Forall2 (fun a b => a = f b) l l' -> l = map f l'.
Proof.
  induction 1 as [|a b l l' Hab _ IH]; [reflexivity|].
  simpl. now rewrite Hab, IH.
Qed.

Lemma bulk_for_zero_days (fuel : nat) (todo : list HttpUrl) :
  forall results errors w,
    bulk_for fuel (Some 0) todo results errors w
    = bulk_for fuel None todo results errors w.
Proof.
  induction todo as [|url rest IH]; intros results errors w; [reflexivity|].
  cbn [bulk_for].
  change (bulk_try fuel (Some 0) url) with (bulk_try fuel None url).
  unfold bind.
  destruct (try_except (bulk_try fuel None url) (bulk_except url) w)
    as [[resp|msg] w1|e w1|w1]; auto.
Qed.

(** C9. On either create path a request with expires_in_days = 0 is served
    exactly like one that omits the field: the created record has no
    expiry and is never expired.  With a negative value -N the created
    record expires N days before the reading of the clock that the handler
    takes while serving the request (itself no later than created_at), so
    that the record is answered Gone, as expired, as soon as the request
    has returned. *)
Theorem zero_days_never_expire_negative_days_born_expired
    (fuel : nat) (w : World) (Hok : table_ok (urls w)) :
  (forall url alias title,
      shorten_url fuel (URLShortenRequest.make url alias (Some 0) title) w
      = shorten_url fuel (URLShortenRequest.make url alias None title) w)
  /\ (forall us,
        bulk_shorten_urls fuel (BulkURLRequest.make us (Some 0)) w
        = bulk_shorten_urls fuel (BulkURLRequest.make us None) w)
  /\ (forall request resp w',
        shorten_url fuel request w = Return resp w' ->
        exists r,
          urls w' = (urls w ++ [r])%list
          /\ resp = created_response r
          /\ days_policy (URLShortenRequest.expires_in_days request) w w' r)
  /\ (forall request resp w',
        bulk_shorten_urls fuel request w = Return resp w' ->
        exists new,
          urls w' = (urls w ++ new)%list
          /\ BulkURLResponse.results resp = map created_response new
          /\ forall r, In r new ->
               days_policy (BulkURLRequest.expires_in_days request) w w' r).
Proof.
  conjs.
  - reflexivity.
  - intros us. unfold bulk_shorten_urls. cbn [BulkURLRequest.expires_in_days
                                               BulkURLRequest.urls].
    unfold bind. now rewrite bulk_for_zero_days.
  - intros request resp w' H.
    pose proof (shorten_url_grows fuel request w) as (_ & _ & Hok').
    rewrite H in Hok'. simpl in Hok'. specialize (Hok' Hok).
    apply shorten_url_Return in H as (r & Hi & _ & _ & _ & _ & ->).
    destruct (inserted_later Hi) as (_ & U).
    exists r. conjs; auto.
    apply (@inserted_days_policy w w' w w'); auto using later_refl.
    apply lookup_unique; [exact Hok'|]. rewrite U. apply in_or_app. right.
    now left.
  - intros request resp w' H.
    pose proof (bulk_shorten_urls_grows fuel request w) as (_ & _ & Hok').
    rewrite H in Hok'. simpl in Hok'. specialize (Hok' Hok).
    unfold bulk_shorten_urls in H.
    apply bind_Return in H as ([results errors] & w1 & Hfor & H).
    unfold ret in H. inversion H; subst resp w'; clear H. simpl.
    pose proof (bulk_for_inv fuel (BulkURLRequest.expires_in_days request)
                  (BulkURLRequest.urls request) [] [] w) as P.
    rewrite Hfor in P.
    destruct P as (items & new & _ & E & U & HR & HA & _).
    inversion E; subst results errors; clear E. simpl.
    exists new. conjs; auto.
    + now apply Forall2_eq_map.
    + intros r Hr. rewrite Forall_forall in HA.
      destruct (HA r Hr) as (wa & wb & La & Hi & Lb).
      apply (@inserted_days_policy wa wb w w1); auto.
      apply lookup_unique; [exact Hok'|]. rewrite U. apply in_or_app. now right.
Qed.

(** *** Request validation of the bulk endpoint *)

Lemma validate_urls_None (raw : list string) :
  validate_urls raw = None <-> exists s, In s raw /\ parse_HttpUrl s = None.
Proof.
  induction raw as [|s rest IH]; simpl.
  - split; [discriminate|]. now intros (s & [] & _).
  - destruct (parse_HttpUrl s) as [u|] eqn:Hs.
    + destruct (validate_urls rest) as [us|].
      * split; [discriminate|]. intros (x & [<-|Hx] & Hnone); [congruence|].
        assert (E : Some us = None) by (apply IH; eauto).
        discriminate E.
      * split; [|reflexivity]. intros _.
        destruct (proj1 IH eq_refl) as (x & Hx & Hnone). eauto.
    + split; [|reflexivity]. intros _. exists s. auto.
Qed.

(** C4, as amended.  The bulk handler never fails as a whole: it raises
    nothing.  When it returns, every URL of the request has been processed
    in order and has contributed either a created record or one error
    string that names it ("Invalid URL format: <url>" when validators.url
    rejects it, "Error processing <url>: ..." when processing it raised),
    total_created is the number of records in results, and the rows
    appended to the table are the records in results.  With no code
    collision ahead it does return, whatever the fuel.  But the handler
    only ever sees requests whose entries are all HttpUrl values: a body
    with an entry that is not an HttpUrl is answered 422 as a whole, with
    nothing processed and nothing created. *)
Theorem bulk_shorten_partial_failure (fuel : nat) (request : BulkURLRequest.t)
    (w : World) :
  (forall e w', bulk_shorten_urls fuel request w <> Raise e w')
  /\ (forall resp w',
        bulk_shorten_urls fuel request w = Return resp w' ->
        BulkURLResponse.total_created resp
        = Z.of_nat (List.length (BulkURLResponse.results resp))
        /\ exists items new,
             Forall2 item_ok (BulkURLRequest.urls request) items
             /\ BulkURLResponse.results resp = lefts items
             /\ BulkURLResponse.errors resp = rights items
             /\ urls w' = (urls w ++ new)%list
             /\ BulkURLResponse.results resp = map created_response new)
  /\ (collision_free w (List.length (BulkURLRequest.urls request)) ->
      exists resp w', bulk_shorten_urls (S fuel) request w = Return resp w')
  /\ (forall raw d,
        (exists s, In s raw /\ parse_HttpUrl s = None) ->
        post_bulk_shorten fuel raw d w = Raise RequestValidationError w
        /\ status 200 (post_bulk_shorten fuel raw d w) = Some 422)
  /\ (forall raw d us,
        validate_urls raw = Some us ->
        post_bulk_shorten fuel raw d w
        = bulk_shorten_urls fuel (BulkURLRequest.make us d) w).
Proof.
  pose proof (bulk_for_inv fuel (BulkURLRequest.expires_in_days request)
                (BulkURLRequest.urls request) [] [] w) as P.
  conjs.
  - intros e w' H. unfold bulk_shorten_urls in H.
    apply bind_Raise in H as [H|([results errors] & w1 & _ & H)];
      [|discriminate].
    now rewrite H in P.
  - intros resp w' H. unfold bulk_shorten_urls in H.
    apply bind_Return in H as ([results errors] & w1 & Hfor & H).
    unfold ret in H. inversion H; subst resp w'; clear H. simpl.
    rewrite Hfor in P.
    destruct P as (items & new & HF & E & U & HR & _).
    inversion E; subst results errors; clear E. simpl.
    split; [reflexivity|]. exists items, new. conjs; auto.
    now apply Forall2_eq_map.
  - apply bulk_shorten_urls_returns.
  - intros raw d Hbad. apply validate_urls_None in Hbad.
    unfold post_bulk_shorten. rewrite Hbad. split; reflexivity.
  - intros raw d us Hgood. unfold post_bulk_shorten. now rewrite Hgood.
Qed.

End Claims.

(** * The claims at concrete inputs *)

Lemma example_world_ok : table_ok (urls example_world).
Proof.
  split; simpl.
  - repeat constructor; simpl; intuition discriminate.
  - repeat constructor; simpl; intuition discriminate.
  - repeat constructor.
  - repeat constructor; simpl; lia.
Qed.

Lemma generate_short_code_length_and_alphabet_witness :
  0 <= 6
  /\ exists s,
       generate_short_code 6 example_boot = Return s (after_draws 6 example_boot)
       /\ Z.of_nat (String.length s) = 6
       /\ string_forallb is_alnum s = true.
Proof.
  split; [lia|].
  exact (proj1 (@generate_short_code_length_and_alphabet 6 example_boot
                  ltac:(lia))).
Defined.

Lemma resolve_blocked_is_Gone_witness :
  table_ok (urls example_world)
  /\ In example_row_expired (urls example_world)
  /\ (exists e, URL.expires_at example_row_expired = Some e
                /\ e < clock example_world (ticks example_world))
  /\ status 307 (redirect_url "sale24" example_world) = Some Gone.
Proof.
  assert (Hin : In example_row_expired (urls example_world))
    by (simpl; auto).
  assert (Hpast : exists e, URL.expires_at example_row_expired = Some e
                            /\ e < clock example_world (ticks example_world))
    by (eexists; split; [reflexivity|vm_compute; reflexivity]).
  split; [exact example_world_ok|]. split; [exact Hin|]. split; [exact Hpast|].
  exact (proj1 (@resolve_blocked_is_Gone example_world
                  example_row_expired example_world_ok Hin (or_intror Hpast))).
Defined.

Lemma resolve_unknown_is_NotFound_witness :
  ~ In "nope" (codes (urls example_world))
  /\ redirect_url "nope" example_world
     = Raise (HTTPException 404 "URL not found") example_world.
Proof.
  assert (Hunknown : ~ In "nope" (codes (urls example_world)))
    by (simpl; intuition discriminate).
  split; [exact Hunknown|].
  exact (proj1 (@resolve_unknown_is_NotFound "nope" example_world
                  Hunknown)).
Defined.

Lemma stats_snapshot_witness :
  table_ok (urls example_world)
  /\ In example_row_inactive (urls example_world)
  /\ @get_url_stats reference "promo" example_world
     = Return (URLResponse.make "http://localhost:8000/promo" "https://a.com" 3
                 (example_clock 0) None false (Some "Promo")
                 (Some "data:image/png;base64,http://localhost:8000/promo"))
              example_world.
Proof.
  assert (Hin : In example_row_inactive (urls example_world))
    by (simpl; auto).
  split; [exact example_world_ok|]. split; [exact Hin|].
  exact (proj1 (@stats_snapshot reference example_world example_row_inactive
                  example_world_ok Hin)).
Defined.

Lemma handlers_touch_only_their_field_witness :
  table_ok (urls example_world)
  /\ In example_row_live (urls example_world)
  /\ world_of (@get_url_stats reference "docs" example_world) = example_world.
Proof.
  assert (Hin : In example_row_live (urls example_world))
    by (simpl; auto).
  split; [exact example_world_ok|]. split; [exact Hin|].
  exact (proj2 (proj2 (@handlers_touch_only_their_field reference example_world
                         example_row_live example_world_ok Hin)) "docs").
Defined.

Lemma custom_alias_taken_witness :
  table_ok (urls example_world)
  /\ In example_row_live (urls example_world)
  /\ @shorten_url reference 1
       (URLShortenRequest.make example_url_b (Some "docs") None None)
       example_world
     = Raise (HTTPException 400 "Custom alias already exists") example_world.
Proof.
  assert (Hin : In example_row_live (urls example_world))
    by (simpl; auto).
  split; [exact example_world_ok|]. split; [exact Hin|].
  exact (proj1 (proj2 (@custom_alias_taken reference 1
                         (URLShortenRequest.make example_url_b (Some "docs")
                                                 None None)
                         example_world example_row_live example_world_ok Hin
                         eq_refl))
               eq_refl).
Defined.

Lemma short_codes_globally_unique_witness :
  @reachable reference example_reached /\ NoDup (codes (urls example_reached)).
Proof.
  assert (Hreach : @reachable reference example_reached)
    by (apply reachable_serve, reachable_serve, reachable_boot).
  split; [exact Hreach|].
  exact (proj1 (@short_codes_globally_unique reference example_reached Hreach)).
Defined.

Lemma click_count_counts_successful_redirects_witness :
  table_ok (urls example_world)
  /\ In example_row_live (urls example_world)
  /\ exists r',
       lookup "docs"
         (@run reference
            [GET_redirect "docs"; GET_redirect "promo"; GET_stats "docs";
             GET_redirect "docs"] example_world) = Some r'
       /\ URL.click_count r' = 7 + 2.
Proof.
  assert (Hin : In example_row_live (urls example_world))
    by (simpl; auto).
  split; [exact example_world_ok|]. split; [exact Hin|].
  destruct (proj1 (@click_count_counts_successful_redirects reference
                     example_world example_row_live
                     [GET_redirect "docs"; GET_redirect "promo";
                      GET_stats "docs"; GET_redirect "docs"]
                     example_world_ok Hin))
    as (r' & Hl & Hcount & _).
  exists r'. split; [exact Hl|]. rewrite Hcount. vm_compute. reflexivity.
Defined.

Lemma zero_days_never_expire_negative_days_born_expired_witness :
  table_ok (urls example_boot)
  /\ @bulk_shorten_urls reference 1
       (BulkURLRequest.make [example_url_a; example_url_b] (Some 0)) example_boot
     = @bulk_shorten_urls reference 1
         (BulkURLRequest.make [example_url_a; example_url_b] None) example_boot.
Proof.
  split; [exact table_ok_nil|].
  exact (proj1 (proj2 (@zero_days_never_expire_negative_days_born_expired
                         reference 1 example_boot table_ok_nil))
               [example_url_a; example_url_b]).
Defined.

Lemma bulk_shorten_partial_failure_witness :
  collision_free example_boot 2
  /\ exists resp w',
       @bulk_shorten_urls reference 1
         (BulkURLRequest.make [example_url_a; example_url_b] None) example_boot
       = Return resp w'.
Proof.
  assert (Hfree : collision_free example_boot 2).
  { split.
    - vm_compute. repeat constructor; simpl; intuition discriminate.
    - intros c _ [].
  }
  split; [exact Hfree|].
  exact (proj1 (proj2 (proj2 (@bulk_shorten_partial_failure reference 0
                                (BulkURLRequest.make [example_url_a; example_url_b]
                                                     None)
                                example_boot)))
               Hfree).
Defined.

(** The example of the specification, sent to the bulk endpoint: the body
    does not validate, the answer is 422 and nothing is created. *)
Lemma bulk_example_rejected_as_a_whole :
  @post_bulk_shorten reference 1
     ["https://a.com"; "not-a-url"; "https://b.com"] None example_boot
  = Raise RequestValidationError example_boot
  /\ ~ (exists resp w',
          @post_bulk_shorten reference 1
             ["https://a.com"; "not-a-url"; "https://b.com"] None example_boot
          = Return resp w'
          /\ BulkURLResponse.total_created resp = 2
          /\ List.length (BulkURLResponse.results resp) = 2%nat
          /\ List.length (BulkURLResponse.errors resp) = 1%nat).
Proof.
  assert (H : @post_bulk_shorten reference 1
                ["https://a.com"; "not-a-url"; "https://b.com"] None example_boot
              = Raise RequestValidationError example_boot)
    by reflexivity.
  split; [exact H|].
  intros (resp & w' & Hret & _). rewrite H in Hret. discriminate Hret.
Qed.

(** * Runs on concrete inputs *)

(** What a client sees of an outcome of the bulk handler: how many records
    it says it created, how many it lists, and the error strings. *)
Example bulk_two_urls_created :
  match @bulk_shorten_urls reference 1
          (BulkURLRequest.make [example_url_a; example_url_b] None) example_boot
  with
  | Return resp _ =>
      Some (BulkURLResponse.total_created resp,
            map URLResponse.short_url (BulkURLResponse.results resp),
            BulkURLResponse.errors resp)
  | _ => None
  end
  = Some (2, ["http://localhost:8000/abcdef"; "http://localhost:8000/ghijkl"], []).
Proof. vm_compute. reflexivity. Qed.

(** An expiry that cannot be computed fails each URL on its own: both are
    reported, each under its name, and the loop goes through the list. *)
Example bulk_each_failure_reported :
  match @bulk_shorten_urls reference 1
          (BulkURLRequest.make [example_url_a; example_url_b] (Some 1000000000))
          example_boot
  with
  | Return resp w' =>
      Some (BulkURLResponse.total_created resp, BulkURLResponse.errors resp,
            urls w')
  | _ => None
  end
  = Some (0, ["Error processing https://a.com: date value out of range";
              "Error processing https://b.com: date value out of range"], []).
Proof. vm_compute. reflexivity. Qed.

(** The scenario of the specification: shorten a URL with no alias and no
    expiry, follow the short code once, then ask for its statistics. *)
Example shorten_redirect_stats :
  let w1 := world_of (@shorten_url reference 1
                        (URLShortenRequest.make example_url_x None None None)
                        example_boot) in
  let w2 := world_of (redirect_url "abcdef" w1) in
  map (fun r => (URL.short_code r, URL.expires_at r, URL.is_active r,
                 URL.click_count r)) (urls w1)
  = [("abcdef", None, true, 0)]
  /\ match redirect_url "abcdef" w1 with
     | Return (Redirect target) _ => Some target
     | _ => None
     end = Some "https://example.com/x"
  /\ match @get_url_stats reference "abcdef" w2 with
     | Return resp _ => Some (URLResponse.click_count resp)
     | _ => None
     end = Some 1.
Proof. vm_compute. repeat split. Qed.

(** A record created with a negative expires_in_days is born expired. *)
Example negative_days_born_expired :
  let w1 := world_of (@shorten_url reference 1
                        (URLShortenRequest.make example_url_x (Some "old")
                                                (Some (-2)) None)
                        example_boot) in
  map (fun r => (URL.short_code r, URL.expires_at r)) (urls w1)
  = [("old", Some (example_clock 0 - 2 * datetime.us_per_day))]
  /\ status 307 (redirect_url "old" w1) = Some Gone.
Proof. vm_compute. repeat split. Qed.

(** * Further properties of the handlers *)

Section Further.
Context `{ext : Collaborators}.

(** ** How the two UPDATEs show in a lookup *)

Lemma lookup_after_update (c : string) (w w0 : World) (r : URL.t)
    (pk : Z) (f : URL.t -> URL.t) :
  (forall x, URL.short_code (f x) = URL.short_code x) ->
  lookup c w = Some r ->
  lookup c (set_urls (map (fun x => if URL.id x =? pk then f x else x) (urls w)) w0)
  = Some (if URL.id r =? pk then f r else r).
Proof.
  intros Hf Hl. unfold lookup in *. cbn [urls set_urls].
  rewrite find_map_same_code
    by (intros x; destruct (URL.id x =? pk); auto).
  now rewrite Hl.
Qed.

Lemma set_urls_set_urls (l l' : list URL.t) (w : World) :
  set_urls l (set_urls l' w) = set_urls l w.
Proof. reflexivity. Qed.

Lemma switch_off_twice (r : URL.t) (l : list URL.t) :
  switch_off (URL.with_is_active false r) (switch_off r l) = switch_off r l.
Proof.
  unfold switch_off. rewrite map_map. apply map_ext. intros x. cbn [URL.id URL.with_is_active].
  destruct (URL.id x =? URL.id r) eqn:E; cbn [URL.id URL.with_is_active].
  - rewrite E. reflexivity.
  - rewrite E. reflexivity.
Qed.

(** ** redirect_url: when it succeeds *)

(** X1. A redirect succeeds exactly when the code has a row that is active
    and whose expiry, if any, is not before the reading of the clock (a
    reading equal to the expiry still passes: the comparison is strict); it
    then answers with the stored original URL.  Whatever the code, the
    answer is 307, 404 or 410. *)
Theorem redirect_succeeds_exactly_when_live (c : string) (w : World) :
  (forall resp w',
      redirect_url c w = Return resp w'
      <-> exists r,
            lookup c w = Some r /\ URL.is_active r = true
            /\ not_expired_now w r
            /\ resp = Redirect (URL.original_url r)
            /\ w' = set_urls (click r (urls w))
                      (match URL.expires_at r with
                       | None => w
                       | Some _ => after_ticks 1 w
                       end))
  /\ (status 307 (redirect_url c w) = Some 307
      \/ status 307 (redirect_url c w) = Some NotFound
      \/ status 307 (redirect_url c w) = Some Gone).
Proof.
  rewrite redirect_url_eq. unfold not_expired_now. split.
  - intros resp w'. destruct (lookup c w) as [r|].
    + destruct (URL.is_active r) eqn:Hact.
      * destruct (URL.expires_at r) as [e|] eqn:He.
        -- destruct (Z.gtb_spec (clock w (ticks w)) e) as [Hgt|Hle].
           ++ split; [discriminate|].
              intros (r' & Hr & _ & Hexp & _). inversion Hr; subst r'.
              rewrite He in Hexp. lia.
           ++ split.
              ** intros H. inversion H; subst. exists r. rewrite Hact, He. auto.
              ** intros (r' & Hr & _ & _ & -> & ->). inversion Hr; subst r'.
                 now rewrite He.
        -- split.
           ++ intros H. inversion H; subst. exists r. rewrite Hact, He. auto.
           ++ intros (r' & Hr & _ & _ & -> & ->). inversion Hr; subst r'.
              now rewrite He.
      * split; [discriminate|].
        intros (r' & Hr & Hact' & _). inversion Hr; subst r'. congruence.
    + split; [discriminate|]. intros (r' & Hr & _). discriminate.
  - destruct (lookup c w) as [r|]; [|right; left; reflexivity].
    destruct (URL.is_active r); [|right; right; reflexivity].
    destruct (URL.expires_at r) as [e|]; [destruct (_ >? _)|]; simpl; auto.
Qed.

(** ** deactivate_url *)

(** X2. Deactivating answers 404 exactly for the codes with no row, and then
    changes nothing.  For a code that has a row it answers with the success
    message whether or not the row is already inactive, the row found
    afterwards is the old one with is_active false, and a second
    deactivation leaves the world as the first one left it. *)
Theorem deactivate_unknown_and_idempotent (c : string) (w : World) :
  (lookup c w = None
   <-> deactivate_url c w = Raise (HTTPException 404 "URL not found") w)
  /\ (forall r,
        lookup c w = Some r ->
        exists w1,
          deactivate_url c w = Return "URL deactivated successfully" w1
          /\ lookup c w1 = Some (URL.with_is_active false r)
          /\ deactivate_url c w1 = Return "URL deactivated successfully" w1).
Proof.
  split.
  - rewrite deactivate_url_eq. destruct (lookup c w); split;
      try discriminate; reflexivity.
  - intros r Hl. rewrite deactivate_url_eq, Hl.
    eexists. split; [reflexivity|].
    assert (Hl1 : lookup c (set_urls (switch_off r (urls w)) w)
                  = Some (URL.with_is_active false r)).
    { unfold switch_off. erewrite lookup_after_update by (auto || exact Hl).
      now rewrite Z.eqb_refl. }
    split; [exact Hl1|].
    rewrite deactivate_url_eq, Hl1. cbn [urls set_urls].
    now rewrite switch_off_twice.
Qed.

(** ** What a stored row keeps along any run *)

Lemma serve_lookup_flag (c : string) (k : call) (w : World) (r : URL.t) :
  table_ok (urls w) -> lookup c w = Some r ->
  exists r',
    lookup c (serve k w) = Some r'
    /\ r' = URL.with_is_active (URL.is_active r')
              (URL.with_click_count
                 (URL.click_count r
                  + (if successful_redirect c k w then 1 else 0)) r)
    /\ (URL.is_active r = false -> URL.is_active r' = false).
Proof.
  intros Hok Hl.
  destruct (@serve_lookup _ c k w r Hok Hl) as (r' & Hl' & Hr' & Hflag).
  exists r'. split; [exact Hl'|]. split; [exact Hr'|].
  destruct Hflag as [->| ->]; [auto|]. intros _.
  simpl in Hl'. rewrite deactivate_url_eq, Hl in Hl'. simpl in Hl'.
  unfold switch_off in Hl'.
  erewrite lookup_after_update in Hl' by (auto || exact Hl).
  rewrite Z.eqb_refl in Hl'. inversion Hl'. reflexivity.
Qed.

Lemma run_lookup_frame (c : string) (trace : list call) :
  forall w r,
    table_ok (urls w) -> lookup c w = Some r ->
    exists r',
      lookup c (run trace w) = Some r'
      /\ URL.with_is_active true (URL.with_click_count 0 r')
         = URL.with_is_active true (URL.with_click_count 0 r)
      /\ URL.click_count r <= URL.click_count r'
      /\ (URL.is_active r = false -> URL.is_active r' = false).
Proof.
  induction trace as [|k trace IH]; intros w r Hok Hl.
  - exists r. repeat split; auto. lia.
  - destruct (@serve_lookup_flag c k w r Hok Hl) as (r1 & Hl1 & Hr1 & Hflag1).
    destruct (IH (serve k w) r1 (@serve_table_ok _ k w Hok) Hl1)
      as (r' & Hl' & Hsame & Hle & Hflag').
    exists r'. rewrite run_cons. split; [exact Hl'|].
    assert (Hfields : URL.with_is_active true (URL.with_click_count 0 r1)
                      = URL.with_is_active true (URL.with_click_count 0 r)).
    { rewrite Hr1. reflexivity. }
    assert (Hcount : URL.click_count r <= URL.click_count r1).
    { rewrite Hr1. cbn. destruct (successful_redirect c k w); lia. }
    split; [congruence|]. split; [lia|]. auto.
Qed.

(** X3. Along any run of the service, the row stored under a code stays
    stored under it and keeps its key, short code, original URL, creation
    time, expiry and title: no handler deletes a row or rewrites any of
    these fields. *)
Theorem stored_fields_never_change (w : World) (r : URL.t) (trace : list call)
    (Hok : table_ok (urls w)) (Hin : In r (urls w)) :
  exists r',
    lookup (URL.short_code r) (run trace w) = Some r'
    /\ In r' (urls (run trace w))
    /\ URL.id r' = URL.id r
    /\ URL.short_code r' = URL.short_code r
    /\ URL.original_url r' = URL.original_url r
    /\ URL.created_at r' = URL.created_at r
    /\ URL.expires_at r' = URL.expires_at r
    /\ URL.title r' = URL.title r.
Proof.
  pose proof (lookup_unique w r Hok Hin) as Hl.
  destruct (@run_lookup_frame (URL.short_code r) trace w r Hok Hl)
    as (r' & Hl' & Hsame & _).
  exists r'. split; [exact Hl'|]. split; [now apply lookup_In in Hl'|].
  destruct r, r'. cbn in *. inversion Hsame. subst. repeat split.
Qed.

(** X4. Along any run of the service the click counter of a stored row never
    decreases, and a row that is inactive stays inactive: there is no way
    back from a deactivation. *)
Theorem counter_and_flag_move_one_way (w : World) (r : URL.t)
    (trace : list call)
    (Hok : table_ok (urls w)) (Hin : In r (urls w)) :
  exists r',
    lookup (URL.short_code r) (run trace w) = Some r'
    /\ URL.click_count r <= URL.click_count r'
    /\ (URL.is_active r = false -> URL.is_active r' = false).
Proof.
  pose proof (lookup_unique w r Hok Hin) as Hl.
  destruct (@run_lookup_frame (URL.short_code r) trace w r Hok Hl)
    as (r' & Hl' & _ & Hle & Hflag).
  exists r'. auto.
Qed.

(** X5. Once a code has been deactivated, every later redirect of it is
    answered 410 "URL has been deactivated" and changes nothing, whatever
    calls are served in between, while its statistics stay readable and
    report is_active false. *)
Theorem deactivation_is_permanent (w : World) (r : URL.t) (trace : list call)
    (Hok : table_ok (urls w)) (Hin : In r (urls w)) :
  let w1 := world_of (deactivate_url (URL.short_code r) w) in
  redirect_url (URL.short_code r) (run trace w1)
  = Raise (HTTPException 410 "URL has been deactivated") (run trace w1)
  /\ exists resp,
       get_url_stats (URL.short_code r) (run trace w1)
       = Return resp (run trace w1)
       /\ URLResponse.is_active resp = false
       /\ URLResponse.original_url resp = URL.original_url r.
Proof.
  intros w1.
  pose proof (lookup_unique w r Hok Hin) as Hl.
  assert (Hok1 : table_ok (urls w1))
    by (apply (@serve_table_ok _ (DELETE_deactivate (URL.short_code r)) w Hok)).
  assert (Hl1 : lookup (URL.short_code r) w1 = Some (URL.with_is_active false r)).
  { unfold w1. rewrite deactivate_url_eq, Hl. simpl. unfold switch_off.
    erewrite lookup_after_update by (auto || exact Hl).
    now rewrite Z.eqb_refl. }
  destruct (@run_lookup_frame (URL.short_code r) trace w1 _ Hok1 Hl1)
    as (r' & Hl' & Hsame & _ & Hflag).
  specialize (Hflag eq_refl).
  split.
  - rewrite redirect_url_eq, Hl', Hflag. reflexivity.
  - rewrite get_url_stats_eq, Hl'. eexists. split; [reflexivity|].
    cbn. split; [exact Hflag|].
    destruct r, r'. cbn in *. inversion Hsame. reflexivity.
Qed.

(** X6. The statistics report the last committed update: after a successful
    redirect they show the click count one higher, after a deactivation they
    show is_active false, and in both cases every other field of the
    snapshot is as before. *)
Theorem stats_reflect_updates (w : World) (r : URL.t)
    (Hok : table_ok (urls w)) (Hin : In r (urls w)) :
  (forall resp w',
      redirect_url (URL.short_code r) w = Return resp w' ->
      get_url_stats (URL.short_code r) w'
      = Return (URLResponse.make
                  ("http://localhost:8000/" ++ URL.short_code r)
                  (URL.original_url r) (URL.click_count r + 1)
                  (URL.created_at r) (URL.expires_at r) (URL.is_active r)
                  (URL.title r)
                  (Some (generate_qr_code
                           ("http://localhost:8000/" ++ URL.short_code r))))
               w')
  /\ (forall msg w',
        deactivate_url (URL.short_code r) w = Return msg w' ->
        get_url_stats (URL.short_code r) w'
        = Return (URLResponse.make
                    ("http://localhost:8000/" ++ URL.short_code r)
                    (URL.original_url r) (URL.click_count r)
                    (URL.created_at r) (URL.expires_at r) false
                    (URL.title r)
                    (Some (generate_qr_code
                             ("http://localhost:8000/" ++ URL.short_code r))))
                 w').
Proof.
  pose proof (lookup_unique w r Hok Hin) as Hl. split.
  - intros resp w' H. rewrite redirect_url_eq, Hl in H.
    assert (Hl' : forall w0,
               lookup (URL.short_code r) (set_urls (click r (urls w)) w0)
               = Some (URL.with_click_count (URL.click_count r + 1) r)).
    { intros w0. unfold click.
      erewrite lookup_after_update by (auto || exact Hl).
      now rewrite Z.eqb_refl. }
    destruct (URL.is_active r) eqn:Ha; [|discriminate].
    destruct (URL.expires_at r) as [e|] eqn:He; [destruct (_ >? _)|];
      try discriminate; inversion H; subst;
      rewrite get_url_stats_eq, Hl'; cbn; rewrite Ha, He; reflexivity.
  - intros msg w' H. rewrite deactivate_url_eq, Hl in H.
    inversion H; subst. rewrite get_url_stats_eq. unfold switch_off.
    erewrite lookup_after_update by (auto || exact Hl).
    now rewrite Z.eqb_refl.
Qed.

(** ** shorten_url: its failures *)

Lemma query_first_eq (c : string) (w : World) :
  query_first c w = Return (lookup c w) w.
Proof. reflexivity. Qed.

Lemma shorten_url_Raise (fuel : nat) (request : URLShortenRequest.t)
    (w w' : World) (e : exn) :
  shorten_url fuel request w = Raise e w' ->
  urls w' = urls w
  /\ ((e = HTTPException 400 "Invalid URL format" /\ w' = w
       /\ is_valid_url (str_HttpUrl (URLShortenRequest.url request)) = false)
      \/ (e = HTTPException 400 "Custom alias already exists" /\ w' = w
          /\ exists alias,
               URLShortenRequest.custom_alias request = Some alias
               /\ truthy alias = true /\ lookup alias w <> None)
      \/ (e = OverflowError
          /\ exists days,
               URLShortenRequest.expires_in_days request = Some days
               /\ days <> 0)).
Proof.
  intros H. unfold shorten_url in H.
  destruct (is_valid_url _) eqn:Hv; cbn [negb] in H.
  2:{ inversion H; subst. split; [reflexivity|]. left. auto. }
  apply bind_Raise in H as [H|(code & w1 & Halloc & H)].
  - assert (Hfresh : fresh_short_code fuel w <> Raise e w').
    { intros E. prim E. contradiction. }
    destruct (URLShortenRequest.custom_alias request) as [alias|];
      [|contradiction].
    destruct (truthy alias) eqn:Ht; [|contradiction].
    apply bind_Raise in H as [H|(existing & w0 & Hq & H)]; [discriminate|].
    rewrite query_first_eq in Hq. inversion Hq; subst existing w0; clear Hq.
    destruct (lookup alias w) eqn:Hl; [|discriminate].
    inversion H; subst. split; [reflexivity|]. right. left.
    conjs; auto. exists alias. conjs; auto. congruence.
  - apply short_code_choice_Return in Halloc as (L1 & U1 & Hfind & _).
    apply bind_Raise in H as [H|(ex & w2 & Hexp & H)].
    + prim H. destruct P as (-> & -> & days & Hd & Hnz & _).
      split; [exact U1|]. right. right. split; [reflexivity|]. eauto.
    + pose proof (compute_expires_at_same
                    (URLShortenRequest.expires_in_days request) w1) as (U2 & _).
      rewrite Hexp in U2. simpl in U2.
      apply bind_Raise in H as [H|(r & w3 & _ & H)]; [|discriminate].
      prim H. destruct P as (_ & _ & Hdup). exfalso. apply Hdup.
      now rewrite U2, U1.
Qed.

Lemma shorten_url_Spin (fuel : nat) (request : URLShortenRequest.t)
    (w w' : World) :
  shorten_url fuel request w = Spin w' ->
  (exists n, w' = after_draws n w)
  /\ (URLShortenRequest.custom_alias request = None
      \/ URLShortenRequest.custom_alias request = Some EmptyString).
Proof.
  intros H. unfold shorten_url in H.
  destruct (is_valid_url _) eqn:Hv; cbn [negb] in H; [|discriminate].
  apply bind_Spin in H as [H|(code & w1 & Halloc & H)].
  - assert (Hfresh : fresh_short_code fuel w = Spin w' ->
                     exists n, w' = after_draws n w).
    { intros E. prim E. exact P. }
    destruct (URLShortenRequest.custom_alias request) as [alias|]; [|auto].
    destruct alias as [|a alias]; [auto|]. cbn [truthy] in H.
    apply bind_Spin in H as [H|(existing & w0 & Hq & H)]; [discriminate|].
    rewrite query_first_eq in Hq. inversion Hq; subst existing w0; clear Hq.
    destruct (lookup _ w); discriminate.
  - apply bind_Spin in H as [H|(ex & w2 & Hexp & H)].
    + prim H. contradiction.
    + apply bind_Spin in H as [H|(r & w3 & _ & H)]; [|discriminate].
      prim H. contradiction.
Qed.

(** X7. A shorten request that does not return a record leaves the table as
    it was.  It fails in one of three ways only: 400 "Invalid URL format"
    and 400 "Custom alias already exists", both with the world untouched,
    and an OverflowError (a 500) from an expiry that cannot be computed; the
    UNIQUE constraint never trips.  It can only keep retrying when no alias
    (or an empty one) was given. *)
Theorem shorten_failures (fuel : nat) (request : URLShortenRequest.t)
    (w : World) :
  match shorten_url fuel request w with
  | Return _ _ => True
  | Raise e w' =>
      urls w' = urls w /\ e <> IntegrityError
      /\ ((e = HTTPException 400 "Invalid URL format" /\ w' = w)
          \/ (e = HTTPException 400 "Custom alias already exists" /\ w' = w)
          \/ (e = OverflowError
              /\ exists days,
                   URLShortenRequest.expires_in_days request = Some days
                   /\ days <> 0))
  | Spin w' =>
      urls w' = urls w
      /\ (URLShortenRequest.custom_alias request = None
          \/ URLShortenRequest.custom_alias request = Some EmptyString)
  end.
Proof.
  destruct (shorten_url fuel request w) as [resp w'|e w'|w'] eqn:H; [exact I| |].
  - apply shorten_url_Raise in H as (U & [(-> & -> & _)|[(-> & -> & _)|(-> & Hd)]]).
    + conjs; auto. discriminate.
    + conjs; auto. discriminate.
    + conjs; auto. discriminate.
  - apply shorten_url_Spin in H as ((n & ->) & Ha). split; [reflexivity|exact Ha].
Qed.

(** ** shorten_url: what it returns *)

Lemma inserted_lookup (w w' : World) (d : option Z) (r : URL.t) :
  inserted w w' d r -> lookup (URL.short_code r) w' = Some r.
Proof.
  intros Hi. destruct (inserted_later Hi) as (_ & U).
  destruct Hi as (_ & _ & _ & _ & _ & _ & _ & Hfind & _).
  unfold lookup. rewrite U. erewrite find_app_none by exact Hfind.
  simpl. unfold by_code. now rewrite String.eqb_refl.
Qed.

(** X8. Insert then look up: the statistics of the code a successful shorten
    hands out, asked for right after, are the very response the shorten
    gave; and when no expiry was set, a redirect of that code answers with
    the URL that was submitted. *)
Theorem shorten_then_stats_round_trip (fuel : nat)
    (request : URLShortenRequest.t) (w w' : World) (resp : URLResponse.t)
    (Hcreated : shorten_url fuel request w = Return resp w') :
  exists code,
    URLResponse.short_url resp = "http://localhost:8000/" ++ code
    /\ get_url_stats code w' = Return resp w'
    /\ URLResponse.original_url resp
       = str_HttpUrl (URLShortenRequest.url request)
    /\ (URLResponse.expires_at resp = None ->
        exists w'',
          redirect_url code w'
          = Return (Redirect (str_HttpUrl (URLShortenRequest.url request))) w'').
Proof.
  apply shorten_url_Return in Hcreated as (r & Hi & Hu & _ & _ & _ & ->).
  pose proof (inserted_lookup Hi) as Hl.
  destruct Hi as (_ & _ & _ & _ & _ & _ & (Hclicks & Hactive) & _).
  exists (URL.short_code r). conjs.
  - reflexivity.
  - rewrite get_url_stats_eq, Hl. unfold created_response.
    now rewrite Hclicks, Hactive.
  - exact Hu.
  - unfold created_response. cbn [URLResponse.expires_at]. intros He.
    rewrite redirect_url_eq, Hl, Hactive, He, Hu. eauto.
Qed.

(** ** The short code a client reads back *)

Lemma str_split_nonempty (sep : ascii) (s : string) : str_split sep s <> [].
Proof.
  induction s as [|c s IH]; simpl; [discriminate|].
  destruct (Ascii.eqb c sep); [discriminate|].
  destruct (str_split sep s); discriminate.
Qed.

Lemma str_split_no_sep (sep : ascii) (s : string) :
  string_existsb (fun c => Ascii.eqb c sep) s = false -> str_split sep s = [s].
Proof.
  induction s as [|c s IH]; simpl; [reflexivity|].
  intros H. apply orb_false_iff in H as (Hc & Hs).
  now rewrite Hc, (IH Hs).
Qed.

Lemma str_split_segments (sep : ascii) (s : string) :
  Forall (fun seg => string_existsb (fun c => Ascii.eqb c sep) seg = false)
         (str_split sep s).
Proof.
  induction s as [|c s IH]; simpl.
  - repeat constructor.
  - destruct (Ascii.eqb c sep) eqn:Hc.
    + constructor; [reflexivity|exact IH].
    + destruct (str_split sep s) as [|seg segs].
      * repeat constructor. simpl. now rewrite Hc.
      * inversion IH; subst. constructor; [|assumption].
        simpl. now rewrite Hc.
Qed.

Lemma last_item_app (l1 l2 : list string) :
  l2 <> [] -> last_item (l1 ++ l2) = last_item l2.
Proof.
  intros Hne. induction l1 as [|x l1 IH]; [reflexivity|].
  simpl. destruct (l1 ++ l2)%list eqn:E; [|exact IH].
  destruct l1; [contradiction|discriminate].
Qed.

Lemma last_item_In (l : list string) (x : string) :
  last_item l = Some x -> In x l.
Proof.
  induction l as [|a l IH]; [discriminate|]. simpl.
  destruct l as [|b l]; [intros H; inversion H; now left|].
  intros H. right. now apply IH.
Qed.

Lemma str_split_after_sep (sep : ascii) (p s : string) :
  exists x pre,
    str_split sep (p ++ String sep s) = (x :: pre ++ str_split sep s)%list.
Proof.
  induction p as [|c p (x & pre & IH)]; simpl.
  - rewrite Ascii.eqb_refl. now exists EmptyString, [].
  - rewrite IH. destruct (Ascii.eqb c sep).
    + now exists EmptyString, (x :: pre).
    + now exists (String c x), pre.
Qed.

Lemma short_code_of_short_url_suffix (code : string) :
  short_code_of_short_url ("http://localhost:8000/" ++ code)
  = last_item (str_split "/"%char code).
Proof.
  unfold short_code_of_short_url.
  destruct (str_split_after_sep "/"%char "http://localhost:8000" code)
    as (x & pre & E).
  change ("http://localhost:8000/" ++ code)
    with ("http://localhost:8000" ++ String "/"%char code).
  rewrite E. change (x :: pre ++ str_split "/"%char code)%list
    with ((x :: pre) ++ str_split "/"%char code)%list.
  apply last_item_app, str_split_nonempty.
Qed.

Lemma alnum_no_slash (s : string) :
  string_forallb is_alnum s = true -> has_slash s = false.
Proof.
  unfold has_slash. induction s as [|c s IH]; simpl; [reflexivity|].
  intros H. apply andb_true_iff in H as (Hc & Hs). rewrite (IH Hs).
  destruct (Ascii.eqb_spec c "/"%char) as [->|_]; [discriminate Hc|reflexivity].
Qed.

(** The code of a record created without a usable alias comes from the
    generator. *)
Lemma shorten_url_generated (fuel : nat) (request : URLShortenRequest.t)
    (w w' : World) (resp : URLResponse.t) :
  URLShortenRequest.custom_alias request = None
  \/ URLShortenRequest.custom_alias request = Some EmptyString ->
  shorten_url fuel request w = Return resp w' ->
  exists code,
    URLResponse.short_url resp = "http://localhost:8000/" ++ code
    /\ String.length code = 6%nat
    /\ string_forallb is_alnum code = true
    /\ lookup code w = None
    /\ exists r, lookup code w' = Some r /\ resp = created_response r
                 /\ pristine r.
Proof.
  intros Ha H. pose proof H as H0.
  apply shorten_url_Return in H0 as (r & Hi & _ & _ & _ & _ & Hresp).
  unfold shorten_url in H.
  destruct (is_valid_url _); cbn [negb] in H; [|discriminate].
  apply bind_Return in H as (code & w1 & Halloc & H).
  assert (Hfresh : fresh_short_code fuel w = Return code w1)
    by (destruct Ha as [E|E]; rewrite E in Halloc; exact Halloc).
  prim Hfresh. destruct P as (_ & Hfind & Hlen & Halnum).
  apply bind_Return in H as (e & w2 & _ & H).
  apply bind_Return in H as (db_url & w3 & Hins & H).
  unfold ret in H. injection H as Hmade Hw.
  assert (Hcode : URL.short_code r = code).
  { rewrite Hresp in Hmade. apply (f_equal URLResponse.short_url) in Hmade.
    cbn in Hmade. inversion Hmade. reflexivity. }
  exists code. conjs; auto.
  - rewrite Hresp, <- Hcode. reflexivity.
  - exists r. rewrite <- Hcode. conjs; auto.
    + exact (inserted_lookup Hi).
    + now destruct Hi as (_ & _ & _ & _ & _ & _ & Hp & _).
Qed.

(** X9. The client script reads the short code back as the part of
    short_url after its last slash.  For a code without a slash this gives
    the code itself; every generated code is such a code, so for a record
    created without an alias the script gets a code whose statistics are the
    response it came from.  For an alias that contains a slash it gives
    another string, without slash, and not the alias. *)
Theorem client_reads_back_short_code (fuel : nat)
    (request : URLShortenRequest.t) (w : World) :
  (forall code,
      has_slash code = false ->
      short_code_of_short_url ("http://localhost:8000/" ++ code) = Some code)
  /\ (forall code,
        has_slash code = true ->
        exists other,
          short_code_of_short_url ("http://localhost:8000/" ++ code) = Some other
          /\ other <> code /\ has_slash other = false)
  /\ (forall resp w',
        URLShortenRequest.custom_alias request = None
        \/ URLShortenRequest.custom_alias request = Some EmptyString ->
        shorten_url fuel request w = Return resp w' ->
        exists code,
          short_code_of_short_url (URLResponse.short_url resp) = Some code
          /\ get_url_stats code w' = Return resp w').
Proof.
  assert (Hplain : forall code, has_slash code = false ->
            short_code_of_short_url ("http://localhost:8000/" ++ code) = Some code).
  { intros code Hno. rewrite short_code_of_short_url_suffix.
    unfold has_slash in Hno. now rewrite (str_split_no_sep _ _ Hno). }
  conjs.
  - exact Hplain.
  - intros code Hslash. rewrite short_code_of_short_url_suffix.
    destruct (last_item (str_split "/"%char code)) as [other|] eqn:E.
    + exists other. split; [reflexivity|].
      apply last_item_In in E.
      pose proof (str_split_segments "/"%char code) as Hsegs.
      rewrite Forall_forall in Hsegs. specialize (Hsegs other E).
      split; [|exact Hsegs].
      intros ->. unfold has_slash in Hslash. congruence.
    + exfalso. pose proof (str_split_nonempty "/"%char code) as Hne.
      destruct (str_split "/"%char code) as [|a l]; [contradiction|].
      clear - E. revert a E. induction l as [|b l IH]; intros a E;
        [discriminate|]. exact (IH b E).
  - intros resp w' Ha H.
    pose proof H as H1.
    apply shorten_url_generated in H1
      as (code & Hs & _ & Halnum & _ & r & Hl & Hr & Hclicks & Hactive);
      [|exact Ha].
    exists code. rewrite Hs. split; [apply Hplain, alnum_no_slash, Halnum|].
    rewrite get_url_stats_eq, Hl, Hr. unfold created_response.
    assert (Hcode : URL.short_code r = code).
    { rewrite Hr in Hs. cbn in Hs. inversion Hs. reflexivity. }
    now rewrite Hclicks, Hactive, Hcode.
Qed.

(** X10. An empty custom alias is no alias: the request is served exactly as
    if the field were absent, and the record it creates goes under a
    generated code of six alphanumeric characters, not under the empty
    code. *)
Theorem empty_alias_is_no_alias (fuel : nat) (url : HttpUrl)
    (expires_in_days : option Z) (title : option string) (w : World) :
  shorten_url fuel
    (URLShortenRequest.make url (Some EmptyString) expires_in_days title) w
  = shorten_url fuel (URLShortenRequest.make url None expires_in_days title) w
  /\ (forall resp w',
        shorten_url fuel
          (URLShortenRequest.make url (Some EmptyString) expires_in_days title) w
        = Return resp w' ->
        exists code,
          URLResponse.short_url resp = "http://localhost:8000/" ++ code
          /\ String.length code = 6%nat
          /\ string_forallb is_alnum code = true
          /\ lookup code w = None
          /\ lookup EmptyString w' = lookup EmptyString w).
Proof.
  split; [reflexivity|].
  intros resp w' H. pose proof H as H1.
  apply shorten_url_generated in H1
    as (code & Hs & Hlen & Halnum & Hfree & r & Hl & Hr & _);
    [|right; reflexivity].
  exists code. conjs; auto.
  apply shorten_url_Return in H as (r' & Hi & _).
  destruct (inserted_later Hi) as (_ & U).
  destruct Hi as (_ & _ & _ & _ & _ & _ & _ & _ & Htruthy & _).
  unfold lookup. rewrite U.
  destruct (find (by_code EmptyString) (urls w)) as [x|] eqn:E.
  - now erewrite find_app_some by exact E.
  - erewrite find_app_none by exact E. simpl. unfold by_code.
    destruct (URL.short_code r'); [discriminate|reflexivity].
Qed.

(** X11. A valid request with a custom alias that is free, and an expiry
    that can be computed, returns: the record goes under exactly that alias
    with the next key and the column defaults, it is the one row added,
    and the random source is not touched. *)
Theorem shorten_with_free_alias (fuel : nat) (request : URLShortenRequest.t)
    (w : World) (alias : string)
    (Hvalid : is_valid_url (str_HttpUrl (URLShortenRequest.url request)) = true)
    (Halias : URLShortenRequest.custom_alias request = Some alias)
    (Htruthy : truthy alias = true)
    (Hfree : lookup alias w = None)
    (Hfits : expiry_fits (URLShortenRequest.expires_in_days request)
                         (clock w (ticks w)) = true) :
  exists r w',
    shorten_url fuel request w = Return (created_response r) w'
    /\ urls w' = (urls w ++ [r])%list
    /\ drawn w' = drawn w
    /\ URL.short_code r = alias
    /\ URL.id r = next_id (urls w)
    /\ URL.original_url r = str_HttpUrl (URLShortenRequest.url request)
    /\ URL.title r = URLShortenRequest.title request
    /\ URL.click_count r = 0 /\ URL.is_active r = true.
Proof.
  unfold shorten_url. rewrite Hvalid, Halias, Htruthy. cbn [negb].
  erewrite bind_Return_eq
    by (unfold bind; rewrite query_first_eq, Hfree; reflexivity).
  destruct (compute_expires_at_fits _ _ Hfits) as (e & w2 & Hexp).
  erewrite bind_Return_eq by exact Hexp.
  pose proof (compute_expires_at_same
                (URLShortenRequest.expires_in_days request) w) as (U2 & _ & D2).
  rewrite Hexp in U2, D2. simpl in U2, D2.
  destruct (db_add_commit alias
              (str_HttpUrl (URLShortenRequest.url request)) e
              (URLShortenRequest.title request) w2) as [r w3|ex w3|w3] eqn:Hins;
    prim Hins.
  - erewrite bind_Return_eq by exact Hins. unfold ret.
    destruct P as (Hr & -> & _). exists r. eexists.
    split; [rewrite Hr; reflexivity|].
    rewrite Hr. cbn. rewrite U2, D2. repeat split.
  - destruct P as (_ & _ & Hdup). exfalso. apply Hdup. now rewrite U2.
  - contradiction.
Qed.

(** ** The retry loop *)

Lemma fresh_short_code_step (fuel : nat) (w : World) :
  fresh_short_code (S fuel) w
  = match lookup (code_at (entropy w) (drawn w)) w with
    | Some _ => fresh_short_code fuel (after_draws 6 w)
    | None => Return (code_at (entropy w) (drawn w)) (after_draws 6 w)
    end.
Proof.
  cbn [fresh_short_code]. unfold bind at 1.
  rewrite generate_short_code_code_at. unfold bind.
  rewrite query_first_eq. unfold lookup. cbn [urls after_draws].
  destruct (find _ (urls w)); reflexivity.
Qed.

Lemma candidate_shift (w : World) (j : nat) :
  code_at (entropy (after_draws 6 w)) (6 * j + drawn (after_draws 6 w))
  = code_at (entropy w) (6 * S j + drawn w).
Proof. cbn [entropy drawn after_draws]. f_equal. lia. Qed.

Lemma fresh_short_code_finds (fuel : nat) :
  forall w k,
    (k < fuel)%nat ->
    (forall j, (j < k)%nat ->
       lookup (code_at (entropy w) (6 * j + drawn w)) w <> None) ->
    lookup (code_at (entropy w) (6 * k + drawn w)) w = None ->
    fresh_short_code fuel w
    = Return (code_at (entropy w) (6 * k + drawn w)) (after_draws (6 * S k) w).
Proof.
  induction fuel as [|fuel IH]; intros w k Hk Htaken Hfree; [lia|].
  rewrite fresh_short_code_step. destruct k as [|k].
  - cbn [Nat.mul Nat.add] in *. now rewrite Hfree.
  - pose proof (Htaken O ltac:(lia)) as H0. cbn [Nat.mul Nat.add] in H0.
    destruct (lookup (code_at (entropy w) (drawn w)) w); [|contradiction].
    rewrite (IH (after_draws 6 w) k ltac:(lia)).
    + rewrite candidate_shift, after_draws_add. do 2 f_equal. lia.
    + intros j Hj. rewrite candidate_shift. unfold lookup. cbn [urls after_draws].
      apply (Htaken (S j)). lia.
    + rewrite candidate_shift. unfold lookup. cbn [urls after_draws]. exact Hfree.
Qed.

Lemma fresh_short_code_spins (fuel : nat) :
  forall w,
    (forall j, (j < fuel)%nat ->
       lookup (code_at (entropy w) (6 * j + drawn w)) w <> None) ->
    fresh_short_code fuel w = Spin (after_draws (6 * fuel) w).
Proof.
  induction fuel as [|fuel IH]; intros w Htaken.
  - cbn. now destruct w.
  - rewrite fresh_short_code_step.
    pose proof (Htaken O ltac:(lia)) as H0. cbn [Nat.mul Nat.add] in H0.
    destruct (lookup (code_at (entropy w) (drawn w)) w); [|contradiction].
    rewrite IH.
    + rewrite after_draws_add. do 2 f_equal. lia.
    + intros j Hj. rewrite candidate_shift. unfold lookup. cbn [urls after_draws].
      apply (Htaken (S j)). lia.
Qed.

Lemma first_free_candidate (fuel : nat) (w : World) :
  (exists k, (k < fuel)%nat
     /\ (forall j, (j < k)%nat ->
           lookup (code_at (entropy w) (6 * j + drawn w)) w <> None)
     /\ lookup (code_at (entropy w) (6 * k + drawn w)) w = None)
  \/ (forall j, (j < fuel)%nat ->
        lookup (code_at (entropy w) (6 * j + drawn w)) w <> None).
Proof.
  induction fuel as [|fuel [(k & Hk & Ht & Hf)|Hall]].
  - right. intros j Hj. lia.
  - left. exists k. split; [lia|auto].
  - destruct (lookup (code_at (entropy w) (6 * fuel + drawn w)) w) eqn:E.
    + right. intros j Hj.
      destruct (Nat.eq_dec j fuel) as [->|Hne]; [congruence|].
      apply Hall. lia.
    + left. exists fuel. auto.
Qed.

(** X12. The retry loop returns the first of the upcoming generated codes
    that is not in the table, having consumed six draws per attempt and
    changed nothing else; more fuel does not change what it returns; and it
    is still retrying when its fuel ends exactly when every code tried so
    far is taken. *)
Theorem retry_loop_returns_first_free_code (fuel : nat) (w : World) :
  (forall c w',
      fresh_short_code fuel w = Return c w'
      <-> exists k,
            (k < fuel)%nat
            /\ (forall j, (j < k)%nat ->
                  lookup (code_at (entropy w) (6 * j + drawn w)) w <> None)
            /\ lookup (code_at (entropy w) (6 * k + drawn w)) w = None
            /\ c = code_at (entropy w) (6 * k + drawn w)
            /\ w' = after_draws (6 * S k) w)
  /\ (forall w',
        fresh_short_code fuel w = Spin w'
        <-> (forall j, (j < fuel)%nat ->
               lookup (code_at (entropy w) (6 * j + drawn w)) w <> None)
            /\ w' = after_draws (6 * fuel) w)
  /\ (forall c w' more,
        fresh_short_code fuel w = Return c w' ->
        fresh_short_code (fuel + more) w = Return c w').
Proof.
  assert (Hret : forall c w',
            fresh_short_code fuel w = Return c w'
            <-> exists k,
                  (k < fuel)%nat
                  /\ (forall j, (j < k)%nat ->
                        lookup (code_at (entropy w) (6 * j + drawn w)) w <> None)
                  /\ lookup (code_at (entropy w) (6 * k + drawn w)) w = None
                  /\ c = code_at (entropy w) (6 * k + drawn w)
                  /\ w' = after_draws (6 * S k) w).
  { intros c w'. split.
    - intros H. destruct (first_free_candidate fuel w) as [(k & Hk & Ht & Hf)|Hall].
      + exists k. rewrite (@fresh_short_code_finds fuel w k Hk Ht Hf) in H.
        inversion H. auto.
      + rewrite (@fresh_short_code_spins fuel w Hall) in H. discriminate.
    - intros (k & Hk & Ht & Hf & -> & ->). now apply fresh_short_code_finds. }
  conjs.
  - exact Hret.
  - intros w'. split.
    + intros H. destruct (first_free_candidate fuel w) as [(k & Hk & Ht & Hf)|Hall].
      * rewrite (@fresh_short_code_finds fuel w k Hk Ht Hf) in H. discriminate.
      * rewrite (@fresh_short_code_spins fuel w Hall) in H. inversion H. auto.
    + intros (Hall & ->). now apply fresh_short_code_spins.
  - intros c w' more H. apply Hret in H as (k & Hk & Ht & Hf & -> & ->).
    apply fresh_short_code_finds; auto. lia.
Qed.

(** ** bulk_shorten_urls: one URL at a time *)

Lemma bulk_item_invalid (fuel : nat) (d : option Z) (url : HttpUrl) (w : World) :
  url_valid url = false ->
  try_except (bulk_try fuel d url) (bulk_except url) w
  = Return (inr (invalid_format_message url)) w.
Proof.
  unfold url_valid. intros Hv. unfold try_except, bulk_try. now rewrite Hv.
Qed.

Lemma compute_expires_at_overflow (d : option Z) (w : World) :
  expiry_fits d (clock w (ticks w)) = false ->
  compute_expires_at d w = Raise OverflowError (after_ticks 1 w).
Proof.
  intros Hfit. pose proof (compute_expires_at_inv d w) as P.
  destruct (compute_expires_at d w) as [e w'|e w'|w'].
  - exfalso. unfold expiry_fits in Hfit. destruct d as [days|]; [|discriminate].
    destruct (days =? 0); [discriminate|]. destruct P as (_ & _ & Ha & Hr).
    apply Z.leb_le in Ha. rewrite Ha, Hr in Hfit. discriminate.
  - now destruct P as (-> & -> & _).
  - contradiction.
Qed.

Lemma bulk_item_valid (fuel : nat) (d : option Z) (url : HttpUrl) (w : World) :
  url_valid url = true ->
  match try_except (bulk_try fuel d url) (bulk_except url) w with
  | Return (inl resp) w' =>
      (forall days, d = Some days -> days <> 0 ->
         Z.abs days <= datetime.MAX_DELTA_DAYS)
      /\ URLResponse.original_url resp = str_HttpUrl url
  | Return (inr msg) w' =>
      msg = processing_error_message url OverflowError
      /\ urls w' = urls w
      /\ exists days, d = Some days /\ days <> 0
  | Raise _ _ => False
  | Spin _ => True
  end.
Proof.
  unfold url_valid. intros Hv. unfold try_except.
  destruct (bulk_try fuel d url w) as [item w'|e w'|w'] eqn:H.
  - unfold bulk_try in H. rewrite Hv in H. cbn [negb] in H.
    apply bind_Return in H as (code & w1 & _ & H).
    apply bind_Return in H as (ex & w2 & Hexp & H).
    apply bind_Return in H as (r & w3 & _ & H).
    unfold ret in H. injection H as <- _. split; [|reflexivity].
    intros days -> Hnz. prim Hexp. apply Z.eqb_neq in Hnz. rewrite Hnz in P.
    now destruct P as (_ & _ & Ha & _).
  - pose proof H as H'. apply bulk_try_Raise in H' as (-> & U & _).
    unfold bulk_except, ret. conjs; auto.
    unfold bulk_try in H. rewrite Hv in H. cbn [negb] in H.
    apply bind_Raise in H as [H|(code & w1 & _ & H)]; [prim H; contradiction|].
    apply bind_Raise in H as [H|(ex & w2 & Hexp & H)].
    + prim H. destruct P as (_ & _ & days & Hd & Hnz & _). eauto.
    + apply bind_Raise in H as [H|(r & w3 & _ & H)]; [|discriminate].
      prim H. destruct P as (E & _). discriminate E.
  - exact I.
Qed.

Lemma length_lefts_rights {A B} (l : list (A + B)) :
  (List.length (lefts l) + List.length (rights l) = List.length l)%nat.
Proof.
  induction l as [|[a|b] l IH]; simpl; lia.
Qed.

Lemma bulk_for_overflow (fuel : nat) (days : Z) (todo : list HttpUrl) :
  datetime.MAX_DELTA_DAYS < Z.abs days ->
  forall results errors w out w',
    bulk_for fuel (Some days) todo results errors w = Return out w' ->
    out = (results,
           (errors ++ map (fun u => if url_valid u
                                    then processing_error_message u OverflowError
                                    else invalid_format_message u) todo)%list)
    /\ urls w' = urls w.
Proof.
  intros Hbig.
  assert (Hnz : days <> 0) by (unfold datetime.MAX_DELTA_DAYS in Hbig; lia).
  induction todo as [|url rest IH]; intros results errors w out w' H.
  - cbn in H. unfold ret in H. injection H as <- <-.
    cbn. now rewrite app_nil_r.
  - cbn [bulk_for] in H. apply bind_Return in H as (item & w1 & Hitem & H).
    cbn [map]. destruct (url_valid url) eqn:Hv.
    + pose proof (@bulk_item_valid fuel (Some days) url w Hv) as P.
      rewrite Hitem in P. destruct item as [resp|msg].
      * destruct P as (P & _). specialize (P days eq_refl Hnz). lia.
      * destruct P as (-> & U & _).
        apply IH in H as (-> & U'). split; [|congruence].
        now rewrite <- app_assoc.
    + rewrite (@bulk_item_invalid fuel (Some days) url w Hv) in Hitem.
      injection Hitem as <- <-.
      apply IH in H as (-> & U'). split; [|exact U'].
      now rewrite <- app_assoc.
Qed.

(** X13. An expiry that cannot be computed creates nothing.  More than
    999999999 days, either way, never fits.  A shorten request that is
    otherwise fine is then answered with an OverflowError (a 500) after one
    reading of the clock, the table untouched; a bulk request records one
    error string per URL, in order, and returns no record. *)
Theorem expiry_out_of_range (fuel : nat) (w : World) :
  (forall days now,
      datetime.MAX_DELTA_DAYS < Z.abs days ->
      expiry_fits (Some days) now = false)
  /\ (forall request alias,
        is_valid_url (str_HttpUrl (URLShortenRequest.url request)) = true ->
        URLShortenRequest.custom_alias request = Some alias ->
        truthy alias = true ->
        lookup alias w = None ->
        expiry_fits (URLShortenRequest.expires_in_days request)
                    (clock w (ticks w)) = false ->
        shorten_url fuel request w = Raise OverflowError (after_ticks 1 w))
  /\ (forall us days resp w',
        datetime.MAX_DELTA_DAYS < Z.abs days ->
        bulk_shorten_urls fuel (BulkURLRequest.make us (Some days)) w
        = Return resp w' ->
        BulkURLResponse.results resp = []
        /\ BulkURLResponse.total_created resp = 0
        /\ BulkURLResponse.errors resp
           = map (fun u => if url_valid u
                           then processing_error_message u OverflowError
                           else invalid_format_message u) us
        /\ urls w' = urls w).
Proof.
  conjs.
  - intros days now Hbig. unfold expiry_fits.
    assert (days <> 0) by (unfold datetime.MAX_DELTA_DAYS in Hbig; lia).
    destruct (Z.eqb_spec days 0); [contradiction|].
    destruct (Z.leb_spec (Z.abs days) datetime.MAX_DELTA_DAYS); [lia|reflexivity].
  - intros request alias Hv Ha Ht Hfree Hfit.
    unfold shorten_url. rewrite Hv, Ha, Ht. cbn [negb].
    erewrite bind_Return_eq
      by (unfold bind; rewrite query_first_eq, Hfree; reflexivity).
    erewrite bind_Raise_eq by (apply compute_expires_at_overflow; exact Hfit).
    reflexivity.
  - intros us days resp w' Hbig H. unfold bulk_shorten_urls in H.
    apply bind_Return in H as ([results errors] & w1 & Hfor & H).
    unfold ret in H. injection H as <- <-.
    cbn [BulkURLRequest.urls BulkURLRequest.expires_in_days] in Hfor.
    apply (@bulk_for_overflow fuel days _ Hbig) in Hfor as (E & U).
    injection E as -> ->. cbn. auto.
Qed.

Lemma bulk_for_plain (fuel : nat) (d : option Z) (todo : list HttpUrl) :
  d = None \/ d = Some 0 ->
  forall results errors w out w',
    bulk_for fuel d todo results errors w = Return out w' ->
    exists created,
      out = ((results ++ created)%list,
             (errors ++ map invalid_format_message
                          (filter (fun u => negb (url_valid u)) todo))%list)
      /\ map URLResponse.original_url created
         = map str_HttpUrl (filter url_valid todo).
Proof.
  intros Hd.
  induction todo as [|url rest IH]; intros results errors w out w' H.
  - cbn in H. unfold ret in H. injection H as <- <-.
    exists []. cbn. now rewrite !app_nil_r.
  - cbn [bulk_for] in H. apply bind_Return in H as (item & w1 & Hitem & H).
    cbn [filter]. destruct (url_valid url) eqn:Hv; cbn [negb].
    + pose proof (@bulk_item_valid fuel d url w Hv) as P.
      rewrite Hitem in P. destruct item as [resp|msg].
      * destruct P as (_ & Hu).
        apply IH in H as (created & -> & Hc).
        exists (resp :: created). split; [now rewrite <- app_assoc|].
        cbn. now rewrite Hu, Hc.
      * destruct P as (_ & _ & days & E & Hnz).
        destruct Hd as [Hd|Hd]; rewrite Hd in E; [discriminate|].
        injection E as <-. contradiction.
    + rewrite (@bulk_item_invalid fuel d url w Hv) in Hitem.
      injection Hitem as <- <-.
      apply IH in H as (created & -> & Hc).
      exists created. split; [|exact Hc].
      cbn [map]. now rewrite <- app_assoc.
Qed.

(** X14. A bulk request accounts for every URL: the records and the error
    strings it returns together are as many as the URLs it was given.  With
    no expiry asked for (the field absent or 0), the records are those of
    the URLs that validators.url accepts, in the order of the request, and
    the error strings are "Invalid URL format: <url>" for the others, in the
    order of the request. *)
Theorem bulk_keeps_request_order (fuel : nat) (request : BulkURLRequest.t)
    (w w' : World) (resp : BulkURLResponse.t)
    (Hreturned : bulk_shorten_urls fuel request w = Return resp w') :
  (List.length (BulkURLResponse.results resp)
   + List.length (BulkURLResponse.errors resp)
   = List.length (BulkURLRequest.urls request))%nat
  /\ (BulkURLRequest.expires_in_days request = None
      \/ BulkURLRequest.expires_in_days request = Some 0 ->
      map URLResponse.original_url (BulkURLResponse.results resp)
      = map str_HttpUrl (filter url_valid (BulkURLRequest.urls request))
      /\ BulkURLResponse.errors resp
         = map invalid_format_message
               (filter (fun u => negb (url_valid u))
                       (BulkURLRequest.urls request))).
Proof.
  unfold bulk_shorten_urls in Hreturned.
  apply bind_Return in Hreturned as ([results errors] & w1 & Hfor & H).
  unfold ret in H. injection H as <- <-. cbn. split.
  - pose proof (bulk_for_inv fuel (BulkURLRequest.expires_in_days request)
                  (BulkURLRequest.urls request) [] [] w) as P.
    rewrite Hfor in P. destruct P as (items & new & HF & E & _).
    injection E as -> ->. cbn.
    rewrite length_lefts_rights. symmetry. exact (Forall2_length HF).
  - intros Hd. apply (@bulk_for_plain fuel _ _ Hd) in Hfor as (created & E & Hc).
    injection E as -> ->. cbn. auto.
Qed.

(** ** bulk_shorten_urls against shorten_url *)

Lemma bulk_try_as_shorten (fuel : nat) (d : option Z) (url : HttpUrl) (w : World) :
  url_valid url = true ->
  bulk_try fuel d url w
  = match shorten_url fuel (URLShortenRequest.make url None d None) w with
    | Return resp w' => Return (inl resp) w'
    | Raise e w' => Raise e w'
    | Spin w' => Spin w'
    end.
Proof.
  unfold url_valid. intros Hv. unfold bulk_try, shorten_url.
  cbn [URLShortenRequest.url URLShortenRequest.custom_alias
       URLShortenRequest.expires_in_days URLShortenRequest.title].
  rewrite Hv. cbn [negb]. unfold bind.
  destruct (fresh_short_code fuel w) as [code w1|e w1|w1]; try reflexivity.
  destruct (compute_expires_at d w1) as [ex w2|e w2|w2]; try reflexivity.
  destruct (db_add_commit code (str_HttpUrl url) ex None w2) as [r w3|e w3|w3];
    reflexivity.
Qed.

Lemma bulk_shorten_urls_eq (fuel : nat) (us : list HttpUrl) (d : option Z)
    (w : World) :
  bulk_shorten_urls fuel (BulkURLRequest.make us d) w
  = match bulk_for fuel d us [] [] w with
    | Return out w' =>
        Return (BulkURLResponse.make (fst out)
                  (Z.of_nat (List.length (fst out))) (snd out)) w'
    | Raise e w' => Raise e w'
    | Spin w' => Spin w'
    end.
Proof.
  unfold bulk_shorten_urls, bind. cbn [BulkURLRequest.urls BulkURLRequest.expires_in_days].
  destruct (bulk_for fuel d us [] [] w) as [[results errors] w'|e w'|w'];
    reflexivity.
Qed.

(** X15. A bulk request for a single URL is a shorten request for that URL
    with no alias and no title: one returns a record exactly when the other
    does, the same record in the same world.  Where the shorten request
    fails, the bulk request returns no record and one error string:
    "Invalid URL format: <url>" for a URL that validators.url rejects,
    "Error processing <url>: ..." for an exception. *)
Theorem bulk_of_one_is_shorten (fuel : nat) (url : HttpUrl) (d : option Z)
    (w : World) :
  (forall resp w',
      shorten_url fuel (URLShortenRequest.make url None d None) w
      = Return resp w'
      <-> bulk_shorten_urls fuel (BulkURLRequest.make [url] d) w
          = Return (BulkURLResponse.make [resp] 1 []) w')
  /\ (forall e w',
        shorten_url fuel (URLShortenRequest.make url None d None) w
        = Raise e w' ->
        bulk_shorten_urls fuel (BulkURLRequest.make [url] d) w
        = Return (BulkURLResponse.make [] 0
                    [if url_valid url then processing_error_message url e
                     else invalid_format_message url]) w').
Proof.
  assert (Hb : bulk_shorten_urls fuel (BulkURLRequest.make [url] d) w
               = match try_except (bulk_try fuel d url) (bulk_except url) w with
                 | Return (inl r) w' =>
                     Return (BulkURLResponse.make [r] 1 []) w'
                 | Return (inr msg) w' =>
                     Return (BulkURLResponse.make [] 0 [msg]) w'
                 | Raise e w' => Raise e w'
                 | Spin w' => Spin w'
                 end).
  { rewrite bulk_shorten_urls_eq. cbn [bulk_for]. unfold bind.
    destruct (try_except (bulk_try fuel d url) (bulk_except url) w)
      as [[r|msg] w1|e w1|w1]; reflexivity. }
  rewrite Hb. clear Hb.
  destruct (url_valid url) eqn:Hv.
  - unfold try_except. rewrite (@bulk_try_as_shorten fuel d url w Hv).
    destruct (shorten_url fuel (URLShortenRequest.make url None d None) w)
      as [resp0 w0|e0 w0|w0]; split.
    + intros resp w'. split; intros H; now inversion H.
    + intros e w' H. discriminate H.
    + intros resp w'. unfold bulk_except, ret.
      split; intros H; discriminate H.
    + intros e w' H. inversion H; subst. reflexivity.
    + intros resp w'. split; intros H; discriminate H.
    + intros e w' H. discriminate H.
  - rewrite (@bulk_item_invalid fuel d url w Hv).
    assert (Hs : shorten_url fuel (URLShortenRequest.make url None d None) w
                 = Raise (HTTPException 400 "Invalid URL format") w).
    { unfold shorten_url. cbn [URLShortenRequest.url]. unfold url_valid in Hv.
      now rewrite Hv. }
    rewrite Hs. split.
    + intros resp w'. split; intros H; discriminate H.
    + intros e w' H. inversion H; subst. reflexivity.
Qed.

(** ** bulk_shorten_urls over a concatenation *)

Lemma bulk_for_acc (fuel : nat) (d : option Z) (todo : list HttpUrl) :
  forall results errors w,
    bulk_for fuel d todo results errors w
    = match bulk_for fuel d todo [] [] w with
      | Return out w' =>
          Return ((results ++ fst out)%list, (errors ++ snd out)%list) w'
      | Raise e w' => Raise e w'
      | Spin w' => Spin w'
      end.
Proof.
  induction todo as [|url rest IH]; intros results errors w.
  - cbn. unfold ret. cbn. now rewrite !app_nil_r.
  - cbn [bulk_for]. unfold bind.
    destruct (try_except (bulk_try fuel d url) (bulk_except url) w)
      as [[r|msg] w1|e w1|w1]; try reflexivity.
    + rewrite (IH (results ++ [r])%list errors w1), (IH ([] ++ [r])%list [] w1).
      destruct (bulk_for fuel d rest [] [] w1) as [[R E] w2|e w2|w2];
        try reflexivity.
      cbn. now rewrite <- app_assoc.
    + rewrite (IH results (errors ++ [msg])%list w1), (IH [] ([] ++ [msg])%list w1).
      destruct (bulk_for fuel d rest [] [] w1) as [[R E] w2|e w2|w2];
        try reflexivity.
      cbn. now rewrite <- app_assoc.
Qed.

Lemma bulk_for_app (fuel : nat) (d : option Z) (l1 l2 : list HttpUrl) :
  forall results errors w,
    bulk_for fuel d (l1 ++ l2) results errors w
    = match bulk_for fuel d l1 results errors w with
      | Return out w1 => bulk_for fuel d l2 (fst out) (snd out) w1
      | Raise e w1 => Raise e w1
      | Spin w1 => Spin w1
      end.
Proof.
  induction l1 as [|url rest IH]; intros results errors w.
  - reflexivity.
  - cbn [app bulk_for]. unfold bind.
    destruct (try_except (bulk_try fuel d url) (bulk_except url) w)
      as [[r|msg] w1|e w1|w1]; try reflexivity; apply IH.
Qed.

(** X16. One bulk request for the URLs of two lists does what a bulk
    request for the first list followed by one for the second does: it
    returns exactly when both do, with the records and the error strings of
    the first followed by those of the second, and the two counts added. *)
Theorem bulk_of_concatenation (fuel : nat) (d : option Z)
    (l1 l2 : list HttpUrl) (w : World) :
  forall resp w2,
    bulk_shorten_urls fuel (BulkURLRequest.make (l1 ++ l2) d) w = Return resp w2
    <-> exists resp1 w1 resp2,
          bulk_shorten_urls fuel (BulkURLRequest.make l1 d) w = Return resp1 w1
          /\ bulk_shorten_urls fuel (BulkURLRequest.make l2 d) w1
             = Return resp2 w2
          /\ resp = BulkURLResponse.make
                      (BulkURLResponse.results resp1
                       ++ BulkURLResponse.results resp2)
                      (BulkURLResponse.total_created resp1
                       + BulkURLResponse.total_created resp2)
                      (BulkURLResponse.errors resp1
                       ++ BulkURLResponse.errors resp2).
Proof.
  intros resp w2. rewrite !bulk_shorten_urls_eq, bulk_for_app.
  destruct (bulk_for fuel d l1 [] [] w) as [[R1 E1] w1|e w1|w1].
  - cbn [fst snd]. rewrite bulk_for_acc.
    setoid_rewrite bulk_shorten_urls_eq.
    destruct (bulk_for fuel d l2 [] [] w1) as [[R2 E2] w2'|e w2'|w2'] eqn:Hl2.
    + cbn [fst snd]. split.
      * intros H. injection H as <- <-.
        eexists _, w1, _. split; [reflexivity|]. rewrite Hl2.
        split; [reflexivity|].
        cbn. f_equal. rewrite length_app. lia.
      * intros (resp1 & w1' & resp2 & H1 & H2 & ->).
        injection H1 as <- <-. rewrite Hl2 in H2. injection H2 as <- <-.
        cbn. do 2 f_equal. rewrite length_app. lia.
    + split; [discriminate|].
      intros (resp1 & w1' & resp2 & H1 & H2 & _). injection H1 as <- <-.
      rewrite Hl2 in H2. discriminate H2.
    + split; [discriminate|].
      intros (resp1 & w1' & resp2 & H1 & H2 & _). injection H1 as <- <-.
      rewrite Hl2 in H2. discriminate H2.
  - split; [discriminate|]. intros (resp1 & w1' & resp2 & H1 & _). discriminate H1.
  - split; [discriminate|]. intros (resp1 & w1' & resp2 & H1 & _). discriminate H1.
Qed.

(** ** What a call can do to the table *)

Lemma table_steps_trans (a b c : list URL.t) :
  table_steps a b -> table_steps b c -> table_steps a c.
Proof.
  intros Hab Hbc. induction Hbc as [|l1 l2 l3 _ IH Hstep]; [exact Hab|].
  eapply steps_more; [apply IH; exact Hab|exact Hstep].
Qed.

Lemma steps_bind {A B} (m : M A) (f : A -> M B) (l0 : list URL.t) (w : World) :
  table_steps l0 (urls (world_of (m w))) ->
  (forall a w1, m w = Return a w1 ->
     table_steps l0 (urls (world_of (f a w1)))) ->
  table_steps l0 (urls (world_of (bind m f w))).
Proof.
  unfold bind. destruct (m w) as [a w1|e w1|w1]; simpl; auto.
Qed.

Lemma fresh_short_code_urls (fuel : nat) (w : World) :
  urls (world_of (fresh_short_code fuel w)) = urls w.
Proof.
  pose proof (fresh_short_code_inv fuel w) as P.
  destruct (fresh_short_code fuel w) as [c w'|e w'|w']; simpl.
  - now destruct P as ((n & ->) & _).
  - contradiction.
  - now destruct P as (n & ->).
Qed.

Lemma db_add_commit_steps (c u : string) (e : option Z) (t : option string)
    (w : World) :
  truthy c = true ->
  table_steps (urls w) (urls (world_of (db_add_commit c u e t w))).
Proof.
  intros Ht. pose proof (db_add_commit_inv c u e t w) as P.
  destruct (db_add_commit c u e t w) as [r w'|ex w'|w']; simpl.
  - destruct P as (-> & -> & Hfind). cbn [urls set_urls after_ticks].
    eapply steps_more; [apply steps_none|]. now apply step_insert.
  - destruct P as (_ & -> & _). apply steps_none.
  - contradiction.
Qed.

Lemma shorten_url_steps (fuel : nat) (request : URLShortenRequest.t) (w : World) :
  table_steps (urls w) (urls (world_of (shorten_url fuel request w))).
Proof.
  unfold shorten_url. destruct (negb _); [apply steps_none|].
  apply steps_bind.
  - destruct (URLShortenRequest.custom_alias request) as [alias|];
      [destruct (truthy alias)|];
      try (rewrite fresh_short_code_urls; apply steps_none).
    unfold bind. rewrite query_first_eq.
    destruct (lookup alias w); apply steps_none.
  - intros code w1 Halloc.
    apply short_code_choice_Return in Halloc as (_ & U1 & _ & Htruthy & _).
    pose proof (compute_expires_at_same
                  (URLShortenRequest.expires_in_days request) w1) as (U2 & _).
    apply steps_bind.
    + rewrite U2, U1. apply steps_none.
    + intros e w2 Hexp. rewrite Hexp in U2. simpl in U2.
      pose proof (@db_add_commit_steps code
                    (str_HttpUrl (URLShortenRequest.url request)) e
                    (URLShortenRequest.title request) w2 Htruthy) as Hstep.
      rewrite U2, U1 in Hstep.
      apply steps_bind; [exact Hstep|].
      intros r w3 Hins. rewrite Hins in Hstep. exact Hstep.
Qed.

Lemma bulk_item_steps (fuel : nat) (d : option Z) (url : HttpUrl) (w : World) :
  table_steps (urls w)
    (urls (world_of (try_except (bulk_try fuel d url) (bulk_except url) w))).
Proof.
  destruct (url_valid url) eqn:Hv.
  - pose proof (shorten_url_steps fuel (URLShortenRequest.make url None d None) w)
      as Hs.
    unfold try_except. rewrite (@bulk_try_as_shorten fuel d url w Hv).
    destruct (shorten_url fuel (URLShortenRequest.make url None d None) w);
      exact Hs.
  - rewrite (@bulk_item_invalid fuel d url w Hv). apply steps_none.
Qed.

Lemma bulk_for_steps (fuel : nat) (d : option Z) (todo : list HttpUrl) :
  forall results errors w,
    table_steps (urls w)
      (urls (world_of (bulk_for fuel d todo results errors w))).
Proof.
  induction todo as [|url rest IH]; intros results errors w.
  - apply steps_none.
  - cbn [bulk_for]. apply steps_bind; [apply bulk_item_steps|].
    intros item w1 Hitem.
    pose proof (bulk_item_steps fuel d url w) as Hs. rewrite Hitem in Hs.
    destruct item; (eapply table_steps_trans; [exact Hs|apply IH]).
Qed.

Lemma serve_steps (k : call) (w : World) :
  table_steps (urls w) (urls (serve k w)).
Proof.
  destruct k as [fuel rq|code|code|fuel rq|code]; simpl.
  - apply shorten_url_steps.
  - rewrite redirect_url_eq. destruct (lookup code w) as [r|] eqn:Hl;
      [|apply steps_none].
    apply lookup_In in Hl as (Hin & _).
    destruct (URL.is_active r) eqn:Ha; [|apply steps_none].
    destruct (URL.expires_at r) as [e|]; [destruct (_ >? _)|]; simpl;
      try apply steps_none;
      (eapply steps_more; [apply steps_none|now apply step_click]).
  - rewrite get_url_stats_eq. destruct (lookup code w); apply steps_none.
  - unfold bulk_shorten_urls. apply steps_bind; [apply bulk_for_steps|].
    intros [results errors] w1 Hfor. simpl.
    pose proof (bulk_for_steps fuel (BulkURLRequest.expires_in_days rq)
                  (BulkURLRequest.urls rq) [] [] w) as Hs.
    now rewrite Hfor in Hs.
  - rewrite deactivate_url_eq. destruct (lookup code w) as [r|] eqn:Hl;
      [|apply steps_none].
    apply lookup_In in Hl as (Hin & _). simpl.
    eapply steps_more; [apply steps_none|now apply step_switch_off].
Qed.

(** X17. Whatever a call does to the table, whether it returns, fails or is
    cut off, is a sequence of three kinds of change: the insertion at the
    end of one row with the next key, the column defaults and a code that
    was free and is not empty; one more click on an active stored row; the
    deactivation of a stored row.  No handler deletes or reorders rows or
    edits any other field, and a statistics lookup or a redirect that does
    not succeed changes nothing. *)
Theorem every_call_changes_the_table_by_steps (k : call) (w : World) :
  table_steps (urls w) (urls (serve k w))
  /\ (forall code, urls (serve (GET_stats code) w) = urls w)
  /\ (forall code,
        status 307 (redirect_url code w) <> Some 307 ->
        urls (serve (GET_redirect code) w) = urls w).
Proof.
  conjs.
  - apply serve_steps.
  - intros code. simpl. rewrite get_url_stats_eq. now destruct (lookup code w).
  - intros code. simpl. rewrite redirect_url_eq.
    destruct (lookup code w) as [r|]; [|reflexivity].
    destruct (URL.is_active r); [|reflexivity].
    destruct (URL.expires_at r) as [e|]; [destruct (_ >? _)|]; simpl;
      try reflexivity; intros H; contradiction H; reflexivity.
Qed.

(** ** Primary keys *)

Lemma fold_max_seq (n a : nat) :
  fold_right Z.max 0 (map Z.of_nat (seq a n))
  = match n with O => 0 | S _ => Z.of_nat (a + n - 1) end.
Proof.
  revert a. induction n as [|n IH]; intros a; [reflexivity|].
  cbn [seq map fold_right]. rewrite IH. destruct n; lia.
Qed.

Lemma sequential_next_id (l : list URL.t) :
  sequential_ids l -> next_id l = Z.of_nat (List.length l) + 1.
Proof.
  unfold sequential_ids, next_id. intros ->. rewrite fold_max_seq.
  destruct (List.length l); lia.
Qed.

Lemma table_step_sequential (l l' : list URL.t) :
  table_step l l' -> sequential_ids l -> sequential_ids l'.
Proof.
  assert (Hupd : forall pk f,
            (forall x, URL.id (f x) = URL.id x) ->
            sequential_ids l ->
            sequential_ids (map (fun x => if URL.id x =? pk then f x else x) l)).
  { intros pk f Hf Hs. unfold sequential_ids in *.
    rewrite length_map, map_map, <- Hs. apply map_ext.
    intros x. destruct (URL.id x =? pk); auto. }
  intros Hstep Hs. destruct Hstep as [l code url t e title _ _|l r _ _|l r _].
  - pose proof (sequential_next_id Hs) as Hn.
    unfold sequential_ids in *. rewrite map_app, length_app, Hs.
    cbn [map URL.id List.length]. rewrite Hn.
    rewrite Nat.add_1_r, seq_S, map_app. cbn [map]. do 2 f_equal. lia.
  - apply Hupd; auto.
  - apply Hupd; auto.
Qed.

Lemma table_steps_sequential (l l' : list URL.t) :
  table_steps l l' -> sequential_ids l -> sequential_ids l'.
Proof.
  induction 1 as [|l1 l2 l3 _ IH Hstep]; [auto|].
  intros Hs. eapply table_step_sequential; eauto.
Qed.

(** X18. In every world the service can reach from an empty database the
    primary keys of the table are 1, 2, 3, ... in the order of creation, so
    that the next record gets the number of rows plus one as its key. *)
Theorem keys_are_sequential (w : World) (Hreach : reachable w) :
  map URL.id (urls w) = map Z.of_nat (seq 1 (List.length (urls w)))
  /\ next_id (urls w) = Z.of_nat (List.length (urls w)) + 1
  /\ (forall fuel request resp w',
        shorten_url fuel request w = Return resp w' ->
        exists r, urls w' = (urls w ++ [r])%list
                  /\ URL.id r = Z.of_nat (List.length (urls w)) + 1).
Proof.
  assert (Hs : sequential_ids (urls w)).
  { induction Hreach as [e c|w k _ IH]; [reflexivity|].
    eapply table_steps_sequential; [|exact IH].
    apply serve_steps. }
  conjs.
  - exact Hs.
  - now apply sequential_next_id.
  - intros fuel request resp w' H.
    apply shorten_url_Return in H as (r & Hi & _).
    destruct (inserted_later Hi) as (_ & U).
    destruct Hi as (_ & _ & _ & _ & Hid & _).
    exists r. split; [exact U|]. rewrite Hid. now apply sequential_next_id.
Qed.

(** ** A positive expires_in_days *)

(** X19. A record created with expires_in_days = N > 0 expires N days after
    the reading of the clock that the handler took while serving the
    request.  Right after the request has returned, a redirect of its code
    succeeds, with the submitted URL, exactly when the clock has not passed
    that instant, and is answered 410 "URL has expired" otherwise. *)
Theorem positive_days_live_until_expiry (fuel : nat)
    (request : URLShortenRequest.t) (w w' : World) (resp : URLResponse.t)
    (N : Z) (HN : 0 < N)
    (Hdays : URLShortenRequest.expires_in_days request = Some N)
    (Hcreated : shorten_url fuel request w = Return resp w') :
  exists r i,
    lookup (URL.short_code r) w' = Some r
    /\ resp = created_response r
    /\ (ticks w <= i < ticks w')%nat
    /\ URL.expires_at r = Some (clock w i + N * datetime.us_per_day)
    /\ (clock w' (ticks w') <= clock w i + N * datetime.us_per_day ->
        exists w'',
          redirect_url (URL.short_code r) w'
          = Return (Redirect (str_HttpUrl (URLShortenRequest.url request))) w'')
    /\ (clock w i + N * datetime.us_per_day < clock w' (ticks w') ->
        redirect_url (URL.short_code r) w'
        = Raise (HTTPException 410 "URL has expired") (after_ticks 1 w')).
Proof.
  apply shorten_url_Return in Hcreated as (r & Hi & Hu & _ & _ & _ & ->).
  pose proof (inserted_lookup Hi) as Hl.
  destruct Hi as (w1 & L1 & U1 & Hw' & _ & _ & (_ & Hactive) & _ & _ & Hexp).
  rewrite Hdays in Hexp.
  assert (Hnz : (N =? 0) = false) by (apply Z.eqb_neq; lia).
  rewrite Hnz in Hexp. destruct Hexp as (i & Hi & Ht1 & He).
  exists r, i. conjs; auto.
  - subst w'. simpl. lia.
  - intros Hle. rewrite redirect_url_eq, Hl, Hactive, He.
    destruct (Z.gtb_spec (clock w' (ticks w'))
                (clock w i + N * datetime.us_per_day)); [lia|].
    rewrite Hu. eauto.
  - intros Hlt. rewrite redirect_url_eq, Hl, Hactive, He.
    destruct (Z.gtb_spec (clock w' (ticks w'))
                (clock w i + N * datetime.us_per_day)); [reflexivity|lia].
Qed.

(** ** The reach of the code generator *)

Lemma index_of_alphabet (c : ascii) :
  is_alnum c = true ->
  String.get (Nat.modulo (index_of c (ascii_letters ++ digits)) 62)
             (ascii_letters ++ digits) = Some c.
Proof.
  destruct c as [[] [] [] [] [] [] [] []]; intros H;
    try discriminate H; reflexivity.
Qed.

Lemma join_choices_spells (s : string) :
  forall w,
    (forall k c, String.get k s = Some c ->
       is_alnum c = true
       /\ entropy w (k + drawn w) = index_of c (ascii_letters ++ digits)) ->
    join_choices (String.length s) (ascii_letters ++ digits) w
    = Return s (after_draws (String.length s) w).
Proof.
  induction s as [|a s IH]; intros w H.
  - cbn. unfold ret. now destruct w.
  - cbn [String.length join_choices].
    destruct (H O a eq_refl) as (Ha & Hd). cbn [Nat.add] in Hd.
    assert (Hchoice : secrets.choice (ascii_letters ++ digits) w
                      = Return a (after_draws 1 w)).
    { unfold secrets.choice.
      change (String.length (ascii_letters ++ digits)) with 62%nat.
      cbv iota. unfold bind, secrets.randbelow. rewrite Hd.
      rewrite (index_of_alphabet a Ha). reflexivity. }
    erewrite bind_Return_eq by exact Hchoice.
    erewrite bind_Return_eq.
    2:{ apply IH. intros k c Hk. destruct (H (S k) c Hk) as (Hc & He).
        split; [exact Hc|]. cbn [entropy drawn after_draws].
        rewrite <- He. f_equal. lia. }
    unfold ret. now rewrite after_draws_succ.
Qed.

(** X20. The generator reaches the whole code space: for every string of
    alphanumeric characters there is a random source on which the generator,
    asked for that length, returns exactly that string; and when the string
    has six characters and is not in the table, the retry loop hands it out
    at the first attempt. *)
Theorem every_code_can_be_generated (s : string) (l : list URL.t)
    (c : nat -> Z) (t : nat)
    (Halnum : string_forallb is_alnum s = true) :
  generate_short_code (Z.of_nat (String.length s))
    (mkWorld l (entropy_for s) 0 c t)
  = Return s (mkWorld l (entropy_for s) (String.length s) c t)
  /\ (String.length s = 6%nat -> ~ In s (codes l) ->
      forall fuel,
        fresh_short_code (S fuel) (mkWorld l (entropy_for s) 0 c t)
        = Return s (mkWorld l (entropy_for s) 6 c t)).
Proof.
  assert (Hgen : generate_short_code (Z.of_nat (String.length s))
                   (mkWorld l (entropy_for s) 0 c t)
                 = Return s (mkWorld l (entropy_for s) (String.length s) c t)).
  { unfold generate_short_code. rewrite Nat2Z.id.
    rewrite join_choices_spells.
    - unfold after_draws. cbn. now rewrite Nat.add_0_r.
    - intros k a Hk. cbn [entropy drawn]. rewrite Nat.add_0_r.
      unfold entropy_for. rewrite Hk. split; [|reflexivity].
      exact (string_forallb_get _ _ _ Halnum Hk). }
  split; [exact Hgen|].
  intros Hlen Hfree fuel. cbn [fresh_short_code]. rewrite Hlen in Hgen.
  erewrite bind_Return_eq by exact Hgen.
  unfold bind. rewrite query_first_eq. unfold lookup. cbn [urls].
  apply find_by_code_none in Hfree. now rewrite Hfree.
Qed.

(** ** shorten_url with a generated code *)

(** X21. A valid request without alias, whose expiry can be computed,
    returns as soon as the retry loop has fuel for the first upcoming code
    that is not in the table: the record goes under that code, with the
    next key and the column defaults, and six draws have been consumed for
    it and for each taken code before it. *)
Theorem shorten_with_generated_code (fuel : nat)
    (request : URLShortenRequest.t) (w : World) (k : nat)
    (Hvalid : is_valid_url (str_HttpUrl (URLShortenRequest.url request)) = true)
    (Halias : URLShortenRequest.custom_alias request = None)
    (Hfuel : (k < fuel)%nat)
    (Htaken : forall j, (j < k)%nat ->
                lookup (code_at (entropy w) (6 * j + drawn w)) w <> None)
    (Hfree : lookup (code_at (entropy w) (6 * k + drawn w)) w = None)
    (Hfits : expiry_fits (URLShortenRequest.expires_in_days request)
                         (clock w (ticks w)) = true) :
  exists r w',
    shorten_url fuel request w = Return (created_response r) w'
    /\ urls w' = (urls w ++ [r])%list
    /\ drawn w' = (6 * S k + drawn w)%nat
    /\ URL.short_code r = code_at (entropy w) (6 * k + drawn w)
    /\ URL.id r = next_id (urls w)
    /\ URL.original_url r = str_HttpUrl (URLShortenRequest.url request)
    /\ URL.title r = URLShortenRequest.title request
    /\ URL.click_count r = 0 /\ URL.is_active r = true.
Proof.
  unfold shorten_url. rewrite Hvalid, Halias. cbn [negb].
  erewrite bind_Return_eq
    by exact (@fresh_short_code_finds fuel w k Hfuel Htaken Hfree).
  set (code := code_at (entropy w) (6 * k + drawn w)).
  set (w1 := after_draws (6 * S k) w).
  assert (Hfits1 : expiry_fits (URLShortenRequest.expires_in_days request)
                               (clock w1 (ticks w1)) = true) by exact Hfits.
  destruct (compute_expires_at_fits _ _ Hfits1) as (e & w2 & Hexp).
  erewrite bind_Return_eq by exact Hexp.
  pose proof (compute_expires_at_same
                (URLShortenRequest.expires_in_days request) w1) as (U2 & _ & D2).
  rewrite Hexp in U2, D2. simpl in U2, D2.
  destruct (db_add_commit code
              (str_HttpUrl (URLShortenRequest.url request)) e
              (URLShortenRequest.title request) w2) as [r w3|ex w3|w3] eqn:Hins;
    prim Hins.
  - erewrite bind_Return_eq by exact Hins. unfold ret.
    destruct P as (Hr & -> & _). exists r. eexists.
    split; [rewrite Hr; reflexivity|].
    rewrite Hr. cbn. rewrite U2, D2. repeat split.
  - destruct P as (_ & _ & Hdup). exfalso. apply Hdup. rewrite U2. exact Hfree.
  - contradiction.
Qed.

End Further.

(** * The further properties at concrete inputs *)

Lemma stored_fields_never_change_witness :
  table_ok (urls example_world)
  /\ In example_row_live (urls example_world)
  /\ exists r',
       lookup "docs"
         (@run reference
            [GET_redirect "docs"; DELETE_deactivate "docs"; GET_stats "promo"]
            example_world) = Some r'
       /\ URL.original_url r' = "https://a.com"
       /\ URL.created_at r' = example_clock 2.
Proof.
  assert (Hin : In example_row_live (urls example_world))
    by (simpl; auto).
  split; [exact example_world_ok|]. split; [exact Hin|].
  destruct (@stored_fields_never_change reference example_world example_row_live
              [GET_redirect "docs"; DELETE_deactivate "docs"; GET_stats "promo"]
              example_world_ok Hin)
    as (r' & Hl & _ & _ & _ & Hu & Hc & _).
  exists r'. split; [exact Hl|]. split; [exact Hu|exact Hc].
Defined.

Lemma counter_and_flag_move_one_way_witness :
  table_ok (urls example_world)
  /\ In example_row_inactive (urls example_world)
  /\ exists r',
       lookup "promo"
         (@run reference [GET_redirect "promo"; GET_redirect "docs"]
               example_world) = Some r'
       /\ 3 <= URL.click_count r'
       /\ (false = false -> URL.is_active r' = false).
Proof.
  assert (Hin : In example_row_inactive (urls example_world))
    by (simpl; auto).
  split; [exact example_world_ok|]. split; [exact Hin|].
  exact (@counter_and_flag_move_one_way reference example_world
           example_row_inactive [GET_redirect "promo"; GET_redirect "docs"]
           example_world_ok Hin).
Defined.

Lemma deactivation_is_permanent_witness :
  table_ok (urls example_world)
  /\ In example_row_live (urls example_world)
  /\ redirect_url "docs"
       (@run reference [GET_redirect "docs"; GET_stats "docs"]
             (world_of (deactivate_url "docs" example_world)))
     = Raise (HTTPException 410 "URL has been deactivated")
         (@run reference [GET_redirect "docs"; GET_stats "docs"]
               (world_of (deactivate_url "docs" example_world))).
Proof.
  assert (Hin : In example_row_live (urls example_world))
    by (simpl; auto).
  split; [exact example_world_ok|]. split; [exact Hin|].
  exact (proj1 (@deactivation_is_permanent reference example_world
                  example_row_live [GET_redirect "docs"; GET_stats "docs"]
                  example_world_ok Hin)).
Defined.

Lemma stats_reflect_updates_witness :
  table_ok (urls example_world)
  /\ In example_row_live (urls example_world)
  /\ exists w',
       redirect_url "docs" example_world
       = Return (Redirect "https://a.com") w'
       /\ @get_url_stats reference "docs" w'
          = Return (URLResponse.make "http://localhost:8000/docs"
                      "https://a.com" 8 (example_clock 2) None true None
                      (Some "data:image/png;base64,http://localhost:8000/docs"))
                   w'.
Proof.
  assert (Hin : In example_row_live (urls example_world))
    by (simpl; auto).
  split; [exact example_world_ok|]. split; [exact Hin|].
  eexists. split; [reflexivity|].
  exact (proj1 (@stats_reflect_updates reference example_world example_row_live
                  example_world_ok Hin) _ _ eq_refl).
Defined.

Lemma shorten_then_stats_round_trip_witness :
  exists resp w',
    @shorten_url reference 1
      (URLShortenRequest.make example_url_x None None None) example_boot
    = Return resp w'
    /\ exists code,
         URLResponse.short_url resp = "http://localhost:8000/" ++ code
         /\ @get_url_stats reference code w' = Return resp w'.
Proof.
  eexists. eexists.
  assert (H : @shorten_url reference 1
                (URLShortenRequest.make example_url_x None None None)
                example_boot
              = Return (@created_response reference
                          (URL.make 1 "abcdef" "https://example.com/x"
                                    (example_clock 0) 0 None true None))
                       (mkWorld [URL.make 1 "abcdef" "https://example.com/x"
                                          (example_clock 0) 0 None true None]
                                example_entropy 6 example_clock 1))
    by reflexivity.
  split; [exact H|].
  destruct (@shorten_then_stats_round_trip reference _ _ _ _ _ H)
    as (code & Hs & Hstats & _).
  exists code. split; [exact Hs|exact Hstats].
Defined.

Lemma shorten_with_free_alias_witness :
  lookup "fresh" example_world = None
  /\ exists r w',
       @shorten_url reference 0
         (URLShortenRequest.make example_url_a (Some "fresh") (Some 30)
                                 (Some "A"))
         example_world
       = Return (@created_response reference r) w'
       /\ URL.short_code r = "fresh"
       /\ URL.id r = 4
       /\ drawn w' = drawn example_world.
Proof.
  split; [reflexivity|].
  destruct (@shorten_with_free_alias reference 0
              (URLShortenRequest.make example_url_a (Some "fresh") (Some 30)
                                      (Some "A"))
              example_world "fresh" eq_refl eq_refl eq_refl eq_refl eq_refl)
    as (r & w' & H & _ & Hd & Hc & Hid & _).
  exists r, w'. split; [exact H|]. split; [exact Hc|]. split; [exact Hid|exact Hd].
Defined.

Lemma bulk_keeps_request_order_witness :
  exists resp w',
    @bulk_shorten_urls reference 1
      (BulkURLRequest.make [example_url_a; example_url_b] None) example_boot
    = Return resp w'
    /\ map URLResponse.original_url (BulkURLResponse.results resp)
       = ["https://a.com"; "https://b.com"]
    /\ BulkURLResponse.errors resp = [].
Proof.
  assert (Hfree : collision_free example_boot 2).
  { split.
    - vm_compute. repeat constructor; simpl; intuition discriminate.
    - intros c _ []. }
  destruct (@bulk_shorten_urls_returns reference 0
              (BulkURLRequest.make [example_url_a; example_url_b] None)
              example_boot Hfree) as (resp & w' & H).
  exists resp, w'. split; [exact H|].
  exact (proj2 (@bulk_keeps_request_order reference 1 _ _ _ _ H)
               (or_introl eq_refl)).
Defined.

Lemma keys_are_sequential_witness :
  @reachable reference example_reached
  /\ map URL.id (urls example_reached)
     = map Z.of_nat (seq 1 (List.length (urls example_reached))).
Proof.
  assert (Hreach : @reachable reference example_reached)
    by (apply reachable_serve, reachable_serve, reachable_boot).
  split; [exact Hreach|].
  exact (proj1 (@keys_are_sequential reference example_reached Hreach)).
Defined.

Lemma positive_days_live_until_expiry_witness :
  0 < 7
  /\ exists resp w',
       @shorten_url reference 0
         (URLShortenRequest.make example_url_a (Some "week") (Some 7) None)
         example_boot
       = Return resp w'
       /\ exists r i,
            lookup (URL.short_code r) w' = Some r
            /\ URL.expires_at r
               = Some (clock example_boot i + 7 * datetime.us_per_day).
Proof.
  split; [lia|].
  destruct (@shorten_alias_returns reference 0
              (URLShortenRequest.make example_url_a (Some "week") (Some 7) None)
              example_boot "week" eq_refl eq_refl eq_refl eq_refl eq_refl)
    as (resp & w' & H).
  exists resp, w'. split; [exact H|].
  destruct (@positive_days_live_until_expiry reference 0
              (URLShortenRequest.make example_url_a (Some "week") (Some 7) None)
              example_boot w' resp 7 ltac:(lia) eq_refl H)
    as (r & i & Hl & _ & _ & He & _).
  exists r, i. split; [exact Hl|exact He].
Defined.

Lemma every_code_can_be_generated_witness :
  string_forallb is_alnum "Ab3xYz" = true
  /\ generate_short_code 6 (mkWorld [] (entropy_for "Ab3xYz") 0 example_clock 0)
     = Return "Ab3xYz" (mkWorld [] (entropy_for "Ab3xYz") 6 example_clock 0).
Proof.
  split; [reflexivity|].
  exact (proj1 (@every_code_can_be_generated "Ab3xYz" [] example_clock 0
                  eq_refl)).
Defined.

Lemma shorten_with_generated_code_witness :
  lookup "abcdef"
    (mkWorld [URL.make 1 "abcdef" "https://a.com" (example_clock 0) 0 None true
                       None] example_entropy 0 example_clock 1) <> None
  /\ exists r w',
       @shorten_url reference 2
         (URLShortenRequest.make example_url_x None None None)
         (mkWorld [URL.make 1 "abcdef" "https://a.com" (example_clock 0) 0 None
                            true None] example_entropy 0 example_clock 1)
       = Return (@created_response reference r) w'
       /\ URL.short_code r = "ghijkl"
       /\ URL.id r = 2
       /\ drawn w' = 12%nat.
Proof.
  split; [discriminate|].
  destruct (@shorten_with_generated_code reference 2
              (URLShortenRequest.make example_url_x None None None)
              (mkWorld [URL.make 1 "abcdef" "https://a.com" (example_clock 0) 0
                                 None true None]
                       example_entropy 0 example_clock 1) 1
              eq_refl eq_refl ltac:(lia)
              ltac:(intros j Hj; assert (j = 0)%nat as -> by lia;
                    vm_compute; discriminate)
              ltac:(vm_compute; reflexivity) eq_refl)
    as (r & w' & H & _ & Hd & Hc & Hid & _).
  exists r, w'. split; [exact H|].
  split; [rewrite Hc; vm_compute; reflexivity|].
  split; [rewrite Hid; vm_compute; reflexivity|exact Hd].
Defined.

Lemma redirect_succeeds_exactly_when_live_witness :
  lookup "docs" example_world = Some example_row_live
  /\ redirect_url "docs" example_world
     = Return (Redirect "https://a.com")
         (set_urls (click example_row_live (urls example_world)) example_world).
Proof.
  split; [reflexivity|].
  apply (proj2 (proj1 (redirect_succeeds_exactly_when_live "docs" example_world)
                  _ _)).
  exists example_row_live.
  split; [reflexivity|]. split; [reflexivity|]. split; [exact I|].
  split; reflexivity.
Defined.

Lemma deactivate_unknown_and_idempotent_witness :
  lookup "promo" example_world = Some example_row_inactive
  /\ exists w1,
       deactivate_url "promo" example_world
       = Return "URL deactivated successfully" w1
       /\ lookup "promo" w1 = Some (URL.with_is_active false example_row_inactive)
       /\ deactivate_url "promo" w1 = Return "URL deactivated successfully" w1.
Proof.
  split; [reflexivity|].
  exact (proj2 (deactivate_unknown_and_idempotent "promo" example_world)
               example_row_inactive eq_refl).
Defined.

Lemma client_reads_back_short_code_witness :
  has_slash "Ab3xYz" = false
  /\ short_code_of_short_url ("http://localhost:8000/" ++ "Ab3xYz")
     = Some "Ab3xYz"
  /\ has_slash "my/alias" = true
  /\ exists other,
       short_code_of_short_url ("http://localhost:8000/" ++ "my/alias")
       = Some other
       /\ other <> "my/alias" /\ has_slash other = false.
Proof.
  pose proof (@client_reads_back_short_code reference 0
                (URLShortenRequest.make example_url_x None None None)
                example_boot) as (Hplain & Hslash & _).
  split; [reflexivity|]. split; [exact (Hplain "Ab3xYz" eq_refl)|].
  split; [reflexivity|]. exact (Hslash "my/alias" eq_refl).
Defined.

Lemma empty_alias_is_no_alias_witness :
  exists resp w',
    @shorten_url reference 1
      (URLShortenRequest.make example_url_x (Some EmptyString) None None)
      example_boot
    = Return resp w'
    /\ exists code,
         URLResponse.short_url resp = "http://localhost:8000/" ++ code
         /\ String.length code = 6%nat
         /\ string_forallb is_alnum code = true.
Proof.
  eexists. eexists.
  assert (H : @shorten_url reference 1
                (URLShortenRequest.make example_url_x (Some EmptyString) None
                                        None)
                example_boot
              = Return (@created_response reference
                          (URL.make 1 "abcdef" "https://example.com/x"
                                    (example_clock 0) 0 None true None))
                       (mkWorld [URL.make 1 "abcdef" "https://example.com/x"
                                          (example_clock 0) 0 None true None]
                                example_entropy 6 example_clock 1))
    by reflexivity.
  split; [exact H|].
  destruct (proj2 (@empty_alias_is_no_alias reference 1 example_url_x None None
                     example_boot) _ _ H)
    as (code & Hs & Hlen & Halnum & _).
  exists code. split; [exact Hs|]. split; [exact Hlen|exact Halnum].
Defined.

Lemma retry_loop_returns_first_free_code_witness :
  lookup "abcdef"
    (mkWorld [URL.make 1 "abcdef" "https://a.com" (example_clock 0) 0 None true
                       None] example_entropy 0 example_clock 1) <> None
  /\ fresh_short_code 2
       (mkWorld [URL.make 1 "abcdef" "https://a.com" (example_clock 0) 0 None
                          true None] example_entropy 0 example_clock 1)
     = Return "ghijkl"
         (mkWorld [URL.make 1 "abcdef" "https://a.com" (example_clock 0) 0 None
                            true None] example_entropy 12 example_clock 1).
Proof.
  split; [discriminate|].
  apply (proj2 (proj1 (retry_loop_returns_first_free_code 2
                         (mkWorld [URL.make 1 "abcdef" "https://a.com"
                                            (example_clock 0) 0 None true None]
                                  example_entropy 0 example_clock 1)) _ _)).
  exists 1%nat.
  split; [lia|].
  split; [intros j Hj; assert (j = 0)%nat as -> by lia; vm_compute; discriminate|].
  split; [vm_compute; reflexivity|].
  split; reflexivity.
Defined.

Lemma expiry_out_of_range_witness :
  datetime.MAX_DELTA_DAYS < Z.abs (-1000000000)
  /\ expiry_fits (Some (-1000000000)) (example_clock 3) = false
  /\ @shorten_url reference 0
       (URLShortenRequest.make example_url_a (Some "fresh") (Some 1000000000)
                               None)
       example_world
     = Raise OverflowError (after_ticks 1 example_world).
Proof.
  pose proof (@expiry_out_of_range reference 0 example_world)
    as (Hnever & Hshorten & _).
  assert (Hbig : datetime.MAX_DELTA_DAYS < Z.abs (-1000000000))
    by (vm_compute; reflexivity).
  split; [exact Hbig|].
  split; [exact (Hnever (-1000000000) (example_clock 3) Hbig)|].
  exact (Hshorten
           (URLShortenRequest.make example_url_a (Some "fresh")
                                   (Some 1000000000) None)
           "fresh" eq_refl eq_refl eq_refl eq_refl
           (Hnever 1000000000 _ ltac:(vm_compute; reflexivity))).
Defined.

Lemma bulk_of_one_is_shorten_witness :
  exists resp w',
    @shorten_url reference 1
      (URLShortenRequest.make example_url_x None None None) example_boot
    = Return resp w'
    /\ @bulk_shorten_urls reference 1
         (BulkURLRequest.make [example_url_x] None) example_boot
       = Return (BulkURLResponse.make [resp] 1 []) w'.
Proof.
  eexists. eexists.
  assert (H : @shorten_url reference 1
                (URLShortenRequest.make example_url_x None None None)
                example_boot
              = Return (@created_response reference
                          (URL.make 1 "abcdef" "https://example.com/x"
                                    (example_clock 0) 0 None true None))
                       (mkWorld [URL.make 1 "abcdef" "https://example.com/x"
                                          (example_clock 0) 0 None true None]
                                example_entropy 6 example_clock 1))
    by reflexivity.
  split; [exact H|].
  exact (proj1 (proj1 (@bulk_of_one_is_shorten reference 1 example_url_x None
                         example_boot) _ _) H).
Defined.

Lemma bulk_of_concatenation_witness :
  exists resp w2,
    @bulk_shorten_urls reference 1
      (BulkURLRequest.make ([example_url_a] ++ [example_url_b]) None)
      example_boot
    = Return resp w2
    /\ exists resp1 w1 resp2,
         @bulk_shorten_urls reference 1
           (BulkURLRequest.make [example_url_a] None) example_boot
         = Return resp1 w1
         /\ @bulk_shorten_urls reference 1
              (BulkURLRequest.make [example_url_b] None) w1
            = Return resp2 w2
         /\ BulkURLResponse.total_created resp
            = BulkURLResponse.total_created resp1
              + BulkURLResponse.total_created resp2.
Proof.
  assert (Hfree : collision_free example_boot 2).
  { split.
    - vm_compute. repeat constructor; simpl; intuition discriminate.
    - intros c _ []. }
  destruct (@bulk_shorten_urls_returns reference 0
              (BulkURLRequest.make [example_url_a; example_url_b] None)
              example_boot Hfree) as (resp & w2 & H).
  exists resp, w2. split; [exact H|].
  destruct (proj1 (@bulk_of_concatenation reference 1 None [example_url_a]
                     [example_url_b] example_boot resp w2) H)
    as (resp1 & w1 & resp2 & H1 & H2 & ->).
  exists resp1, w1, resp2. split; [exact H1|]. split; [exact H2|reflexivity].
Defined.

Lemma every_call_changes_the_table_by_steps_witness :
  table_steps (urls example_world)
    (urls (@serve reference (DELETE_deactivate "docs") example_world))
  /\ status 307 (redirect_url "promo" example_world) <> Some 307
  /\ urls (@serve reference (GET_redirect "promo") example_world)
     = urls example_world.
Proof.
  split.
  - exact (proj1 (@every_call_changes_the_table_by_steps reference
                    (DELETE_deactivate "docs") example_world)).
  - assert (Hgone : status 307 (redirect_url "promo" example_world) <> Some 307)
      by (vm_compute; discriminate).
    split; [exact Hgone|].
    exact (proj2 (proj2 (@every_call_changes_the_table_by_steps reference
                           (GET_stats "docs") example_world))
                 "promo" Hgone).
Defined.
